(** * Voice assistant: intent orchestration, clarification gate, token
    lifecycle and date parsing

    A shallow embedding of the parts of the repository that decide the
    behaviour of a conversational turn:

    - [Js]: the JavaScript values the untyped services pass around
      (parsed JSON, intents, parameters), truthiness and property reads;
    - [Calendar]: [GoogleCalendarService.parseDateTime];
    - [Auth]: [AuthService.getValidAccessToken] and [refreshAccessToken];
    - [OpenAIService]: the TypeScript [processTextInput] and
      [shouldRefreshData];
    - [Assistant]: the [OpenAI] conversation class ([getContext],
      [analyzeIntent], [generateResponse], [checkIfNeedsMoreInfo],
      [handleFollowUp]) and the [VoiceAssistant] orchestrator
      ([processTextInput], [handleIntent] and its six handlers).

    Asynchronous methods are sequential ([await] at every call), so each
    one is a function in a state-and-exception monad over a world that
    holds the mutable stores and the log of calls made so far. *)

From Stdlib Require Import ZArith QArith Qround List String Ascii Bool Lia.
From stdpp Require Import gmap strings.
Import ListNotations.

Set Warnings "-register-all".

Local Open Scope string_scope.
Local Open Scope Z_scope.

(** ** JavaScript values *)

Module Js.

(** Strings are sequences of 8-bit code units. Numbers are rationals:
    every finite double is one, and the order on doubles is the order on
    rationals. [VUndefined] is both the value [undefined] and the result
    of reading a property that is not there. *)
Inductive value : Type :=
| VUndefined
| VNull
| VBool (b : bool)
| VNum (q : Q)
| VStr (s : string)
| VArr (items : list value)
| VObj (props : list (string * value)).

(** Thrown values: [new Error(message)] and the runtime's own
    [TypeError], [SyntaxError], [RangeError]. *)
Inductive exn : Type :=
| Exn (kind : string) (message : string).

Definition Error (message : string) : exn := Exn "Error" message.
Definition TypeError (message : string) : exn := Exn "TypeError" message.

Inductive result (A : Type) : Type :=
| Ok (a : A)
| Throw (e : exn).
Arguments Ok {A} a.
Arguments Throw {A} e.

Definition rbind {A B} (r : result A) (k : A -> result B) : result B :=
  match r with
  | Ok a => k a
  | Throw e => Throw e
  end.

(** ToBoolean: [undefined], [null], [false], [0] and the empty string are
    falsy; every array and every object, empty ones too, is truthy. *)
Definition truthy (v : value) : bool :=
  match v with
  | VUndefined | VNull => false
  | VBool b => b
  | VNum q => negb (Qeq_bool q 0)
  | VStr s => negb (String.eqb s "")
  | VArr _ | VObj _ => true
  end.

Fixpoint assoc (k : string) (props : list (string * value)) : option value :=
  match props with
  | [] => None
  | (k', v) :: rest => if String.eqb k k' then Some v else assoc k rest
  end.

(** [o.k] for the property names this program reads ([action],
    [parameters], [title], ...): none of them is defined on a primitive,
    on an array or on [Object.prototype], so the read finds an own
    property of an object or yields [undefined]; reading from [undefined]
    or [null] throws. *)
Definition get (o : value) (k : string) : result value :=
  match o with
  | VUndefined | VNull =>
      Throw (TypeError ("Cannot read properties of undefined or null, reading " +:+ k))
  | VObj props =>
      match assoc k props with
      | Some v => Ok v
      | None => Ok VUndefined
      end
  | _ => Ok VUndefined
  end.

(** [v === s] for a string literal [s]. *)
Definition is_str (v : value) (s : string) : bool :=
  match v with
  | VStr s' => String.eqb s' s
  | _ => false
  end.

(** [a || b] on values. *)
Definition or_else (a b : value) : value := if truthy a then a else b.

(** ToNumber on the values whose conversion does not go through a string:
    [None] is NaN. Strings, arrays and objects convert through the
    runtime's string-to-number reading, [str_num]. *)
Definition to_number (str_num : value -> option Q) (v : value) : option Q :=
  match v with
  | VUndefined => None
  | VNull => Some 0%Q
  | VBool b => Some (if b then 1%Q else 0%Q)
  | VNum q => Some q
  | _ => str_num v
  end.

(** [v > q] for a number literal [q]: false when [v] converts to NaN. *)
Definition gt_num (str_num : value -> option Q) (v : value) (q : Q) : bool :=
  match to_number str_num v with
  | Some x => match (x ?= q)%Q with Gt => true | _ => false end
  | None => false
  end.

End Js.
Export Js.

Declare Scope result_scope.
Delimit Scope result_scope with result.
Notation "x <- c1 ;; c2" := (rbind c1 (fun x => c2))
  (at level 100, c1 at next level, right associativity) : result_scope.

(** ** Strings and the time pattern of [parseDateTime] *)

Module Str.

Definition code (c : ascii) : Z := Z.of_N (N_of_ascii c).

(** [\d] *)
Definition is_digit (c : ascii) : bool := (48 <=? code c) && (code c <=? 57).

(** [\s] on 8-bit code units: tab, line feed, vertical tab, form feed,
    carriage return, space and no-break space. *)
Definition is_space (c : ascii) : bool :=
  ((9 <=? code c) && (code c <=? 13)) || (code c =? 32) || (code c =? 160).

(** [toLowerCase] on 8-bit code units: A-Z, and the Latin-1 capitals
    U+00C0-U+00DE except the multiplication sign U+00D7. *)
Definition lower_char (c : ascii) : ascii :=
  let n := code c in
  if ((65 <=? n) && (n <=? 90)) || ((192 <=? n) && (n <=? 222) && negb (n =? 215))
  then ascii_of_N (Z.to_N (n + 32))
  else c.

Fixpoint toLowerCase (s : string) : string :=
  match s with
  | EmptyString => EmptyString
  | String c r => String (lower_char c) (toLowerCase r)
  end.

(** [s.includes(sub)] *)
Fixpoint includes (s sub : string) : bool :=
  String.prefix sub s ||
  match s with
  | EmptyString => false
  | String _ r => includes r sub
  end.

(** [parseInt] of a string of decimal digits. *)
Fixpoint digits_value (acc : Z) (s : string) : Z :=
  match s with
  | EmptyString => acc
  | String c r => digits_value (10 * acc + (code c - 48)) r
  end.

Definition parseInt (s : string) : Z := digits_value 0 s.

Fixpoint skip_spaces (s : string) : string :=
  match s with
  | String c r => if is_space c then skip_spaces r else s
  | EmptyString => EmptyString
  end.

(** The three capture groups of [/(\d{1,2}):?(\d{2})?\s*(am|pm)?/]; the
    second and third may be unmatched. *)
Definition groups : Type := string * option string * option string.

(** The pattern anchored at the head of [s]. Everything after the first
    digit is optional, so the greedy choice at each step is the match: one
    digit and a second if it is there, a colon if it is there, two more
    digits if both are there, all the white space, then am or pm. *)
Definition match_here (s : string) : option groups :=
  match s with
  | String c1 r1 =>
      if is_digit c1 then
        let '(g1, r2) :=
          match r1 with
          | String c2 r2' =>
              if is_digit c2 then (String c1 (String c2 EmptyString), r2')
              else (String c1 EmptyString, r1)
          | EmptyString => (String c1 EmptyString, r1)
          end in
        let r3 :=
          match r2 with
          | String c r => if Ascii.eqb c ":" then r else r2
          | EmptyString => r2
          end in
        let '(g2, r4) :=
          match r3 with
          | String d1 (String d2 r) =>
              if is_digit d1 && is_digit d2
              then (Some (String d1 (String d2 EmptyString)), r)
              else (None, r3)
          | _ => (None, r3)
          end in
        let r5 := skip_spaces r4 in
        let g3 :=
          if String.prefix "am" r5 then Some "am"
          else if String.prefix "pm" r5 then Some "pm"
          else None in
        Some (g1, g2, g3)
      else None
  | EmptyString => None
  end.

(** [s.match(/(\d{1,2}):?(\d{2})?\s*(am|pm)?/)]: the leftmost position
    where the pattern matches, [None] for [null]. *)
Fixpoint time_match (s : string) : option groups :=
  match match_here s with
  | Some g => Some g
  | None =>
      match s with
      | String _ r => time_match r
      | EmptyString => None
      end
  end.

Fixpoint has_digit (s : string) : bool :=
  match s with
  | EmptyString => false
  | String c r => is_digit c || has_digit r
  end.

End Str.

(** ** Time values *)

Module Date.

Definition msPerDay : Z := 86400000.
Definition msPerHour : Z := 3600000.
Definition msPerMinute : Z := 60000.
Definition msPerSecond : Z := 1000.

Definition Day (t : Z) : Z := t / msPerDay.
Definition TimeWithinDay (t : Z) : Z := t mod msPerDay.
Definition WeekDay (t : Z) : Z := (Day t + 4) mod 7.
Definition HourFromTime (t : Z) : Z := (t / msPerHour) mod 24.
Definition MinFromTime (t : Z) : Z := (t / msPerMinute) mod 60.
Definition SecFromTime (t : Z) : Z := (t / msPerSecond) mod 60.
Definition msFromTime (t : Z) : Z := t mod msPerSecond.

Definition MakeTime (hour min sec ms : Z) : Z :=
  hour * msPerHour + min * msPerMinute + sec * msPerSecond + ms.
Definition MakeDate (day time : Z) : Z := day * msPerDay + time.

Section Host.

(** The host's time zone: [localTZA t true] is the offset of local time
    from UTC at the UTC instant [t], [localTZA t false] the offset at the
    local time [t]. Time values are integers of milliseconds since the
    epoch; the range limit of Date objects (8.64e15 ms) is far from any
    clock reading and is not modelled. *)
Variable localTZA : Z -> bool -> Z.

Definition LocalTime (t : Z) : Z := t + localTZA t true.
Definition UTC (t : Z) : Z := t - localTZA t false.

(** [d.getDay()] *)
Definition getDay (t : Z) : Z := WeekDay (LocalTime t).

(** [d.setDate(d.getDate() + k)]: the day of the month plus [k], handed
    to MakeDay with the date's own year and month, is the local day number
    plus [k]; the time within the day is kept. *)
Definition setDate_plus (t k : Z) : Z :=
  let l := LocalTime t in
  UTC (MakeDate (Day l + k) (TimeWithinDay l)).

(** [d.setHours(hour, min, sec, ms)] *)
Definition setHours (t hour min sec ms : Z) : Z :=
  UTC (MakeDate (Day (LocalTime t)) (MakeTime hour min sec ms)).

End Host.

End Date.

(** ** GoogleCalendarService.parseDateTime *)

Module Calendar.
Import Str Date.

Record interval : Type := { start : string; end_ : string }.

Section Host.

Variable localTZA : Z -> bool -> Z.
(** [Date.prototype.toISOString] of a time value. *)
Variable toISOString : Z -> string.

Definition days : list string :=
  ["sunday"; "monday"; "tuesday"; "wednesday"; "thursday"; "friday"; "saturday"].

(** [days.findIndex(day => lowerStr.includes(day))] *)
Fixpoint findIndex (lowerStr : string) (ds : list string) (i : Z) : Z :=
  match ds with
  | [] => -1
  | d :: rest => if includes lowerStr d then i else findIndex lowerStr rest (i + 1)
  end.

(** The date part: the branches on tomorrow, next week and the names of
    the days of the week; [now] otherwise. *)
Definition resolve_date (now : Z) (lowerStr : string) : Z :=
  if includes lowerStr "tomorrow" then
    setDate_plus localTZA now 1
  else if includes lowerStr "next week" then
    setDate_plus localTZA now 7
  else if includes lowerStr "monday" || includes lowerStr "tuesday" ||
          includes lowerStr "wednesday" || includes lowerStr "thursday" ||
          includes lowerStr "friday" || includes lowerStr "saturday" ||
          includes lowerStr "sunday" then
    let targetDay := findIndex lowerStr days 0 in
    let daysUntilTarget := Z.rem (targetDay - getDay localTZA now + 7) 7 in
    setDate_plus localTZA now daysUntilTarget
  else
    now.

(** The time part: hours and minutes of the first match of the time
    pattern with the am/pm adjustment, 2 PM when there is none. *)
Definition resolve_time (startDate : Z) (lowerStr : string) : Z :=
  match time_match lowerStr with
  | Some (g1, g2, ampm) =>
      let hours := parseInt g1 in
      let minutes := parseInt (match g2 with Some m => m | None => "0" end) in
      let hours :=
        match ampm with
        | Some "pm" => if negb (hours =? 12) then hours + 12 else hours
        | Some "am" => if hours =? 12 then 0 else hours
        | _ => hours
        end in
      setHours localTZA startDate hours minutes 0 0
  | None =>
      setHours localTZA startDate 14 0 0 0
  end.

(** The two Date objects [startDate] and [endDate] at the return. *)
Definition parseDateTime_dates (now : Z) (dateTimeString : string) : Z * Z :=
  let lowerStr := toLowerCase dateTimeString in
  let startDate := resolve_date now lowerStr in
  let startDate := resolve_time startDate lowerStr in
  let endDate := startDate + 60 * 60 * 1000 in
  (startDate, endDate).

(** [parseDateTime(dateTimeString)] at the clock reading [now]. *)
Definition parseDateTime (now : Z) (dateTimeString : string) : interval :=
  let '(startDate, endDate) := parseDateTime_dates now dateTimeString in
  {| start := toISOString startDate; end_ := toISOString endDate |}.

End Host.

End Calendar.

(** ** Sequential effects: a world, exceptions, try/catch *)

Module Eff.

Definition M (W A : Type) : Type := W -> result A * W.

Definition ret {W A} (a : A) : M W A := fun w => (Ok a, w).

Definition throw {W A} (e : exn) : M W A := fun w => (Throw e, w).

Definition bind {W A B} (m : M W A) (k : A -> M W B) : M W B :=
  fun w =>
    match m w with
    | (Ok a, w') => k a w'
    | (Throw e, w') => (Throw e, w')
    end.

(** [try { body } catch (error) { handler }]: the handler runs in the
    world the body left behind. *)
Definition try_catch {W A} (body : M W A) (handler : exn -> M W A) : M W A :=
  fun w =>
    match body w with
    | (Ok a, w') => (Ok a, w')
    | (Throw e, w') => handler e w'
    end.

(** A computation of the runtime that touches no store. *)
Definition lift {W A} (r : result A) : M W A := fun w => (r, w).

End Eff.
Export Eff.

Declare Scope eff_scope.
Delimit Scope eff_scope with eff.
Notation "x <- c1 ;; c2" := (bind c1 (fun x => c2))
  (at level 100, c1 at next level, right associativity) : eff_scope.
Notation "c1 ;; c2" := (bind c1 (fun _ => c2))
  (at level 100, right associativity) : eff_scope.

(** ** AuthService: the token lifecycle *)

Module Auth.

(** The fields of the [User] document that the token lifecycle reads and
    writes. The model file [models/User] is not part of the sources; the
    fields are those the service uses and the specification lists for a
    principal. *)
Record User : Type := {
  accessToken : string;
  refreshToken : option string;
  tokenExpiry : Z
}.

(** The credentials the OAuth client returns on a refresh;
    [refresh_token] may be missing. *)
Record Credentials : Type := {
  access_token : string;
  refresh_token : option string;
  expiry_date : Z
}.

Inductive call : Type :=
| FindById (userId : string)
| Save (userId : string) (user : User)
| OAuthRefresh (refresh_token : string).

Record world : Type := {
  users : gmap string User;
  calls : list call
}.

(** What the collaborators answer: whether the user store fails at a
    call, and the outcome of the OAuth client's refresh, both as functions
    of the calls made so far. *)
Record Env : Type := {
  store_fault : list call -> option exn;
  oauth_refresh : list call -> string -> result Credentials
}.

Section Service.

Variable env : Env.

Local Open Scope eff_scope.

Definition record (c : call) (w : world) : world :=
  {| users := users w; calls := calls w ++ [c] |}.

(** [User.findById(userId)] *)
Definition findById (userId : string) : M world (option User) :=
  fun w =>
    match store_fault env (calls w) with
    | Some e => (Throw e, record (FindById userId) w)
    | None => (Ok (users w !! userId), record (FindById userId) w)
    end.

(** [user.save()] *)
Definition save (userId : string) (user : User) : M world unit :=
  fun w =>
    match store_fault env (calls w) with
    | Some e => (Throw e, record (Save userId user) w)
    | None =>
        (Ok tt, {| users := <[userId := user]> (users w);
                   calls := calls w ++ [Save userId user] |})
    end.

(** [this.oauth2Client.refreshAccessToken()] with the refresh token set. *)
Definition oauth2Client_refreshAccessToken (refreshToken : string) : M world Credentials :=
  fun w => (oauth_refresh env (calls w) refreshToken, record (OAuthRefresh refreshToken) w).

Definition refreshAccessToken (refreshToken : string) : M world Credentials :=
  try_catch
    (credentials <- oauth2Client_refreshAccessToken refreshToken ;;
     ret credentials)
    (fun _ => throw (Error "Failed to refresh access token")).

(** Truthiness of an optional string: a missing one and the empty one
    are falsy. *)
Definition present (s : option string) : bool :=
  match s with
  | Some s => negb (String.eqb s "")
  | None => false
  end.

(** [getValidAccessToken(userId)] at the clock reading [now]. *)
Definition getValidAccessToken (now : Z) (userId : string) : M world string :=
  try_catch
    (user <- findById userId ;;
     match user with
     | None => throw (Error "User not found")
     | Some user =>
         let expiryTime := tokenExpiry user in
         let fiveMinutesFromNow := now + 5 * 60 * 1000 in
         if expiryTime >? fiveMinutesFromNow then
           ret (accessToken user)
         else
           match refreshToken user with
           | None => throw (Error "No refresh token available")
           | Some rt =>
               if String.eqb rt "" then
                 throw (Error "No refresh token available")
               else
                 newTokens <- refreshAccessToken rt ;;
                 let user' :=
                   {| accessToken := access_token newTokens;
                      refreshToken :=
                        if present (refresh_token newTokens)
                        then refresh_token newTokens
                        else refreshToken user;
                      tokenExpiry := expiry_date newTokens |} in
                 save userId user' ;;
                 ret (accessToken user')
           end
     end)
    (fun _ => throw (Error "Failed to get valid access token")).

End Service.

(** The error kinds the specification names for a token that cannot be
    refreshed. *)
Inductive spec_error_kind : Type :=
| NoRefreshToken
| RefreshFailed.

(** The kind an exception of the service tells its caller, read off its
    message: the two messages the service has for these failures, and no
    kind for any other message. *)
Definition kind_of (e : exn) : option spec_error_kind :=
  match e with
  | Exn _ message =>
      if String.eqb message "No refresh token available" then Some NoRefreshToken
      else if String.eqb message "Failed to refresh access token" then Some RefreshFailed
      else None
  end.

(** The token is inside the expiry window: it expires within five minutes
    of [now], or has expired. *)
Definition in_window (now : Z) (user : User) : Prop :=
  tokenExpiry user <= now + 5 * 60 * 1000.

End Auth.

(** ** The host runtime *)

(** Built-in functions of the JavaScript runtime that the services call
    and whose definitions are not part of the repository. *)
Record Runtime : Type := {
  (** [JSON.parse(text)]: throws a SyntaxError on malformed text. *)
  JSON_parse : string -> result value;
  (** [JSON.stringify(v)] *)
  JSON_stringify : value -> string;
  (** ToString of a value that is not a string. *)
  ToString_other : value -> string;
  (** ToNumber of a string, an array or an object; [None] is NaN. *)
  ToNumber_other : value -> option Q;
  (** The time zone of the host. *)
  localTZA : Z -> bool -> Z;
  (** [new Date(v)]: the time value, [None] for an invalid date. *)
  Date_of : value -> option Z;
  (** [toISOString] of a valid date. *)
  toISOString : Z -> string;
  (** [toLocaleDateString], [toLocaleTimeString] of a date, valid or not. *)
  toLocaleDateString : option Z -> string;
  toLocaleTimeString : option Z -> string
}.

(** ToString, as in a template literal. *)
Definition to_string (rt : Runtime) (v : value) : string :=
  match v with
  | VStr s => s
  | _ => ToString_other rt v
  end.

Definition dq : string := String "034"%char EmptyString.

(** ** OpenAIService (TypeScript): one completion with function calling *)

Module OpenAIService.

Record ChatMessage : Type := { role : string; content : string }.

Record FunctionCall : Type := { name : string; arguments : string }.

(** [completion.choices[i].message]: [content] may be [null]. *)
Record ResponseMessage : Type := {
  msg_content : option string;
  function_call : option FunctionCall
}.

Record ActionIntent : Type := {
  type : value;
  action : string;
  parameters : value;
  confidence : Q
}.

Record Output : Type := {
  response : string;
  output_action : option ActionIntent;
  shouldRefreshData_flag : bool
}.

(** The arguments of [openai.chat.completions.create]; the model, the
    limits and the function definitions are constants of the method. *)
Record Request : Type := { messages : list ChatMessage }.

Definition refreshActions : list string :=
  ["create_calendar_event"; "update_calendar_event"; "delete_calendar_event";
   "send_email"; "mark_email_read"].

(** [refreshActions.includes(actionName)] *)
Definition shouldRefreshData (actionName : string) : bool :=
  existsb (String.eqb actionName) refreshActions.

Section Service.

Variable rt : Runtime.
(** The completion capability: the choices' messages, or a failure. *)
Variable create : Request -> result (list ResponseMessage).
(** The clock reading, printed into the system prompt. *)
Variable now : Z.

Local Open Scope result_scope.

Definition createSystemPrompt (userContext : value) : result string :=
  name <- get userContext "name" ;;
  email <- get userContext "email" ;;
  timezone <- get userContext "timezone" ;;
  Ok ("You are an AI voice assistant that helps users manage their calendar and emails. 

User Context:
- Name: " +:+ to_string rt (or_else name (VStr "User")) +:+ "
- Email: " +:+ to_string rt (or_else email (VStr "user@example.com")) +:+ "
- Timezone: " +:+ to_string rt (or_else timezone (VStr "UTC")) +:+ "

Your capabilities:
1. Calendar Management: View, create, update, and delete calendar events
2. Email Management: Read, compose, and send emails
3. General Assistance: Answer questions, provide information

Guidelines:
- Be helpful, concise, and natural in your responses
- When users ask about calendar/email actions, use the appropriate functions
- Always confirm actions before executing them
- Provide clear, actionable responses
- If you're unsure about an action, ask for clarification

Current time: " +:+ toISOString rt now).

(** [a.slice(-n)] *)
Definition slice_last {A} (n : nat) (l : list A) : list A :=
  skipn (length l - n) l.

Definition nonempty_or (s : option string) (d : string) : string :=
  match s with
  | Some s => if String.eqb s "" then d else s
  | None => d
  end.

Definition processTextInput (message : string) (userContext : value)
    (conversationHistory : list ChatMessage) : result Output :=
  match
    (systemPrompt <- createSystemPrompt userContext ;;
     let messages :=
       {| role := "system"; content := systemPrompt |}
       :: slice_last 10 conversationHistory
       ++ [{| role := "user"; content := message |}] in
     choices <- create {| messages := messages |} ;;
     match choices with
     | [] => Throw (TypeError "Cannot read properties of undefined (reading 'message')")
     | response :: _ =>
         match function_call response with
         | Some functionCall =>
             parsedArgs <- JSON_parse rt (arguments functionCall) ;;
             ty <- get parsedArgs "type" ;;
             Ok {| response := nonempty_or (msg_content response) "I'll help you with that.";
                   output_action :=
                     Some {| type := or_else ty (VStr "general");
                             action := name functionCall;
                             parameters := parsedArgs;
                             confidence := 0.9 |};
                   shouldRefreshData_flag := shouldRefreshData (name functionCall) |}
         | None =>
             Ok {| response := nonempty_or (msg_content response) "I'm sorry, I didn't understand that.";
                   output_action := None;
                   shouldRefreshData_flag := false |}
         end
     end)
  with
  | Ok out => Ok out
  | Throw _ => Throw (Error "Failed to process text input")
  end.

End Service.


End OpenAIService.

(** ** The conversation service and the orchestrator (JavaScript) *)

Module Assistant.

Record Message : Type := { role : string; content : value }.

Record Context : Type := {
  userId : string;
  sessionId : string;
  messages : list Message;
  currentTask : value;
  pendingData : value
}.

(** What [generateResponse] returns; [needsMoreInfo] is [undefined] on the
    error path. *)
Record Reply : Type := {
  response : value;
  intent : value;
  needsMoreInfo : value
}.

(** Calls that leave the two classes under study: the chat completion
    endpoint, the database service, and the methods of the calendar, email
    and summary services. Their outcome, a value or an exception, is the
    environment's choice. *)
Inductive call : Type :=
| ChatCompletion (model : string) (messages : list Message) (temperature : Q) (max_tokens : Z)
| DbGetOrCreateConversation (userId sessionId : string)
| DbAddMessage (conversationId : value) (message : value)
| CalCreateEvent (eventData : value)
| CalCheckAvailability (startDate endDate : string)
| CalGetTodaysEvents
| CalGetThisWeeksEvents
| CalDeleteEvent (eventId : value)
| CalUpdateEvent (eventId eventData : value)
| MailValidateEmailAddresses (emails : value)
| MailSendEmail (options : value)
| MailSendMeetingInvitation (attendees meetingDetails : value)
| AiGenerateCalendarSummary (events : value)
| AiGenerateEmail (purpose recipients context : value).

(** The log: every outside call with its outcome, and every entry into the
    action dispatcher [handleIntent]. *)
Inductive event : Type :=
| Called (c : call) (r : result value)
| Dispatched (intent : value) (userId sessionId : string).

Record world : Type := {
  conversations : gmap string Context;
  log : list event
}.

Record Env : Type := {
  respond : list event -> call -> result value;
  clock : list event -> Z
}.

Definition with_log (w : world) (l : list event) : world :=
  {| conversations := conversations w; log := l |}.

Definition with_conversations (w : world) (c : gmap string Context) : world :=
  {| conversations := c; log := log w |}.

(** [context.messages.push(m)] *)
Definition push (m : Message) (c : Context) : Context :=
  {| userId := userId c; sessionId := sessionId c;
     messages := messages c ++ [m];
     currentTask := currentTask c; pendingData := pendingData c |}.

Definition set_messages (ms : list Message) (c : Context) : Context :=
  {| userId := userId c; sessionId := sessionId c;
     messages := ms;
     currentTask := currentTask c; pendingData := pendingData c |}.

(** [context.currentTask = undefined; context.pendingData = undefined] *)
Definition clear_task (c : Context) : Context :=
  {| userId := userId c; sessionId := sessionId c;
     messages := messages c;
     currentTask := VUndefined; pendingData := VUndefined |}.

Definition systemPrompt : string :=
  "You are a helpful AI voice assistant for calendar and email management. 
            You can help users:
            1. Schedule meetings and events
            2. Check calendar availability
            3. View upcoming events
            4. Send emails
            5. Cancel or update events
            
            Be conversational and natural. When users want to perform actions, extract the necessary information and ask for clarification if needed.
            
            For scheduling: Extract title, date, time, duration, attendees, location
            For availability: Extract date/time range
            For emails: Extract recipients, subject, and message content
            
            Always confirm important actions before executing them.".

Definition initial_context (userId sessionId : string) : Context :=
  {| userId := userId; sessionId := sessionId;
     messages := [{| role := "system"; content := VStr systemPrompt |}];
     currentTask := VUndefined; pendingData := VUndefined |}.

Definition q (s : string) : string := dq +:+ s +:+ dq.

Definition classifierPrompt : string :=
  "You are an intent classifier for a calendar and email assistant. Analyze the user's message and return a JSON object with:
            {
              " +:+ q "action" +:+ ": " +:+ q "schedule_event" +:+ " | " +:+ q "check_availability" +:+ " | "
    +:+ q "send_email" +:+ " | " +:+ q "get_events" +:+ " | " +:+ q "cancel_event" +:+ " | "
    +:+ q "update_event" +:+ " | " +:+ q "none" +:+ ",
              " +:+ q "confidence" +:+ ": 0.0-1.0,
              " +:+ q "parameters" +:+ ": {
                // Relevant extracted parameters based on the action
              }
            }
            
            For schedule_event, extract: title, dateTime, duration, attendees, location
            For check_availability, extract: date, startTime, endTime
            For send_email, extract: recipients, subject, message
            For get_events, extract: timeframe (today, tomorrow, this week, etc.)
            For cancel_event or update_event, extract: eventIdentifier
            
            Only return valid JSON, no other text.".

(** The text ['{"action": "none", "confidence": 0, "parameters": {}}'] *)
Definition fallback_text : string :=
  "{" +:+ q "action" +:+ ": " +:+ q "none" +:+ ", " +:+ q "confidence" +:+ ": 0, "
  +:+ q "parameters" +:+ ": {}}".

(** [{ action: 'none', confidence: 0, parameters: {} }] *)
Definition fallback_intent : value :=
  VObj [("action", VStr "none"); ("confidence", VNum 0); ("parameters", VObj [])].

(** [a[i]] *)
Definition get_index (rt : Runtime) (a : value) (i : nat) : result value :=
  match a with
  | VUndefined | VNull => Throw (TypeError "Cannot read properties of undefined or null")
  | VArr items => Ok (nth i items VUndefined)
  | VStr s =>
      match String.get i s with
      | Some c => Ok (VStr (String c EmptyString))
      | None => Ok VUndefined
      end
  | VObj props => get a (to_string rt (VNum (inject_Z (Z.of_nat i))))
  | _ => Ok VUndefined
  end.

(** [checkIfNeedsMoreInfo(intent)] *)
Definition checkIfNeedsMoreInfo (intent : value) : result bool :=
  (action <- get intent "action" ;;
   if is_str action "schedule_event" then
     p <- get intent "parameters" ;;
     title <- get p "title" ;;
     if negb (truthy title) then Ok true
     else
       p <- get intent "parameters" ;;
       dateTime <- get p "dateTime" ;;
       Ok (negb (truthy dateTime))
   else if is_str action "check_availability" then
     p <- get intent "parameters" ;;
     date <- get p "date" ;;
     Ok (negb (truthy date))
   else if is_str action "send_email" then
     p <- get intent "parameters" ;;
     recipients <- get p "recipients" ;;
     if negb (truthy recipients) then Ok true
     else
       p <- get intent "parameters" ;;
       subject <- get p "subject" ;;
       Ok (negb (truthy subject))
   else Ok false)%result.

(** The trimming step of [generateResponse]: over ten messages, keep the
    first system message, if any, and the last nine. *)
Definition trim (ms : list Message) : list Message :=
  if (10 <? length ms)%nat then
    let systemMsg := List.find (fun msg => String.eqb (role msg) "system") ms in
    (match systemMsg with Some m => [m] | None => [] end)
    ++ skipn (length ms - 9) ms
  else ms.

Section Service.

Variable rt : Runtime.
Variable env : Env.

Local Open Scope eff_scope.

(** An outside call: the environment answers, the log grows. *)
Definition ext (c : call) : M world value :=
  fun w =>
    let r := respond env (log w) c in
    (r, with_log w (log w ++ [Called c r])).

Definition contextId (userId sessionId : string) : string :=
  userId +:+ "-" +:+ sessionId.

(** [getContext(userId, sessionId)]: creates the context on first use and
    returns the stored object, here its key in the map. *)
Definition getContext (userId sessionId : string) : M world string :=
  fun w =>
    let id := contextId userId sessionId in
    match conversations w !! id with
    | Some _ => (Ok id, w)
    | None =>
        (Ok id, with_conversations w (<[id := initial_context userId sessionId]> (conversations w)))
    end.

(** A write through the reference [getContext] returned. *)
Definition update (id : string) (f : Context -> Context) : M world unit :=
  fun w => (Ok tt, with_conversations w (alter f id (conversations w))).

(** A read through the reference. *)
Definition deref (id : string) : M world Context :=
  fun w =>
    match conversations w !! id with
    | Some c => (Ok c, w)
    | None => (Throw (TypeError "no such context"), w)
    end.

(** [response.choices[0].message.content] *)
Definition first_content (response : value) : result value :=
  (choices <- get response "choices" ;;
   choice <- get_index rt choices 0 ;;
   message <- get choice "message" ;;
   get message "content")%result.

Definition analyzeIntent (userInput userId sessionId : string) : M world value :=
  try_catch
    (response <- ext (ChatCompletion "gpt-4"
                        [{| role := "system"; content := VStr classifierPrompt |};
                         {| role := "user"; content := VStr userInput |}]
                        0.1 500) ;;
     result <- lift (first_content response) ;;
     lift (JSON_parse rt (to_string rt (or_else result (VStr fallback_text)))))
    (fun _ => ret fallback_intent).

(** The reply of the [catch] block of [generateResponse]. *)
Definition apology_reply : Reply :=
  {| response := VStr "I apologize, but I encountered an error processing your request. Please try again.";
     intent := fallback_intent;
     needsMoreInfo := VUndefined |}.

(** The [try] block of [generateResponse]. *)
Definition generateResponse_body (userInput userId sessionId : string) (context : value)
    : M world Reply :=
  conversationContext <- getContext userId sessionId ;;
  update conversationContext (push {| role := "user"; content := VStr userInput |}) ;;
  intent <- analyzeIntent userInput userId sessionId ;;
  let systemMessage :=
    if truthy context then "Current context: " +:+ JSON_stringify rt context else "" in
  c <- deref conversationContext ;;
  response <- ext (ChatCompletion "gpt-4"
                     (messages c ++
                      (if negb (String.eqb systemMessage "")
                       then [{| role := "system"; content := VStr systemMessage |}]
                       else []))
                     0.7 300) ;;
  content <- lift (first_content response) ;;
  let assistantResponse :=
    or_else content (VStr "I apologize, but I had trouble processing that request.") in
  update conversationContext (push {| role := "assistant"; content := assistantResponse |}) ;;
  update conversationContext (fun c => set_messages (trim (messages c)) c) ;;
  needs <- lift (checkIfNeedsMoreInfo intent) ;;
  ret {| response := assistantResponse;
         intent := intent;
         needsMoreInfo := VBool needs |}.

Definition generateResponse (userInput userId sessionId : string) (context : value)
    : M world Reply :=
  try_catch
    (generateResponse_body userInput userId sessionId context)
    (fun _ => ret apology_reply).

(** What [handleFollowUp] returns: [action] and [parameters] are left out
    in the unfinished-task branch. *)
Record FollowUp : Type := {
  fu_response : value;
  fu_action : option value;
  fu_parameters : option value
}.

Definition handleFollowUp (userInput userId sessionId : string) : M world FollowUp :=
  context <- getContext userId sessionId ;;
  c <- deref context ;;
  if truthy (currentTask c) then
    reply <- generateResponse userInput userId sessionId
                  (VObj [("currentTask", currentTask c); ("pendingData", pendingData c)]) ;;
    confidence <- lift (get (intent reply) "confidence") ;;
    if gt_num (ToNumber_other rt) confidence 0.7 && negb (truthy (needsMoreInfo reply)) then
      update context clear_task ;;
      action <- lift (get (intent reply) "action") ;;
      parameters <- lift (get (intent reply) "parameters") ;;
      ret {| fu_response := response reply;
             fu_action := Some action;
             fu_parameters := Some parameters |}
    else
      ret {| fu_response := response reply; fu_action := None; fu_parameters := None |}
  else
    reply <- generateResponse userInput userId sessionId VUndefined ;;
    action <- lift (get (intent reply) "action") ;;
    parameters <- lift (get (intent reply) "parameters") ;;
    ret {| fu_response := response reply;
           fu_action := Some action;
           fu_parameters := Some parameters |}.

(** *** VoiceAssistant *)

(** [v.length] *)
Definition length_of (v : value) : result value :=
  match v with
  | VUndefined | VNull => Throw (TypeError "Cannot read properties of undefined or null, reading length")
  | VArr items => Ok (VNum (inject_Z (Z.of_nat (length items))))
  | VStr s => Ok (VNum (inject_Z (Z.of_nat (String.length s))))
  | VObj _ => get v "length"
  | _ => Ok VUndefined
  end.

(** [attendees.map(email => ({ email }))] *)
Definition map_email (attendees : value) : result value :=
  match attendees with
  | VArr items => Ok (VArr (map (fun email => VObj [("email", email)]) items))
  | _ => Throw (TypeError "attendees.map is not a function")
  end.

Fixpoint filter_available (slots : list value) : result (list value) :=
  match slots with
  | [] => Ok []
  | slot :: rest =>
      (available <- get slot "available" ;;
       rest' <- filter_available rest ;;
       Ok (if truthy available then slot :: rest' else rest'))%result
  end.

(** [availability.filter(slot => slot.available)] *)
Definition filter_slots (availability : value) : result value :=
  match availability with
  | VArr items => (kept <- filter_available items ;; Ok (VArr kept))%result
  | _ => Throw (TypeError "availability.filter is not a function")
  end.

Fixpoint join_items (items : list value) (sep : string) : string :=
  let text v := match v with VUndefined | VNull => "" | _ => to_string rt v end in
  match items with
  | [] => ""
  | [v] => text v
  | v :: rest => text v +:+ sep +:+ join_items rest sep
  end.

(** [a.join(sep)] *)
Definition join (a : value) (sep : string) : result string :=
  match a with
  | VArr items => Ok (join_items items sep)
  | _ => Throw (TypeError "join is not a function")
  end.

(** [d.toISOString()]: a RangeError on an invalid date. *)
Definition iso (d : option Z) : result string :=
  match d with
  | Some t => Ok (toISOString rt t)
  | None => Throw (Exn "RangeError" "Invalid time value")
  end.

(** [this.calendarService.parseDateTime(dateTime)]: the method lowercases
    its argument, which only a string supports, and reads the clock. *)
Definition parseDateTime (dateTime : value) : M world Calendar.interval :=
  fun w =>
    match dateTime with
    | VStr s =>
        (Ok (Calendar.parseDateTime (localTZA rt) (toISOString rt) (clock env (log w)) s), w)
    | _ => (Throw (TypeError "dateTimeString.toLowerCase is not a function"), w)
    end.

Definition failure (message : string) : value :=
  VObj [("success", VBool false); ("message", VStr message)].

(** [Math.round((new Date(end) - new Date(start)) / 60000)] as text. *)
Definition minutes_between (endv startv : value) : string :=
  match Date_of rt endv, Date_of rt startv with
  | Some e, Some s =>
      to_string rt (VNum (inject_Z (Qfloor (inject_Z (e - s) / inject_Z 60000 + (1 # 2)))))
  | _, _ => "NaN"
  end.

Definition handleScheduleEvent (parameters : value) (userId : string) : M world value :=
  try_catch
    (title <- lift (get parameters "title") ;;
     dateTime <- lift (get parameters "dateTime") ;;
     duration <- lift (get parameters "duration") ;;
     attendees <- lift (get parameters "attendees") ;;
     location <- lift (get parameters "location") ;;
     if negb (truthy title) || negb (truthy dateTime) then
       ret (failure "Missing required parameters for scheduling")
     else
       parsedDateTime <- parseDateTime dateTime ;;
       description <- lift (get parameters "description") ;;
       attendees' <- lift (if truthy attendees then map_email attendees else Ok (VArr [])) ;;
       let eventData :=
         VObj [("summary", title);
               ("description", or_else description (VStr ""));
               ("start", VObj [("dateTime", VStr (Calendar.start parsedDateTime));
                               ("timeZone", VStr "UTC")]);
               ("end", VObj [("dateTime", VStr (Calendar.end_ parsedDateTime));
                             ("timeZone", VStr "UTC")]);
               ("attendees", attendees');
               ("location", or_else location (VStr ""))] in
       event <- ext (CalCreateEvent eventData) ;;
       n <- lift (if truthy attendees then length_of attendees else Ok VUndefined) ;;
       (if truthy attendees && gt_num (ToNumber_other rt) n 0 then
          summary <- lift (get event "summary") ;;
          start <- lift (get event "start") ;;
          startDateTime <- lift (get start "dateTime") ;;
          end' <- lift (get event "end") ;;
          endDateTime <- lift (get end' "dateTime") ;;
          location' <- lift (get event "location") ;;
          description' <- lift (get event "description") ;;
          ext (MailSendMeetingInvitation attendees
                 (VObj [("title", summary);
                        ("date", VStr (toLocaleDateString rt (Date_of rt startDateTime)));
                        ("time", VStr (toLocaleTimeString rt (Date_of rt startDateTime)));
                        ("duration", VStr (minutes_between endDateTime startDateTime +:+ " minutes"));
                        ("location", or_else location' (VStr "No location specified"));
                        ("organizer", VStr "AI Assistant");
                        ("description", or_else description' (VStr ""))])) ;;
          ret tt
        else ret tt) ;;
       summary <- lift (get event "summary") ;;
       ret (VObj [("success", VBool true);
                  ("message", VStr ("Event " +:+ dq +:+ to_string rt summary +:+ dq
                                    +:+ " scheduled successfully"));
                  ("event", event)]))
    (fun e => throw e).

Definition handleCheckAvailability (parameters : value) (userId : string) : M world value :=
  try_catch
    (date <- lift (get parameters "date") ;;
     startTime <- lift (get parameters "startTime") ;;
     endTime <- lift (get parameters "endTime") ;;
     if negb (truthy date) then
       ret (failure "Date is required to check availability")
     else
       let startDate :=
         if truthy startTime
         then Date_of rt (VStr (to_string rt date +:+ "T" +:+ to_string rt startTime))
         else Date_of rt date in
       let endDate :=
         if truthy endTime
         then Date_of rt (VStr (to_string rt date +:+ "T" +:+ to_string rt endTime))
         else Date_of rt date in
       let endDate := option_map (fun t => Date.setHours (localTZA rt) t 23 59 59 999) endDate in
       startIso <- lift (iso startDate) ;;
       endIso <- lift (iso endDate) ;;
       availability <- ext (CalCheckAvailability startIso endIso) ;;
       availableSlots <- lift (filter_slots availability) ;;
       n <- lift (length_of availableSlots) ;;
       ret (VObj [("success", VBool true);
                  ("message", VStr ("Found " +:+ to_string rt n +:+ " available time slots"));
                  ("availability", availableSlots)]))
    (fun e => throw e).

Definition handleGetEvents (parameters : value) (userId : string) : M world value :=
  try_catch
    (timeframe <- lift (get parameters "timeframe") ;;
     events <-
       (if is_str timeframe "today" then ext CalGetTodaysEvents
        else if is_str timeframe "this week" then ext CalGetThisWeeksEvents
        else ext CalGetTodaysEvents) ;;
     summary <- ext (AiGenerateCalendarSummary events) ;;
     count <- lift (length_of events) ;;
     ret (VObj [("success", VBool true);
                ("message", summary);
                ("events", events);
                ("count", count)]))
    (fun e => throw e).

Definition handleSendEmail (parameters : value) (userId : string) : M world value :=
  try_catch
    (recipients <- lift (get parameters "recipients") ;;
     subject <- lift (get parameters "subject") ;;
     message <- lift (get parameters "message") ;;
     if negb (truthy recipients) || negb (truthy subject) then
       ret (failure "Recipients and subject are required")
     else
       checked <- ext (MailValidateEmailAddresses recipients) ;;
       valid <- lift (get checked "valid") ;;
       invalid <- lift (get checked "invalid") ;;
       n <- lift (length_of invalid) ;;
       if gt_num (ToNumber_other rt) n 0 then
         joined <- lift (join invalid ", ") ;;
         ret (failure ("Invalid email addresses: " +:+ joined))
       else
         emailContent <-
           (if negb (truthy message) then
              generatedEmail <- ext (AiGenerateEmail subject valid (VObj [("userId", VStr userId)])) ;;
              lift (get generatedEmail "body")
            else ret message) ;;
         result <- ext (MailSendEmail (VObj [("to", valid); ("subject", subject);
                                             ("text", emailContent)])) ;;
         sent <- lift (length_of valid) ;;
         messageId <- lift (get result "messageId") ;;
         ret (VObj [("success", VBool true);
                    ("message", VStr ("Email sent successfully to " +:+ to_string rt sent
                                      +:+ " recipient(s)"));
                    ("messageId", messageId)]))
    (fun e => throw e).

Definition handleCancelEvent (parameters : value) (userId : string) : M world value :=
  try_catch
    (eventIdentifier <- lift (get parameters "eventIdentifier") ;;
     if negb (truthy eventIdentifier) then
       ret (failure "Event identifier is required")
     else
       ext (CalDeleteEvent eventIdentifier) ;;
       ret (VObj [("success", VBool true);
                  ("message", VStr "Event cancelled successfully")]))
    (fun e => throw e).

Definition handleUpdateEvent (parameters : value) (userId : string) : M world value :=
  try_catch
    (eventIdentifier <- lift (get parameters "eventIdentifier") ;;
     updates <- lift (get parameters "updates") ;;
     if negb (truthy eventIdentifier) || negb (truthy updates) then
       ret (failure "Event identifier and updates are required")
     else
       updatedEvent <- ext (CalUpdateEvent eventIdentifier updates) ;;
       ret (VObj [("success", VBool true);
                  ("message", VStr "Event updated successfully");
                  ("event", updatedEvent)]))
    (fun e => throw e).

(** The entry into the dispatcher is logged. *)
Definition dispatched (intent : value) (userId sessionId : string) : M world unit :=
  fun w => (Ok tt, with_log w (log w ++ [Dispatched intent userId sessionId])).

Definition handleIntent (intent : value) (userId sessionId : string) : M world value :=
  dispatched intent userId sessionId ;;
  try_catch
    (action <- lift (get intent "action") ;;
     if is_str action "schedule_event" then
       parameters <- lift (get intent "parameters") ;;
       handleScheduleEvent parameters userId
     else if is_str action "check_availability" then
       parameters <- lift (get intent "parameters") ;;
       handleCheckAvailability parameters userId
     else if is_str action "get_events" then
       parameters <- lift (get intent "parameters") ;;
       handleGetEvents parameters userId
     else if is_str action "send_email" then
       parameters <- lift (get intent "parameters") ;;
       handleSendEmail parameters userId
     else if is_str action "cancel_event" then
       parameters <- lift (get intent "parameters") ;;
       handleCancelEvent parameters userId
     else if is_str action "update_event" then
       parameters <- lift (get intent "parameters") ;;
       handleUpdateEvent parameters userId
     else
       ret (failure "Intent not handled"))
    (fun e => throw e).

(** The [try] block of [processTextInput]. *)
Definition processTextInput_body (text userId sessionId : string) : M world Reply :=
  conversation <- ext (DbGetOrCreateConversation userId sessionId) ;;
  id <- lift (get conversation "id") ;;
  ext (DbAddMessage id (VObj [("role", VStr "USER"); ("content", VStr text)])) ;;
  aiResponse <- generateResponse text userId sessionId VUndefined ;;
  id <- lift (get conversation "id") ;;
  ext (DbAddMessage id
         (VObj [("role", VStr "ASSISTANT");
                ("content", response aiResponse);
                ("metadata", VObj [("intent", intent aiResponse);
                                   ("needsMoreInfo", needsMoreInfo aiResponse)])])) ;;
  confidence <- lift (get (intent aiResponse) "confidence") ;;
  (if gt_num (ToNumber_other rt) confidence 0.7 then
     handleIntent (intent aiResponse) userId sessionId ;; ret tt
   else ret tt) ;;
  ret aiResponse.

(** [catch (error) { console.error(...); throw error; }] *)
Definition processTextInput (text userId sessionId : string) : M world Reply :=
  try_catch
    (processTextInput_body text userId sessionId)
    (fun e => throw e).

End Service.

(** *** Vocabulary of the statements *)

(** Every run of [m] only appends to the log, and what it appends
    satisfies [P]. *)
Definition emits {A} (P : event -> Prop) (m : M world A) : Prop :=
  forall w, exists evs, log (snd (m w)) = (log w ++ evs)%list /\ Forall P evs.

(** The calls of a turn that only converses: completions and the message
    store. *)
Definition conversational (e : event) : Prop :=
  match e with
  | Called (ChatCompletion _ _ _ _) _
  | Called (DbGetOrCreateConversation _ _) _
  | Called (DbAddMessage _ _) _ => True
  | _ => False
  end.

Definition is_call (e : event) : Prop :=
  match e with
  | Called _ _ => True
  | Dispatched _ _ _ => False
  end.

(** The request [analyzeIntent] sends. *)
Definition classifier_request (userInput : string) : call :=
  ChatCompletion "gpt-4"
    [{| role := "system"; content := VStr classifierPrompt |};
     {| role := "user"; content := VStr userInput |}]
    0.1 500.

(** An event is a call, or the dispatch of an intent whose confidence
    compares greater than 0.7. *)
Definition dispatch_confident (rt : Runtime) (e : event) : Prop :=
  match e with
  | Called _ _ => True
  | Dispatched i _ _ =>
      exists c, get i "confidence" = Ok c /\ gt_num (ToNumber_other rt) c 0.7 = true
  end.

Definition non_system (m : Message) : Prop := role m <> "system".

(** A context as [getContext] creates and [generateResponse] maintains it:
    the system message first, no other system message. *)
Definition well_formed (c : Context) : Prop :=
  exists sys rest,
    messages c = sys :: rest /\ role sys = "system" /\ Forall non_system rest.

(** Every stored context is well formed. *)
Definition wf_world (w : world) : Prop :=
  forall id c, conversations w !! id = Some c -> well_formed c.

(** [m] maintains the invariant [I] of worlds, on every path. *)
Definition preserves {A} (I : world -> Prop) (m : M world A) : Prop :=
  forall w, I w -> I (snd (m w)).

(** The required-parameter table of the clarification gate, as the
    specification gives it. *)
Definition spec_required_parameters (action : value) : list string :=
  if is_str action "schedule_event" then ["title"; "dateTime"]
  else if is_str action "check_availability" then ["date"]
  else if is_str action "send_email" then ["recipients"; "subject"]
  else [].

(** A parameter that is absent or empty, in the specification's words:
    not there, or an empty string or list. *)
Definition spec_absent_or_empty (v : value) : bool :=
  match v with
  | VUndefined | VNull => true
  | VStr s => String.eqb s ""
  | VArr items => match items with [] => true | _ => false end
  | _ => false
  end.

Definition param (parameters : list (string * value)) (k : string) : value :=
  match assoc k parameters with
  | Some v => v
  | None => VUndefined
  end.

(** The gate as the specification words it. *)
Definition spec_needsMoreInfo (action : value) (parameters : list (string * value)) : bool :=
  existsb (fun k => spec_absent_or_empty (param parameters k)) (spec_required_parameters action).

(** The gate with absent-or-empty read as JavaScript falsiness. *)
Definition falsy_needsMoreInfo (action : value) (parameters : list (string * value)) : bool :=
  existsb (fun k => negb (truthy (param parameters k))) (spec_required_parameters action).

End Assistant.

(** ** A host and environments for the examples *)

Module Scenario.
Import Date.

(** A host on UTC. *)
Definition utc (_ : Z) (_ : bool) : Z := 0.

(** The [n] low decimal digits of [z], most significant first. *)
Fixpoint digits (n : nat) (z : Z) (acc : string) : string :=
  match n with
  | O => acc
  | S n' => digits n' (z / 10) (String (ascii_of_N (Z.to_N (48 + z mod 10))) acc)
  end.

Definition pad (n : nat) (z : Z) : string := digits n z "".

(** Year, month and day of a day number (days since 1970-01-01) in the
    proleptic Gregorian calendar. *)
Definition civil (day : Z) : Z * Z * Z :=
  let z := day + 719468 in
  let era := z / 146097 in
  let doe := z mod 146097 in
  let yoe := (doe - doe / 1460 + doe / 36524 - doe / 146096) / 365 in
  let doy := doe - (365 * yoe + yoe / 4 - yoe / 100) in
  let mp := (5 * doy + 2) / 153 in
  let d := doy - (153 * mp + 2) / 5 + 1 in
  let m := if mp <? 10 then mp + 3 else mp - 9 in
  let y := yoe + era * 400 + (if m <=? 2 then 1 else 0) in
  (y, m, d).

(** [toISOString]: YYYY-MM-DDTHH:mm:ss.sssZ, with a signed six-digit year
    outside 0..9999. *)
Definition iso8601 (t : Z) : string :=
  let '(y, m, d) := civil (Day t) in
  let r := TimeWithinDay t in
  (if (0 <=? y) && (y <=? 9999) then pad 4 y
   else (if y <? 0 then "-" else "+") +:+ pad 6 (Z.abs y))
  +:+ "-" +:+ pad 2 m +:+ "-" +:+ pad 2 d
  +:+ "T" +:+ pad 2 (HourFromTime r) +:+ ":" +:+ pad 2 (MinFromTime r)
  +:+ ":" +:+ pad 2 (SecFromTime r) +:+ "." +:+ pad 3 (msFromTime r) +:+ "Z".

Import Assistant.

(** Classifier outputs used in the examples, as JSON text and as the value
    the text parses to. *)
Definition low_text : string :=
  "{" +:+ q "action" +:+ ": " +:+ q "send_email" +:+ ", " +:+ q "confidence" +:+ ": 0.7, "
  +:+ q "parameters" +:+ ": {" +:+ q "recipients" +:+ ": [" +:+ q "ann@example.com" +:+ "], "
  +:+ q "subject" +:+ ": " +:+ q "Hello" +:+ "}}".

Definition low_intent : value :=
  VObj [("action", VStr "send_email"); ("confidence", VNum 0.7);
        ("parameters", VObj [("recipients", VArr [VStr "ann@example.com"]);
                             ("subject", VStr "Hello")])].

Definition schedule_text : string :=
  "{" +:+ q "action" +:+ ": " +:+ q "schedule_event" +:+ ", " +:+ q "confidence" +:+ ": 0.9, "
  +:+ q "parameters" +:+ ": {" +:+ q "title" +:+ ": " +:+ q "Budget Review" +:+ ", "
  +:+ q "dateTime" +:+ ": " +:+ q "tomorrow at 3pm" +:+ "}}".

Definition schedule_intent : value :=
  VObj [("action", VStr "schedule_event"); ("confidence", VNum 0.9);
        ("parameters", VObj [("title", VStr "Budget Review");
                             ("dateTime", VStr "tomorrow at 3pm")])].

Definition untitled_text : string :=
  "{" +:+ q "action" +:+ ": " +:+ q "schedule_event" +:+ ", " +:+ q "confidence" +:+ ": 0.85, "
  +:+ q "parameters" +:+ ": {" +:+ q "dateTime" +:+ ": " +:+ q "tomorrow" +:+ "}}".

Definition untitled_intent : value :=
  VObj [("action", VStr "schedule_event"); ("confidence", VNum 0.85);
        ("parameters", VObj [("dateTime", VStr "tomorrow")])].

(** The arguments of a [send_email] function call. *)
Definition email_args_text : string :=
  "{" +:+ q "type" +:+ ": " +:+ q "email" +:+ ", " +:+ q "to" +:+ ": [" +:+ q "ann@example.com"
  +:+ "], " +:+ q "subject" +:+ ": " +:+ q "Hello" +:+ ", " +:+ q "body" +:+ ": " +:+ q "Hi Ann"
  +:+ "}".

Definition email_args : value :=
  VObj [("type", VStr "email"); ("to", VArr [VStr "ann@example.com"]);
        ("subject", VStr "Hello"); ("body", VStr "Hi Ann")].

Definition parse_table : list (string * value) :=
  [(fallback_text, fallback_intent); (low_text, low_intent);
   (schedule_text, schedule_intent); (untitled_text, untitled_intent);
   (email_args_text, email_args)].

(** [JSON.parse] on the texts above; any other text of the examples is
    not JSON. *)
Definition parse (text : string) : result value :=
  match assoc text parse_table with
  | Some v => Ok v
  | None => Throw (Exn "SyntaxError" "Unexpected token in JSON")
  end.

(** A host for the examples. The examples reach [JSON_parse], [localTZA]
    and [toISOString] only. *)
Definition host : Runtime :=
  {| JSON_parse := parse;
     JSON_stringify := fun _ => "{}";
     ToString_other := fun _ => "[object Object]";
     ToNumber_other := fun _ => None;
     localTZA := utc;
     Date_of := fun _ => None;
     toISOString := iso8601;
     toLocaleDateString := fun _ => "Invalid Date";
     toLocaleTimeString := fun _ => "Invalid Date" |}.

(** A completion with one choice. *)
Definition completion (content : value) : value :=
  VObj [("choices", VArr [VObj [("message", VObj [("role", VStr "assistant");
                                                   ("content", content)])]])].

Definition clock0 : Z := 1700000000000.

(** An environment in which the classifier answers [classification], the
    reply completion answers [reply], the message store works and every
    calendar, mail or summary call fails. The classifier's request is the
    one with [max_tokens] 500. *)
Definition answering (classification reply : result value) : Env :=
  {| respond := fun _ c =>
       match c with
       | ChatCompletion _ _ _ max_tokens =>
           if max_tokens =? 500 then classification else reply
       | DbGetOrCreateConversation _ _ => Ok (VObj [("id", VStr "conversation-1")])
       | DbAddMessage _ _ => Ok (VObj [])
       | CalCreateEvent _ => Throw (Error "Failed to create calendar event")
       | _ => Throw (Error "service unavailable")
       end;
     clock := fun _ => clock0 |}.

Definition fresh : world := {| conversations := ∅; log := [] |}.

(** The classifier reports a confidence of exactly 0.7. *)
Definition low_env : Env :=
  answering (Ok (completion (VStr low_text))) (Ok (completion (VStr "Shall I send it?"))).

(** The classifier reports a complete schedule_event at 0.9; the calendar
    is down. *)
Definition calendar_down_env : Env :=
  answering (Ok (completion (VStr schedule_text))) (Ok (completion (VStr "Scheduling it."))).

(** The reply completion fails. *)
Definition reply_down_env : Env :=
  answering (Ok (completion (VStr low_text))) (Throw (Error "429 rate limit")).

(** The classifier's completion fails. *)
Definition classifier_down_env : Env :=
  answering (Throw (Error "connect ETIMEDOUT")) (Ok (completion (VStr "Hello!"))).

(** The classifier answers prose instead of JSON. *)
Definition prose_env : Env :=
  answering (Ok (completion (VStr "Sure, I can help."))) (Ok (completion (VStr "Hello!"))).

(** The classifier reports a schedule_event without a title. *)
Definition untitled_env : Env :=
  answering (Ok (completion (VStr untitled_text))) (Ok (completion (VStr "What is the title?"))).

(** A send_email intent with an empty list of recipients. *)
Definition nobody_intent : value :=
  VObj [("action", VStr "send_email"); ("confidence", VNum 0.9);
        ("parameters", VObj [("recipients", VArr []); ("subject", VStr "Hello")])].

Definition sys0 : Message := {| role := "system"; content := VStr systemPrompt |}.

Definition user_msg (n : Z) : Message :=
  {| role := "user"; content := VNum (inject_Z n) |}.


(** A stored context with the system message and nine others. *)
Definition full_context : Context :=
  {| userId := "u"; sessionId := "s";
     messages := sys0 :: map user_msg [1; 2; 3; 4; 5; 6; 7; 8; 9];
     currentTask := VUndefined; pendingData := VUndefined |}.

Definition full_world : world :=
  {| conversations := {[ "u-s" := full_context ]}; log := [] |}.

(** *** Token lifecycle *)

Definition now0 : Z := 1700000000000.

Definition principal (expiry : Z) (refresh : option string) : Auth.User :=
  {| Auth.accessToken := "cached-token";
     Auth.refreshToken := refresh;
     Auth.tokenExpiry := expiry |}.

Definition store (user : Auth.User) : Auth.world :=
  {| Auth.users := {[ "user-1" := user ]}; Auth.calls := [] |}.

(** The provider rejects the refresh. *)
Definition provider_down : Auth.Env :=
  {| Auth.store_fault := fun _ => None;
     Auth.oauth_refresh := fun _ _ => Throw (Error "invalid_grant") |}.

(** The provider issues a new access token and no new refresh token. *)
Definition provider_up : Auth.Env :=
  {| Auth.store_fault := fun _ => None;
     Auth.oauth_refresh := fun _ _ =>
       Ok {| Auth.access_token := "new-token";
             Auth.refresh_token := None;
             Auth.expiry_date := now0 + 3600000 |} |}.

(** *** The function-calling service *)

(** The model calls [send_email]. *)
Definition send_email_call (_ : OpenAIService.Request)
    : result (list OpenAIService.ResponseMessage) :=
  Ok [{| OpenAIService.msg_content := None;
         OpenAIService.function_call :=
           Some {| OpenAIService.name := "send_email";
                   OpenAIService.arguments := email_args_text |} |}].

Definition ann : value :=
  VObj [("name", VStr "Ann"); ("email", VStr "ann@example.com"); ("timezone", VStr "UTC")].

End Scenario.

(** ** The conversation store: clearing and reading *)

Module Conversation.
Import Assistant.

Local Open Scope eff_scope.

(** [clearContext(userId, sessionId)] *)
Definition clearContext (userId sessionId : string) : M world unit :=
  fun w =>
    (Ok tt, with_conversations w (delete (contextId userId sessionId) (conversations w))).

(** [getConversationHistory(userId, sessionId)] *)
Definition getConversationHistory (userId sessionId : string) : M world (list Message) :=
  context <- getContext userId sessionId ;;
  c <- deref context ;;
  ret (List.filter (fun msg => negb (String.eqb (role msg) "system")) (messages c)).

(** The messages stored under a key, none when the key is not there. *)
Definition stored (userId sessionId : string) (w : world) : list Message :=
  match conversations w !! contextId userId sessionId with
  | Some c => messages c
  | None => []
  end.

(** No hyphen in an identifier. *)
Fixpoint hyphen_free (s : string) : bool :=
  match s with
  | EmptyString => true
  | String c r => negb (Ascii.eqb c "-") && hyphen_free r
  end.

(** Every stored context satisfies [P]. *)
Definition each_context (P : Context -> Prop) (w : world) : Prop :=
  forall id c, conversations w !! id = Some c -> P c.

(** A context without a pending multi-step task. *)
Definition no_task (c : Context) : Prop :=
  currentTask c = VUndefined /\ pendingData c = VUndefined.

(** The user message [generateResponse] pushes. *)
Definition user_message (text : string) : Message :=
  {| role := "user"; content := VStr text |}.

Section Turns.

Variable rt : Runtime.
Variable env : Env.

(** Successive calls of [generateResponse] in one session, one per text. *)
Fixpoint turns (texts : list string) (userId sessionId : string) : M world unit :=
  match texts with
  | [] => ret tt
  | text :: rest =>
      generateResponse rt env text userId sessionId VUndefined ;;
      turns rest userId sessionId
  end.

End Turns.

End Conversation.

(** ** The refresh route of the authentication router *)

Module AuthRoutes.
Import Auth.

(** What a route answers: the status code and the JSON body's [success]
    flag and its [error] or [message] text. *)
Record response : Type := {
  status : Z;
  success : bool;
  text : string
}.

(** [s.replace(pat, '')] with a string pattern: the first occurrence of
    [pat] is removed. *)
Fixpoint remove_first (pat s : string) : string :=
  if String.prefix pat s then
    String.substring (String.length pat) (String.length s - String.length pat) s
  else
    match s with
    | EmptyString => EmptyString
    | String c r => String c (remove_first pat r)
    end.

Section Routes.

Variable env : Env.
(** [jwt.verify(token, secret)]: the [userId] of the payload, or a
    failure. *)
Variable jwt_verify : string -> result string.

Local Open Scope eff_scope.

(** [verifyJWTToken(token)] *)
Definition verifyJWTToken (token : string) : result string :=
  match jwt_verify token with
  | Ok userId => Ok userId
  | Throw _ => Throw (Error "Invalid token")
  end.

(** [req.headers.authorization?.replace('Bearer ', '')] *)
Definition bearer_token (authorization : option string) : option string :=
  option_map (remove_first "Bearer ") authorization.

(** [router.post('/refresh', ...)] for a request with the given
    Authorization header, at the clock reading [now]. *)
Definition refresh_route (authorization : option string) (now : Z) : M world response :=
  try_catch
    (match bearer_token authorization with
     | Some token =>
         if negb (present (Some token)) then
           ret {| status := 401; success := false; text := "No token provided" |}
         else
           userId <- lift (verifyJWTToken token) ;;
           getValidAccessToken env now userId ;;
           ret {| status := 200; success := true; text := "Token refreshed successfully" |}
     | None =>
         ret {| status := 401; success := false; text := "No token provided" |}
     end)
    (fun _ =>
       ret {| status := 500; success := false; text := "Failed to refresh token" |}).

End Routes.

End AuthRoutes.

(** ** OpenAIService (TypeScript): the helper completions *)

Module OpenAIHelpers.
Import OpenAIService.

Section Service.

Variable rt : Runtime.
Variable create : Request -> result (list ResponseMessage).

Local Open Scope result_scope.

(** [completion.choices[0].message.content] *)
Definition first_content (choices : list ResponseMessage) : result (option string) :=
  match choices with
  | [] => Throw (TypeError "Cannot read properties of undefined (reading 'message')")
  | response :: _ => Ok (msg_content response)
  end.

(** [generateActionResponse(action, result)] *)
Definition generateActionResponse (action : ActionIntent) (result : value) : string :=
  match
    (let messages :=
       [{| role := "system";
           content := "Generate a natural, conversational response confirming the action was completed successfully. Be brief and helpful." |};
        {| role := "user";
           content := "Action: " +:+ OpenAIService.action action
                      +:+ ", Parameters: " +:+ JSON_stringify rt (parameters action)
                      +:+ ", Result: " +:+ JSON_stringify rt result |}] in
     choices <- create {| messages := messages |} ;;
     content <- first_content choices ;;
     Ok (nonempty_or content "Action completed successfully."))
  with
  | Ok text => text
  | Throw _ => "Action completed successfully."
  end.

(** [{ dates: [], times: [], people: [], locations: [] }] *)
Definition no_entities : value :=
  VObj [("dates", VArr []); ("times", VArr []); ("people", VArr []); ("locations", VArr [])].

(** [extractEntities(text)] *)
Definition extractEntities (text : string) : value :=
  match
    (let messages :=
       [{| role := "system";
           content := "Extract entities from the user input. Return only a JSON object with arrays of dates, times, people (names/emails), and locations." |};
        {| role := "user"; content := text |}] in
     choices <- create {| messages := messages |} ;;
     response <- first_content choices ;;
     match response with
     | Some response =>
         if negb (String.eqb response "") then
           match JSON_parse rt response with
           | Ok v => Ok v
           | Throw _ => Ok no_entities
           end
         else Ok no_entities
     | None => Ok no_entities
     end)
  with
  | Ok v => v
  | Throw _ => no_entities
  end.

End Service.

End OpenAIHelpers.

(** ** The Email service: address validation *)

Module Mail.
Import Str.

(** [[^\s@]] *)
Definition plain (c : ascii) : bool := negb (is_space c) && negb (Ascii.eqb c "@").

Fixpoint all_plain (s : string) : bool :=
  match s with
  | EmptyString => true
  | String c r => plain c && all_plain r
  end.

(** Some dot of [s] has a character after it. *)
Fixpoint dot_followed (s : string) : bool :=
  match s with
  | EmptyString => false
  | String c r => (Ascii.eqb c "." && negb (String.eqb r "")) || dot_followed r
  end.

(** [[^\s@]+\.[^\s@]+$]: plain characters only, with a dot that is neither
    the first nor the last of them. *)
Definition domain_ok (s : string) : bool :=
  all_plain s &&
  match s with
  | EmptyString => false
  | String _ r => dot_followed r
  end.

(** The test from the start of the local part; [seen] tells whether a
    character of the local part has been read. *)
Fixpoint email_test_from (seen : bool) (s : string) : bool :=
  match s with
  | EmptyString => false
  | String c r =>
      if Ascii.eqb c "@" then seen && domain_ok r
      else plain c && email_test_from true r
  end.

(** [/^[^\s@]+@[^\s@]+\.[^\s@]+$/.test(s)] *)
Definition email_test (s : string) : bool := email_test_from false s.

(** The language of the pattern: a local part, an at sign, and a domain
    with a dot inside, all three stretches non-empty and free of white
    space and at signs. *)
Definition matches_email (s : string) : Prop :=
  exists a b c,
    s = a +:+ "@" +:+ b +:+ "." +:+ c /\
    a <> "" /\ b <> "" /\ c <> "" /\
    all_plain a = true /\ all_plain b = true /\ all_plain c = true.

(** No character of [s] is white space. *)
Fixpoint no_space (s : string) : bool :=
  match s with
  | EmptyString => true
  | String c r => negb (is_space c) && no_space r
  end.

Fixpoint trim_end (s : string) : string :=
  match s with
  | EmptyString => EmptyString
  | String c r =>
      let r' := trim_end r in
      if is_space c && String.eqb r' "" then EmptyString else String c r'
  end.

(** [s.trim()] *)
Definition trim (s : string) : string := trim_end (skip_spaces s).

(** The body of the [forEach]: the trimmed address goes to the end of
    [valid] or of [invalid]. *)
Definition sort_address (lists : list string * list string) (email : string)
    : list string * list string :=
  let '(valid, invalid) := lists in
  if email_test (trim email) then ((valid ++ [trim email])%list, invalid)
  else (valid, (invalid ++ [trim email])%list).

(** [validateEmailAddresses(emails)] on an array of strings: the lists
    [valid] and [invalid] of the returned object. *)
Definition validateEmailAddresses (emails : list string) : list string * list string :=
  fold_left sort_address emails ([], []).

End Mail.

(** ** The chat routes of the server *)

Module Server.
Import Str Assistant.

(** The parsed JSON body of a request: [message] is any JSON value,
    [undefined] when the field is not there; [userId] and [sessionId],
    where present, are strings. *)
Record Body : Type := {
  body_message : value;
  body_userId : option string;
  body_sessionId : option string
}.

(** What a route sends: [res.json(result)], [res.json({ response })] or
    [res.status(status).json({ error })]. *)
Inductive Answer : Type :=
| Result (result : Reply)
| Response (text : value)
| Failure (status : Z) (error : string).

Definition status (a : Answer) : Z :=
  match a with
  | Result _ | Response _ => 200
  | Failure s _ => s
  end.

(** [const { field = 'default' } = req.body] *)
Definition or_default (field : option string) : string :=
  match field with
  | Some s => s
  | None => "default"
  end.

Definition greeting : string :=
  "Hello! I'm your AI assistant. I can help you with emails, calendar events, and task management. What would you like to do?".
Definition unread_emails : string :=
  "You have 3 unread emails: One from your project manager about the deadline, one from HR about the team meeting, and one newsletter. Would you like me to read any of these?".
Definition draft_help : string :=
  "I can help you draft an email. Who would you like to send it to and what should it be about?".
Definition email_help : string :=
  "I can help you manage your emails. You can ask me to read recent emails, draft new ones, or send messages. What would you like to do?".
Definition meetings_today : string :=
  "You have 2 meetings today: Team standup at 10 AM and client call at 2 PM. Would you like me to schedule a new meeting?".
Definition booking_help : string :=
  "I can help you schedule a meeting. What time and date would you like, and who should be invited?".
Definition calendar_help : string :=
  "I can help you manage your calendar. You can check your schedule, book meetings, or view upcoming events. What would you like to do?".
Definition add_task_help : string :=
  "I can help you add a task. What task would you like to add to your list?".
Definition task_list : string :=
  "You have 5 tasks: Complete project proposal, Review code changes, Schedule team meeting, Update documentation, and Prepare presentation.".
Definition task_help : string :=
  "I can help you manage your tasks. You can add new tasks, mark them as complete, or view your current list. What would you like to do?".
Definition general_help : string :=
  "I'm here to help you manage your emails, calendar, and tasks. You can ask me to check your schedule, read emails, or add tasks. What would you like to do?".

(** [getSimulatedResponse(userMessage)] *)
Definition getSimulatedResponse (userMessage : string) : string :=
  let message := toLowerCase userMessage in
  if includes message "hello" || includes message "hi" then greeting
  else if includes message "email" then
    if includes message "recent" || includes message "new" || includes message "unread"
    then unread_emails
    else if includes message "draft" || includes message "write" || includes message "compose"
    then draft_help
    else email_help
  else if includes message "calendar" || includes message "schedule" || includes message "meeting" then
    if includes message "today" || includes message "schedule" then meetings_today
    else if includes message "schedule" || includes message "book" || includes message "create"
    then booking_help
    else calendar_help
  else if includes message "task" || includes message "todo" then
    if includes message "add" || includes message "create" then add_task_help
    else if includes message "list" || includes message "show" then task_list
    else task_help
  else general_help.

(** [getSimulatedResponse(userMessage)] on any value: only a string has
    [toLowerCase]. *)
Definition simulated (userMessage : value) : result string :=
  match userMessage with
  | VStr s => Ok (getSimulatedResponse s)
  | VUndefined | VNull =>
      Throw (TypeError "Cannot read properties of undefined (reading 'toLowerCase')")
  | _ => Throw (TypeError "userMessage.toLowerCase is not a function")
  end.

Section Routes.

Variable rt : Runtime.
Variable env : Env.
(** [voiceAssistant.processTextInput(message, userId, sessionId)] for a
    message that is not a string: what the services do with it is left to
    this parameter. *)
Variable processTextInput_other : value -> string -> string -> M world Reply.

Local Open Scope eff_scope.

(** [voiceAssistant.processTextInput(message, userId, sessionId)] *)
Definition process (message : value) (userId sessionId : string) : M world Reply :=
  match message with
  | VStr text => processTextInput rt env text userId sessionId
  | _ => processTextInput_other message userId sessionId
  end.

(** [app.post('/api/chat', ...)] *)
Definition chat (body : Body) : M world Answer :=
  try_catch
    (let message := body_message body in
     if negb (truthy message) then ret (Failure 400 "No message provided")
     else
       result <- process message
                   (or_default (body_userId body)) (or_default (body_sessionId body)) ;;
       ret (Result result))
    (fun _ => ret (Failure 500 "Failed to process message")).

(** [app.post('/api/assistant', ...)]: the session is left to the default
    of [processTextInput]; the [catch] block reads [req.body.message]
    again and has no handler of its own. *)
Definition assistant (body : Body) : M world Answer :=
  try_catch
    (let message := body_message body in
     if negb (truthy message) then ret (Failure 400 "No message provided")
     else
       result <- process message (or_default (body_userId body)) "default" ;;
       ret (Response (response result)))
    (fun _ =>
       response <- lift (simulated (body_message body)) ;;
       ret (Response (VStr response))).

End Routes.

(** *** Vocabulary of the statements *)

(** Every chat completion fails. *)
Definition completions_down (env : Env) : Prop :=
  forall l model messages temperature max_tokens,
    exists e, respond env l (ChatCompletion model messages temperature max_tokens) = Throw e.

(** The message store answers: a conversation with an [id] to read, and
    every message is taken. *)
Definition store_up (env : Env) : Prop :=
  (forall l u s, exists conversation,
      respond env l (DbGetOrCreateConversation u s) = Ok conversation /\
      conversation <> VUndefined /\ conversation <> VNull) /\
  (forall l id m, exists v, respond env l (DbAddMessage id m) = Ok v).

(** The message store fails to open a conversation. *)
Definition store_down (env : Env) : Prop :=
  forall l u s, exists e, respond env l (DbGetOrCreateConversation u s) = Throw e.

End Server.

(** ** GoogleCalendarService: free and busy hours *)

Module Availability.
Import Date.

(** An entry of [timeSlots]: [start] and [end] are kept as time values
    and written with [toISOString] where the code reads them. *)
Record Slot : Type := {
  slot_start : Z;
  slot_end : Z;
  available : bool
}.

(** One hour, [60 * 60 * 1000]. *)
Definition hour : Z := 60 * 60 * 1000.

(** [a < b] on two dates: false when either is invalid. *)
Definition before (a b : option Z) : bool :=
  match a, b with
  | Some x, Some y => x <? y
  | _, _ => false
  end.

(** [workingHours = { start: 9, end: 17 }] *)
Record Hours : Type := {
  hours_start : Z;
  hours_end : Z
}.

Definition default_hours : Hours := {| hours_start := 9; hours_end := 17 |}.

(** The inner [while]: from the slot at hand, whether the available slots
    in a row reach [duration] minutes, counting 60 for each. *)
Fixpoint enough (availability : list Slot) (consecutiveMinutes duration : Z) : bool :=
  match availability with
  | slot :: rest =>
      if available slot then
        let consecutiveMinutes := consecutiveMinutes + 60 in
        if duration <=? consecutiveMinutes then true
        else enough rest consecutiveMinutes duration
      else false
  | [] => false
  end.

Section Service.

Variable rt : Runtime.
(** [this.calendar.freebusy.query({ resource: { timeMin, timeMax, ... } })] *)
Variable freebusy_query : string -> string -> result value.

Local Open Scope result_scope.

(** The callback of [busyTimes.some]. *)
Definition conflicts (slotStart slotEnd : Z) (busy : value) : result bool :=
  busy_start <- get busy "start" ;;
  busy_end <- get busy "end" ;;
  Ok (before (Some slotStart) (Date_of rt busy_end)
      && before (Date_of rt busy_start) (Some slotEnd)).

Fixpoint some_conflict (slotStart slotEnd : Z) (busyTimes : list value) : result bool :=
  match busyTimes with
  | [] => Ok false
  | busy :: rest =>
      c <- conflicts slotStart slotEnd busy ;;
      if c then Ok true else some_conflict slotStart slotEnd rest
  end.

(** [!busyTimes.some(...)]: only an array has [some]. *)
Definition isAvailable (busyTimes : value) (slotStart slotEnd : Z) : result bool :=
  match busyTimes with
  | VArr items =>
      c <- some_conflict slotStart slotEnd items ;;
      Ok (negb c)
  | _ => Throw (TypeError "busyTimes.some is not a function")
  end.

(** [current.setHours(current.getHours() + 1)]: minutes, seconds and
    milliseconds are the date's own. *)
Definition next_hour (current : Z) : Z :=
  let l := LocalTime (localTZA rt) current in
  setHours (localTZA rt) current
    (HourFromTime l + 1) (MinFromTime l) (SecFromTime l) (msFromTime l).

(** The [for] loop over the hours from [current] up to [end]; [None] when
    [fuel] steps do not reach [end]. *)
Fixpoint timeSlots (fuel : nat) (busyTimes : value) (current end_ : Z)
    : option (result (list Slot)) :=
  if current <? end_ then
    match fuel with
    | O => None
    | S fuel' =>
        let slotStart := current in
        let slotEnd := current + hour in
        match isAvailable busyTimes slotStart slotEnd with
        | Throw e => Some (Throw e)
        | Ok isAvailable =>
            match timeSlots fuel' busyTimes (next_hour current) end_ with
            | Some (Ok rest) =>
                Some (Ok ({| slot_start := slotStart; slot_end := slotEnd;
                             available := isAvailable |} :: rest))
            | other => other
            end
        end
    end
  else Some (Ok []).

(** What precedes the loop in the [try] block: the query and the busy
    list of the primary calendar. *)
Definition busy_times (startDate endDate : value) : result value :=
  timeMin <- Assistant.iso rt (Date_of rt startDate) ;;
  timeMax <- Assistant.iso rt (Date_of rt endDate) ;;
  response <- freebusy_query timeMin timeMax ;;
  data <- get response "data" ;;
  calendars <- get data "calendars" ;;
  primary <- get calendars "primary" ;;
  busy <- get primary "busy" ;;
  Ok (or_else busy (VArr [])).

(** [checkAvailability(startDate, endDate)] *)
Definition checkAvailability (fuel : nat) (startDate endDate : value)
    : option (result (list Slot)) :=
  match busy_times startDate endDate with
  | Throw _ => Some (Throw (Error "Failed to check availability"))
  | Ok busyTimes =>
      match Date_of rt startDate, Date_of rt endDate with
      | Some start, Some end_ =>
          match timeSlots fuel busyTimes start end_ with
          | Some (Ok slots) => Some (Ok slots)
          | Some (Throw _) => Some (Throw (Error "Failed to check availability"))
          | None => None
          end
      | _, _ => Some (Ok [])
      end
  end.

(** The JSON form of a slot. *)
Definition slot_value (slot : Slot) : value :=
  VObj [("start", VStr (toISOString rt (slot_start slot)));
        ("end", VStr (toISOString rt (slot_end slot)));
        ("available", VBool (available slot))].

(** [slotStart.getHours()] *)
Definition getHours (t : Z) : Z := HourFromTime (LocalTime (localTZA rt) t).

(** The outer [for] of [findAvailableSlots], from the slot [slot] with the
    slots after it; [duration] is a whole number of minutes. *)
Fixpoint offers (duration : Z) (workingHours : Hours) (availability : list Slot)
    : list Slot :=
  match availability with
  | [] => []
  | slot :: rest =>
      let found :=
        match Date_of rt (VStr (toISOString rt (slot_start slot))) with
        | Some slotStart =>
            let slotHour := getHours slotStart in
            if available slot && (hours_start workingHours <=? slotHour)
               && (slotHour <? hours_end workingHours)
               && enough availability 0 duration
            then [{| slot_start := slot_start slot;
                     slot_end := slotStart + duration * 60 * 1000;
                     available := true |}]
            else []
        | None => []
        end in
      (found ++ offers duration workingHours rest)%list
  end.

(** [findAvailableSlots(duration, startDate, endDate, workingHours)] *)
Definition findAvailableSlots (fuel : nat) (duration : Z) (startDate endDate : value)
    (workingHours : Hours) : option (result (list Slot)) :=
  match checkAvailability fuel startDate endDate with
  | Some (Ok availability) => Some (Ok (offers duration workingHours availability))
  | Some (Throw _) => Some (Throw (Error "Failed to find available time slots"))
  | None => None
  end.

End Service.

(** *** Vocabulary of the statements *)

(** The hours from [start]: [n] time values one hour apart. *)
Fixpoint grid (start : Z) (n : nat) : list Z :=
  match n with
  | O => []
  | S n' => start :: grid (start + hour) n'
  end.

(** The number of hours begun between [start] and [end]. *)
Definition hours_between (start end_ : Z) : nat :=
  Z.to_nat ((end_ - start + (hour - 1)) / hour).

(** A busy entry of the free/busy response that reads as the interval
    from [fst iv] to [snd iv]. *)
Definition reads_as (rt : Runtime) (busy : value) (iv : Z * Z) : Prop :=
  exists s e, get busy "start" = Ok s /\ get busy "end" = Ok e /\
              Date_of rt s = Some (fst iv) /\ Date_of rt e = Some (snd iv).

(** The half-open hour from [t] meets the interval [iv]. *)
Definition overlaps (t : Z) (iv : Z * Z) : bool :=
  (t <? snd iv) && (fst iv <? t + hour).

(** The host keeps one offset from UTC. *)
Definition fixed_zone (rt : Runtime) (offset : Z) : Prop :=
  forall t b, localTZA rt t b = offset.

End Availability.

(** ** The hour text of the time pattern *)

Module TimeText.
Import Str.

(** [(\d{1,2})] at the digit [d] followed by [rest]: the digit, and the
    character after it when that is a digit too. *)
Definition first_digits (d : ascii) (rest : string) : string :=
  match rest with
  | String d2 _ => if is_digit d2 then String d (String d2 EmptyString) else String d EmptyString
  | EmptyString => String d EmptyString
  end.

(** [if (ampm === 'pm' && hours !== 12) hours += 12; else if (ampm ===
    'am' && hours === 12) hours = 0;] *)
Definition adjust (hours : Z) (ampm : option string) : Z :=
  match ampm with
  | Some m =>
      if String.eqb m "pm" && negb (hours =? 12) then hours + 12
      else if String.eqb m "am" && (hours =? 12) then 0
      else hours
  | None => hours
  end.

End TimeText.

(** ** More environments for the examples *)

Module Cases.

(** A principal four minutes from expiry, with a refresh token. *)
Definition expiring : Auth.world :=
  Scenario.store (Scenario.principal (Scenario.now0 + 4 * 60 * 1000) (Some "refresh-1")).

(** The credentials [Scenario.provider_up] issues. *)
Definition issued : Auth.Credentials :=
  {| Auth.access_token := "new-token";
     Auth.refresh_token := None;
     Auth.expiry_date := Scenario.now0 + 3600000 |}.

(** The user store is unreachable. *)
Definition store_down : Auth.Env :=
  {| Auth.store_fault := fun _ => Some (Error "connection lost");
     Auth.oauth_refresh := Auth.oauth_refresh Scenario.provider_up |}.

(** The user store reads, and fails at the third call, the save. *)
Definition save_down : Auth.Env :=
  {| Auth.store_fault := fun calls =>
       if (length calls =? 2)%nat then Some (Error "write failed") else None;
     Auth.oauth_refresh := Auth.oauth_refresh Scenario.provider_up |}.

(** Ten messages of a history, and one that came before them. *)
Definition ten : list OpenAIService.ChatMessage :=
  repeat {| OpenAIService.role := "user"; OpenAIService.content := "and again" |} 10.

Definition earlier : list OpenAIService.ChatMessage :=
  [{| OpenAIService.role := "user"; OpenAIService.content := "first of all" |}].


(** The completion endpoint is down. *)
Definition helper_down (_ : OpenAIService.Request)
    : result (list OpenAIService.ResponseMessage) :=
  Throw (Error "503 service unavailable").

Definition sent_mail : OpenAIService.ActionIntent :=
  {| OpenAIService.type := VStr "email";
     OpenAIService.action := "send_email";
     OpenAIService.parameters := Scenario.email_args;
     OpenAIService.confidence := 0.9 |}.

(** Every completion fails; the message store works. *)
Definition outage : Assistant.Env :=
  Scenario.answering (Throw (Error "503 service unavailable"))
                     (Throw (Error "503 service unavailable")).

(** Nothing answers, the message store included. *)
Definition database_down : Assistant.Env :=
  {| Assistant.respond := fun _ _ => Throw (Error "connect ECONNREFUSED");
     Assistant.clock := fun _ => Scenario.clock0 |}.

Definition unread_request : Server.Body :=
  {| Server.body_message := VStr "Which emails are unread?";
     Server.body_userId := Some "u";
     Server.body_sessionId := None |}.

Definition empty_request : Server.Body :=
  {| Server.body_message := VUndefined;
     Server.body_userId := Some "u";
     Server.body_sessionId := None |}.

(** A request whose message is the number 5. *)
Definition number_request : Server.Body :=
  {| Server.body_message := VNum 5;
     Server.body_userId := Some "u";
     Server.body_sessionId := None |}.

(** The services reject a message that is not a string. *)
Definition rejects_other (_ : value) (_ _ : string) : Eff.M Assistant.world Assistant.Reply :=
  Eff.throw (Error "Invalid value for argument content").


(** 2023-11-15 from 08:00 to 11:30 UTC, with a meeting from 09:30 to
    10:15. *)
Definition morning : Z := 1700035200000.
Definition half_past_eleven : Z := morning + 3 * Availability.hour + 30 * 60 * 1000.
Definition meeting : Z * Z :=
  (morning + Availability.hour + 30 * 60 * 1000,
   morning + 2 * Availability.hour + 15 * 60 * 1000).

(** The time values the example host reads back from their ISO form. *)
Definition instants : list Z :=
  [morning; half_past_eleven; fst meeting; snd meeting;
   morning + Availability.hour; morning + 2 * Availability.hour;
   morning + 3 * Availability.hour].

(** A host in UTC whose [new Date(v)] reads the ISO strings of
    [instants]. *)
Definition calendar_host : Runtime :=
  {| JSON_parse := Scenario.parse;
     JSON_stringify := fun _ => "{}";
     ToString_other := fun _ => "[object Object]";
     ToNumber_other := fun _ => None;
     localTZA := Scenario.utc;
     Date_of := fun v =>
       match v with
       | VStr s => List.find (fun t => String.eqb (Scenario.iso8601 t) s) instants
       | _ => None
       end;
     toISOString := Scenario.iso8601;
     toLocaleDateString := fun _ => "Invalid Date";
     toLocaleTimeString := fun _ => "Invalid Date" |}.

Definition busy_meeting : value :=
  VObj [("start", VStr (Scenario.iso8601 (fst meeting)));
        ("end", VStr (Scenario.iso8601 (snd meeting)))].

(** The free/busy answer with the one meeting. *)
Definition freebusy (_ _ : string) : result value :=
  Ok (VObj [("data",
             VObj [("calendars",
                    VObj [("primary", VObj [("busy", VArr [busy_meeting])])])])]).

End Cases.

(** * Properties *)

(** ** parseDateTime *)

Section CalendarFacts.
Import Str Date Calendar.

Variable localTZA : Z -> bool -> Z.
Variable toISOString : Z -> string.

Lemma match_here_digit (c : ascii) (r : string) :
  is_digit c = true -> exists g, match_here (String c r) = Some g.
Proof.
  intros Hc. unfold match_here. rewrite Hc.
  repeat match goal with
         | |- context [let '(_, _) := ?x in _] => destruct x
         end.
  eexists. reflexivity.
Qed.

Lemma match_here_no_digit (c : ascii) (r : string) :
  is_digit c = false -> match_here (String c r) = None.
Proof. intros Hc. unfold match_here. now rewrite Hc. Qed.

(** The time pattern fails exactly on the strings without a decimal
    digit. *)
Lemma time_match_none_iff (s : string) :
  time_match s = None <-> has_digit s = false.
Proof.
  induction s as [| c r IH].
  - simpl. tauto.
  - cbn [time_match has_digit].
    destruct (is_digit c) eqn:Hc.
    + destruct (match_here_digit c r Hc) as [g Hg]. rewrite Hg.
      simpl. split; discriminate.
    + rewrite (match_here_no_digit c r Hc). simpl. exact IH.
Qed.

Lemma two_pm_fields (d : Z) :
  let local := MakeDate d (MakeTime 14 0 0 0) in
  Day local = d /\ HourFromTime local = 14 /\ MinFromTime local = 0 /\
  SecFromTime local = 0 /\ msFromTime local = 0.
Proof.
  cbv [MakeDate MakeTime Day HourFromTime MinFromTime SecFromTime msFromTime
       msPerDay msPerHour msPerMinute msPerSecond].
  repeat split; Z.div_mod_to_equations; lia.
Qed.

(** C10. For every input string the interval [parseDateTime] returns ends
    exactly one hour (3 600 000 ms) after it starts, and when the time
    pattern finds nothing in the lower-cased input the start is 14:00:00.000
    local time on the local day of the resolved date. *)
Theorem parseDateTime_one_hour_default_2pm (now : Z) (s : string) :
  let startDate := fst (parseDateTime_dates localTZA now s) in
  let endDate := snd (parseDateTime_dates localTZA now s) in
  parseDateTime localTZA toISOString now s
    = {| start := toISOString startDate; end_ := toISOString endDate |}
  /\ endDate = startDate + 3600000
  /\ (time_match (toLowerCase s) = None ->
      exists local,
        startDate = UTC localTZA local /\
        Day local = Day (LocalTime localTZA (resolve_date localTZA now (toLowerCase s))) /\
        HourFromTime local = 14 /\ MinFromTime local = 0 /\
        SecFromTime local = 0 /\ msFromTime local = 0).
Proof.
  cbv zeta. unfold parseDateTime, parseDateTime_dates. cbn [fst snd].
  split; [reflexivity |]. split; [lia |].
  intros Hnone. unfold resolve_time. rewrite Hnone.
  unfold setHours. eexists. split; [reflexivity |].
  apply two_pm_fields.
Qed.

End CalendarFacts.

(** ** The log of calls *)

Section LogFacts.
Import Assistant.

Variable rt : Runtime.
Variable env : Env.

Lemma emits_ret {A} (P : event -> Prop) (a : A) : emits P (ret a).
Proof. intros w. exists []. cbn. rewrite app_nil_r. auto. Qed.

Lemma emits_throw {A} (P : event -> Prop) (e : exn) : emits P (@throw world A e).
Proof. intros w. exists []. cbn. rewrite app_nil_r. auto. Qed.

Lemma emits_lift {A} (P : event -> Prop) (r : result A) : emits P (lift r).
Proof. intros w. exists []. cbn. rewrite app_nil_r. auto. Qed.

Lemma emits_bind {A B} (P : event -> Prop) (m : M world A) (k : A -> M world B) :
  emits P m -> (forall a, emits P (k a)) -> emits P (bind m k).
Proof.
  intros Hm Hk w. unfold bind.
  destruct (Hm w) as [evs [Hlog HP]].
  destruct (m w) as [[a | e] w1]; cbn in *.
  - destruct (Hk a w1) as [evs' [Hlog' HP']].
    exists (evs ++ evs')%list. rewrite Hlog', Hlog, app_assoc.
    split; [reflexivity | apply List.Forall_app; auto].
  - exists evs. auto.
Qed.

Lemma emits_bind_lift {A B} (P : event -> Prop) (r : result A) (k : A -> M world B) :
  (forall a, r = Ok a -> emits P (k a)) -> emits P (bind (lift r) k).
Proof.
  intros Hk w. unfold bind, lift.
  destruct r as [a | e].
  - apply (Hk a eq_refl).
  - exists []. cbn. rewrite app_nil_r. auto.
Qed.

Lemma emits_try {A} (P : event -> Prop) (body : M world A) (h : exn -> M world A) :
  emits P body -> (forall e, emits P (h e)) -> emits P (try_catch body h).
Proof.
  intros Hm Hh w. unfold try_catch.
  destruct (Hm w) as [evs [Hlog HP]].
  destruct (body w) as [[a | e] w1]; cbn in *.
  - exists evs. auto.
  - destruct (Hh e w1) as [evs' [Hlog' HP']].
    exists (evs ++ evs')%list. rewrite Hlog', Hlog, app_assoc.
    split; [reflexivity | apply List.Forall_app; auto].
Qed.

Lemma emits_weaken {A} (P Q : event -> Prop) (m : M world A) :
  (forall e, P e -> Q e) -> emits P m -> emits Q m.
Proof.
  intros HPQ Hm w. destruct (Hm w) as [evs [Hlog HP]].
  exists evs. split; [exact Hlog |].
  eapply List.Forall_impl; [exact HPQ | exact HP].
Qed.

Lemma emits_ext (P : event -> Prop) (c : call) :
  (forall r, P (Called c r)) -> emits P (ext env c).
Proof.
  intros HP w. exists [Called c (respond env (log w) c)]. cbn. auto.
Qed.

Lemma emits_dispatched (P : event -> Prop) (i : value) (u s : string) :
  P (Dispatched i u s) -> emits P (dispatched i u s).
Proof. intros HP w. exists [Dispatched i u s]. cbn. auto. Qed.

Lemma emits_getContext (P : event -> Prop) (u s : string) : emits P (getContext u s).
Proof.
  intros w. exists []. unfold getContext.
  destruct (conversations w !! contextId u s); cbn; rewrite app_nil_r; auto.
Qed.

Lemma emits_update (P : event -> Prop) (id : string) (f : Context -> Context) :
  emits P (update id f).
Proof. intros w. exists []. cbn. rewrite app_nil_r. auto. Qed.

Lemma emits_deref (P : event -> Prop) (id : string) : emits P (deref id).
Proof.
  intros w. exists []. unfold deref.
  destruct (conversations w !! id); cbn; rewrite app_nil_r; auto.
Qed.

Lemma emits_parseDateTime (P : event -> Prop) (v : value) :
  emits P (parseDateTime rt env v).
Proof.
  intros w. exists []. unfold parseDateTime.
  destruct v; cbn; rewrite app_nil_r; auto.
Qed.

Ltac emits_step :=
  first
    [ apply emits_ret | apply emits_throw | apply emits_lift
    | apply emits_update | apply emits_getContext | apply emits_deref
    | apply emits_parseDateTime
    | apply emits_ext; intros; exact I
    | apply emits_bind_lift; intros
    | apply emits_bind; [| intros]
    | apply emits_try; [| intros]
    | match goal with
      | |- emits _ (if ?c then _ else _) => destruct c
      end ].

Lemma analyzeIntent_emits (input u s : string) :
  emits conversational (analyzeIntent rt env input u s).
Proof. unfold analyzeIntent. repeat emits_step. Qed.

Lemma generateResponse_emits (input u s : string) (context : value) :
  emits conversational (generateResponse rt env input u s context).
Proof.
  unfold generateResponse, generateResponse_body.
  repeat first [apply analyzeIntent_emits | emits_step].
Qed.

Lemma handleScheduleEvent_emits (p : value) (u : string) :
  emits is_call (handleScheduleEvent rt env p u).
Proof. unfold handleScheduleEvent. repeat emits_step. Qed.

Lemma handleCheckAvailability_emits (p : value) (u : string) :
  emits is_call (handleCheckAvailability rt env p u).
Proof. unfold handleCheckAvailability. repeat emits_step. Qed.

Lemma handleGetEvents_emits (p : value) (u : string) :
  emits is_call (handleGetEvents env p u).
Proof. unfold handleGetEvents. repeat emits_step. Qed.

Lemma handleSendEmail_emits (p : value) (u : string) :
  emits is_call (handleSendEmail rt env p u).
Proof. unfold handleSendEmail. repeat emits_step. Qed.

Lemma handleCancelEvent_emits (p : value) (u : string) :
  emits is_call (handleCancelEvent env p u).
Proof. unfold handleCancelEvent. repeat emits_step. Qed.

Lemma handleUpdateEvent_emits (p : value) (u : string) :
  emits is_call (handleUpdateEvent env p u).
Proof. unfold handleUpdateEvent. repeat emits_step. Qed.

End LogFacts.

(** ** The confidence threshold *)

Section ThresholdFacts.
Import Assistant.

Variable rt : Runtime.
Variable env : Env.

Lemma gt_num_le (c q : Q) :
  (c <= q)%Q -> gt_num (ToNumber_other rt) (VNum c) q = false.
Proof.
  intros Hle. unfold gt_num, to_number.
  destruct (c ?= q)%Q eqn:Hcmp; try reflexivity.
  apply Qle_alt in Hle. contradiction.
Qed.

Lemma handleIntent_emits (i : value) (u s : string) :
  emits (fun e => is_call e \/ e = Dispatched i u s) (handleIntent rt env i u s).
Proof.
  unfold handleIntent.
  apply emits_bind; [apply emits_dispatched; now right | intros _].
  apply emits_weaken with (P := is_call); [now left |].
  apply emits_try; [| intros; apply emits_throw].
  apply emits_bind_lift. intros action _.
  repeat first
    [ apply handleScheduleEvent_emits | apply handleCheckAvailability_emits
    | apply handleGetEvents_emits | apply handleSendEmail_emits
    | apply handleCancelEvent_emits | apply handleUpdateEvent_emits
    | apply emits_ret
    | apply emits_bind_lift; intros
    | match goal with
      | |- emits _ (if ?c then _ else _) => destruct c
      end ].
Qed.

Lemma processTextInput_emits (text u s : string) :
  emits (dispatch_confident rt) (processTextInput rt env text u s).
Proof.
  unfold processTextInput, processTextInput_body.
  apply emits_try; [| intros; apply emits_throw].
  apply emits_bind; [apply emits_ext; intros; exact I | intros conversation].
  apply emits_bind_lift. intros id _.
  apply emits_bind; [apply emits_ext; intros; exact I | intros _].
  apply emits_bind.
  { apply emits_weaken with (P := conversational); [| apply generateResponse_emits].
    intros [c r | i u' s']; cbn; tauto. }
  intros aiResponse.
  apply emits_bind_lift. intros id' _.
  apply emits_bind; [apply emits_ext; intros; exact I | intros _].
  apply emits_bind_lift. intros confidence Hconfidence.
  apply emits_bind; [| intros; apply emits_ret].
  destruct (gt_num (ToNumber_other rt) confidence 0.7) eqn:Hgt; [| apply emits_ret].
  apply emits_bind; [| intros; apply emits_ret].
  apply emits_weaken with (2 := handleIntent_emits (intent aiResponse) u s).
  intros e [Hcall | ->].
  - destruct e; [exact I | destruct Hcall].
  - cbn. eauto.
Qed.

Lemma handleFollowUp_emits (text u s : string) :
  emits conversational (handleFollowUp rt env text u s).
Proof.
  unfold handleFollowUp.
  apply emits_bind; [apply emits_getContext | intros context].
  apply emits_bind; [apply emits_deref | intros c].
  destruct (truthy (currentTask c)).
  - apply emits_bind; [apply generateResponse_emits | intros reply].
    apply emits_bind_lift. intros confidence _.
    destruct (gt_num (ToNumber_other rt) confidence 0.7 && negb (truthy (needsMoreInfo reply))).
    + apply emits_bind; [apply emits_update | intros _].
      apply emits_bind_lift. intros action _.
      apply emits_bind_lift. intros parameters _.
      apply emits_ret.
    + apply emits_ret.
  - apply emits_bind; [apply generateResponse_emits | intros reply].
    apply emits_bind_lift. intros action _.
    apply emits_bind_lift. intros parameters _.
    apply emits_ret.
Qed.

Lemma bind_Ok_inv {W A B} (m : M W A) (k : A -> M W B) (w w' : W) (b : B) :
  bind m k w = (Ok b, w') ->
  exists a w1, m w = (Ok a, w1) /\ k a w1 = (Ok b, w').
Proof.
  unfold bind. destruct (m w) as [[a | e] w1]; [eauto | discriminate].
Qed.

Lemma emits_run {A} (P : event -> Prop) (m : M world A) (w w' : world) (r : result A) :
  emits P m -> m w = (r, w') ->
  exists evs, log w' = (log w ++ evs)%list /\ Forall P evs.
Proof. intros Hm Hrun. specialize (Hm w). now rewrite Hrun in Hm. Qed.

(** A turn that returns a reply whose confidence does not compare greater
    than 0.7 has made conversational calls only. *)
Lemma processTextInput_low (text u s : string) (w w' : world) (reply : Reply) (c : value) :
  processTextInput rt env text u s w = (Ok reply, w') ->
  get (intent reply) "confidence" = Ok c ->
  gt_num (ToNumber_other rt) c 0.7 = false ->
  exists evs, log w' = (log w ++ evs)%list /\ Forall conversational evs.
Proof.
  intros Hrun Hc Hgt.
  unfold processTextInput, try_catch in Hrun.
  destruct (processTextInput_body rt env text u s w) as [[reply0 | e] w0] eqn:Hbody;
    [| discriminate].
  injection Hrun as -> ->.
  unfold processTextInput_body in Hbody.
  apply bind_Ok_inv in Hbody as (conversation & w1 & H1 & Hbody).
  apply bind_Ok_inv in Hbody as (id & w2 & H2 & Hbody).
  apply bind_Ok_inv in Hbody as (x3 & w3 & H3 & Hbody).
  apply bind_Ok_inv in Hbody as (aiResponse & w4 & H4 & Hbody).
  apply bind_Ok_inv in Hbody as (id' & w5 & H5 & Hbody).
  apply bind_Ok_inv in Hbody as (x6 & w6 & H6 & Hbody).
  apply bind_Ok_inv in Hbody as (confidence & w7 & H7 & Hbody).
  apply bind_Ok_inv in Hbody as (x8 & w8 & H8 & Hbody).
  injection Hbody as <- <-.
  eapply emits_run in H1 as (evs1 & L1 & HP1);
    [| apply emits_ext with (P := conversational); intros; exact I].
  eapply emits_run in H3 as (evs3 & L3 & HP3);
    [| apply emits_ext with (P := conversational); intros; exact I].
  eapply emits_run in H4 as (evs4 & L4 & HP4); [| apply generateResponse_emits].
  eapply emits_run in H6 as (evs6 & L6 & HP6);
    [| apply emits_ext with (P := conversational); intros; exact I].
  injection H2 as _ E2. injection H5 as _ E5. injection H7 as H7 E7.
  rewrite Hc in H7. injection H7 as <-.
  rewrite Hgt in H8. injection H8 as _ E8.
  exists (evs1 ++ evs3 ++ evs4 ++ evs6)%list.
  split.
  - rewrite <- E8, <- E7, L6, <- E5, L4, L3, <- E2, L1, <- !List.app_assoc. reflexivity.
  - apply List.Forall_app; split; [assumption |].
    apply List.Forall_app; split; [assumption |].
    apply List.Forall_app; split; assumption.
Qed.

(** C1. A turn never hands an intent whose confidence is at most 0.7 to
    the action dispatcher: every [handleIntent] entry that
    [processTextInput] logs carries a confidence strictly greater than
    0.7, a turn that returns an intent of confidence at most 0.7 has made
    only conversational calls (completions and the message store), and
    [handleFollowUp] never dispatches at all. *)
Theorem low_confidence_never_dispatches (text u s : string) (w : world) :
  (exists evs,
     log (snd (processTextInput rt env text u s w)) = (log w ++ evs)%list /\
     (forall i u' s' c,
        get i "confidence" = Ok (VNum c) -> (c <= 0.7)%Q ->
        ~ In (Dispatched i u' s') evs) /\
     (forall reply c,
        fst (processTextInput rt env text u s w) = Ok reply ->
        get (intent reply) "confidence" = Ok (VNum c) -> (c <= 0.7)%Q ->
        Forall conversational evs))
  /\ (exists evs,
        log (snd (handleFollowUp rt env text u s w)) = (log w ++ evs)%list /\
        Forall conversational evs).
Proof.
  split; [| apply handleFollowUp_emits].
  destruct (processTextInput_emits text u s w) as [evs [Hlog HP]].
  exists evs. split; [exact Hlog |]. split.
  - intros i u' s' c Hc Hle Hin.
    rewrite List.Forall_forall in HP. apply HP in Hin.
    destruct Hin as [c' [Hc' Hgt]].
    rewrite Hc in Hc'. injection Hc' as <-.
    rewrite (gt_num_le c 0.7 Hle) in Hgt. discriminate.
  - intros reply c Hok Hc Hle.
    destruct (processTextInput rt env text u s w) as [r w'] eqn:Hrun.
    cbn in Hok, Hlog. subst r.
    destruct (processTextInput_low text u s w w' reply (VNum c) Hrun Hc (gt_num_le c 0.7 Hle))
      as [evs' [Hlog' HP']].
    rewrite Hlog in Hlog'. apply app_inv_head in Hlog'. now subst evs'.
Qed.

End ThresholdFacts.

(** ** The token lifecycle *)

Section AuthFacts.
Import Auth.

Variable env : Env.

Lemma findById_found (userId : string) (user : User) (w : world) :
  users w !! userId = Some user ->
  store_fault env (calls w) = None ->
  findById env userId w = (Ok (Some user), record (FindById userId) w).
Proof. intros Hu Hf. unfold findById. now rewrite Hf, Hu. Qed.

(** The fast path: a token that outlives the five-minute skew is returned
    as stored, after the one read of the user store. *)
Lemma getValidAccessToken_fresh (now : Z) (userId : string) (user : User) (w : world) :
  users w !! userId = Some user ->
  store_fault env (calls w) = None ->
  tokenExpiry user > now + 5 * 60 * 1000 ->
  getValidAccessToken env now userId w
    = (Ok (accessToken user), record (FindById userId) w).
Proof.
  intros Hu Hf Hexp.
  unfold getValidAccessToken, try_catch, bind.
  rewrite (findById_found userId user w Hu Hf).
  replace (tokenExpiry user >? now + 5 * 60 * 1000) with true
    by (symmetry; apply Z.gtb_lt; lia).
  reflexivity.
Qed.

(** The refresh path with a usable refresh token: what the provider and
    the store answer decides the outcome. *)
Lemma getValidAccessToken_refresh (now : Z) (userId rt : string) (user : User) (w : world) :
  users w !! userId = Some user ->
  store_fault env (calls w) = None ->
  tokenExpiry user <= now + 5 * 60 * 1000 ->
  refreshToken user = Some rt -> rt <> "" ->
  let w1 := record (OAuthRefresh rt) (record (FindById userId) w) in
  getValidAccessToken env now userId w
  = match oauth_refresh env (calls (record (FindById userId) w)) rt with
    | Throw _ => (Throw (Error "Failed to get valid access token"), w1)
    | Ok newTokens =>
        let user' :=
          {| accessToken := access_token newTokens;
             refreshToken := if present (refresh_token newTokens)
                             then refresh_token newTokens else refreshToken user;
             tokenExpiry := expiry_date newTokens |} in
        match store_fault env (calls w1) with
        | Some _ =>
            (Throw (Error "Failed to get valid access token"), record (Save userId user') w1)
        | None =>
            (Ok (access_token newTokens),
             {| users := <[userId := user']> (users w1);
                calls := calls w1 ++ [Save userId user'] |})
        end
    end.
Proof.
  intros Hu Hf Hexp Hrt Hne.
  unfold getValidAccessToken, try_catch, bind.
  rewrite (findById_found userId user w Hu Hf).
  replace (tokenExpiry user >? now + 5 * 60 * 1000) with false
    by (symmetry; rewrite Z.gtb_ltb; apply Z.ltb_ge; lia).
  rewrite Hrt.
  replace (String.eqb rt "") with false by (symmetry; now apply String.eqb_neq).
  unfold refreshAccessToken, try_catch, bind, oauth2Client_refreshAccessToken.
  cbv zeta. cbn [record calls users fst snd].
  destruct (oauth_refresh env (calls w ++ [FindById userId])%list rt) as [newTokens | e];
    [| reflexivity].
  unfold save, ret. cbn [record calls users fst snd].
  clear Hf.
  destruct (store_fault env _); reflexivity.
Qed.

(** The refresh path without a refresh token. *)
Lemma getValidAccessToken_no_refresh_token (now : Z) (userId : string) (user : User) (w : world) :
  users w !! userId = Some user ->
  store_fault env (calls w) = None ->
  tokenExpiry user <= now + 5 * 60 * 1000 ->
  present (refreshToken user) = false ->
  getValidAccessToken env now userId w
    = (Throw (Error "Failed to get valid access token"), record (FindById userId) w).
Proof.
  intros Hu Hf Hexp Hrt.
  unfold getValidAccessToken, try_catch, bind.
  rewrite (findById_found userId user w Hu Hf).
  replace (tokenExpiry user >? now + 5 * 60 * 1000) with false
    by (symmetry; rewrite Z.gtb_ltb; apply Z.ltb_ge; lia).
  destruct (refreshToken user) as [rt |]; [| reflexivity].
  cbn in Hrt. apply negb_false_iff in Hrt. now rewrite Hrt.
Qed.

(** C3. With the user found: a token that expires later than five minutes
    from now is returned as stored and the refresh capability is not
    called (so at now + 10 min); a token that expires within five minutes
    takes the refresh path (so at now + 4 min): the refresh capability is
    called with the stored refresh token right after the read, and a token
    is returned only if the provider issued it. *)
Theorem getValidAccessToken_five_minute_skew
    (now : Z) (userId : string) (user : User) (w : world) :
  users w !! userId = Some user ->
  store_fault env (calls w) = None ->
  let run := getValidAccessToken env now userId w in
  (tokenExpiry user > now + 5 * 60 * 1000 ->
     run = (Ok (accessToken user), record (FindById userId) w) /\
     forall rt, ~ In (OAuthRefresh rt) (skipn (length (calls w)) (calls (snd run))))
  /\ (tokenExpiry user = now + 10 * 60 * 1000 ->
      run = (Ok (accessToken user), record (FindById userId) w))
  /\ (tokenExpiry user <= now + 5 * 60 * 1000 ->
      (forall rt, refreshToken user = Some rt -> rt <> "" ->
         exists rest,
           calls (snd run) = (calls w ++ FindById userId :: OAuthRefresh rt :: rest)%list) /\
      (forall token, fst run = Ok token ->
         exists rt newTokens,
           refreshToken user = Some rt /\
           oauth_refresh env (calls w ++ [FindById userId])%list rt = Ok newTokens /\
           token = access_token newTokens))
  /\ (tokenExpiry user = now + 4 * 60 * 1000 ->
      forall token, fst run = Ok token ->
        exists rt, In (OAuthRefresh rt) (calls (snd run))).
Proof.
  intros Hu Hf run.
  assert (Hfresh : tokenExpiry user > now + 5 * 60 * 1000 ->
            run = (Ok (accessToken user), record (FindById userId) w)).
  { intros Hexp. apply getValidAccessToken_fresh; assumption. }
  assert (Hstale : tokenExpiry user <= now + 5 * 60 * 1000 ->
            (forall rt, refreshToken user = Some rt -> rt <> "" ->
               exists rest,
                 calls (snd run)
                 = (calls w ++ FindById userId :: OAuthRefresh rt :: rest)%list) /\
            (forall token, fst run = Ok token ->
               exists rt newTokens,
                 refreshToken user = Some rt /\
                 oauth_refresh env (calls w ++ [FindById userId])%list rt = Ok newTokens /\
                 token = access_token newTokens)).
  { intros Hexp. split.
    - intros rt Hrt Hne. subst run.
      rewrite (getValidAccessToken_refresh now userId rt user w Hu Hf Hexp Hrt Hne).
      cbn zeta.
      destruct (oauth_refresh env _ rt) as [newTokens | e].
      + clear Hf. destruct (store_fault env _); cbn; rewrite <- !List.app_assoc; cbn; eauto.
      + cbn. rewrite <- !List.app_assoc. cbn. eauto.
    - intros token Hok. subst run.
      destruct (present (refreshToken user)) eqn:Hp.
      + destruct (refreshToken user) as [rt |] eqn:Hrt; [| discriminate].
        assert (Hne : rt <> "").
        { cbn in Hp. apply negb_true_iff in Hp. now apply String.eqb_neq. }
        rewrite (getValidAccessToken_refresh now userId rt user w Hu Hf Hexp Hrt Hne) in Hok.
        cbn zeta in Hok. cbn [record calls] in Hok.
        destruct (oauth_refresh env _ rt) as [newTokens | e] eqn:Hprov;
          [| discriminate].
        clear Hf. destruct (store_fault env _); [discriminate |].
        injection Hok as <-. eauto.
      + rewrite (getValidAccessToken_no_refresh_token now userId user w Hu Hf Hexp Hp) in Hok.
        discriminate. }
  split; [| split; [| split]].
  - intros Hexp. split; [now apply Hfresh |].
    rewrite (Hfresh Hexp). cbn. intros rt.
    rewrite List.skipn_app, List.skipn_all, Nat.sub_diag. cbn.
    intros [H | []]. discriminate.
  - intros Hexp. apply Hfresh. lia.
  - exact Hstale.
  - intros Hexp token Hok.
    destruct Hstale as [Hcalls Htoken]; [lia |].
    destruct (Htoken token Hok) as (rt & newTokens & Hrt & _ & _).
    assert (Hne : rt <> "").
    { intros ->. subst run.
      rewrite (getValidAccessToken_no_refresh_token now userId user w Hu Hf) in Hok;
        [discriminate | lia | now rewrite Hrt]. }
    destruct (Hcalls rt Hrt Hne) as [rest Hrest].
    exists rt. rewrite Hrest. apply in_or_app. right. cbn. auto.
Qed.

(** C4, as the code has it. Inside the expiry window, a missing (or
    empty) refresh token and a refresh that the provider fails both end in
    the one generic exception "Failed to get valid access token": the
    messages of the inner errors do not reach the caller. In both cases no
    token is returned and the stored users are unchanged; without a refresh
    token the refresh capability is not called. *)
Theorem getValidAccessToken_failure_is_generic
    (now : Z) (userId : string) (user : User) (w : world) :
  users w !! userId = Some user ->
  store_fault env (calls w) = None ->
  in_window now user ->
  let run := getValidAccessToken env now userId w in
  let generic := Error "Failed to get valid access token" in
  (present (refreshToken user) = false ->
     run = (Throw generic, record (FindById userId) w))
  /\ (forall rt e,
        refreshToken user = Some rt -> rt <> "" ->
        oauth_refresh env (calls w ++ [FindById userId])%list rt = Throw e ->
        fst run = Throw generic /\
        users (snd run) = users w /\
        calls (snd run) = (calls w ++ [FindById userId; OAuthRefresh rt])%list)
  /\ kind_of generic = None.
Proof.
  intros Hu Hf Hwin run generic. unfold in_window in Hwin.
  split; [| split].
  - intros Hp. subst run. apply (getValidAccessToken_no_refresh_token now userId user w); assumption.
  - intros rt e Hrt Hne Hprov. subst run.
    rewrite (getValidAccessToken_refresh now userId rt user w Hu Hf Hwin Hrt Hne).
    cbn zeta. cbn [record calls]. rewrite Hprov. cbn.
    rewrite <- List.app_assoc. auto.
  - reflexivity.
Qed.

End AuthFacts.

Lemma getValidAccessToken_five_minute_skew_witness :
  Auth.getValidAccessToken Scenario.provider_up Scenario.now0 "user-1"
    (Scenario.store (Scenario.principal (Scenario.now0 + 10 * 60 * 1000) (Some "refresh-1")))
  = (Ok "cached-token",
     Auth.record (Auth.FindById "user-1")
       (Scenario.store (Scenario.principal (Scenario.now0 + 10 * 60 * 1000) (Some "refresh-1"))))
  /\ exists rt,
       In (Auth.OAuthRefresh rt)
          (Auth.calls
             (snd (Auth.getValidAccessToken Scenario.provider_up Scenario.now0 "user-1"
                     (Scenario.store
                        (Scenario.principal (Scenario.now0 + 4 * 60 * 1000)
                           (Some "refresh-1")))))).
Proof.
  split.
  - apply (proj1 (proj2
      (getValidAccessToken_five_minute_skew Scenario.provider_up Scenario.now0 "user-1"
         (Scenario.principal (Scenario.now0 + 10 * 60 * 1000) (Some "refresh-1"))
         (Scenario.store (Scenario.principal (Scenario.now0 + 10 * 60 * 1000) (Some "refresh-1")))
         eq_refl eq_refl))).
    reflexivity.
  - apply (proj2 (proj2 (proj2
      (getValidAccessToken_five_minute_skew Scenario.provider_up Scenario.now0 "user-1"
         (Scenario.principal (Scenario.now0 + 4 * 60 * 1000) (Some "refresh-1"))
         (Scenario.store (Scenario.principal (Scenario.now0 + 4 * 60 * 1000) (Some "refresh-1")))
         eq_refl eq_refl))) eq_refl "new-token").
    vm_compute. reflexivity.
Defined.

Lemma getValidAccessToken_failure_is_generic_witness :
  fst (Auth.getValidAccessToken Scenario.provider_down Scenario.now0 "user-1"
         (Scenario.store (Scenario.principal (Scenario.now0 + 4 * 60 * 1000) (Some "refresh-1"))))
  = Throw (Error "Failed to get valid access token")
  /\ Auth.users
       (snd (Auth.getValidAccessToken Scenario.provider_down Scenario.now0 "user-1"
               (Scenario.store
                  (Scenario.principal (Scenario.now0 + 4 * 60 * 1000) (Some "refresh-1")))))
     = Auth.users
         (Scenario.store (Scenario.principal (Scenario.now0 + 4 * 60 * 1000) (Some "refresh-1")))
  /\ Auth.getValidAccessToken Scenario.provider_down Scenario.now0 "user-1"
       (Scenario.store (Scenario.principal (Scenario.now0 + 4 * 60 * 1000) None))
     = (Throw (Error "Failed to get valid access token"),
        Auth.record (Auth.FindById "user-1")
          (Scenario.store (Scenario.principal (Scenario.now0 + 4 * 60 * 1000) None))).
Proof.
  pose proof
    (getValidAccessToken_failure_is_generic Scenario.provider_down Scenario.now0 "user-1"
       (Scenario.principal (Scenario.now0 + 4 * 60 * 1000) (Some "refresh-1"))
       (Scenario.store (Scenario.principal (Scenario.now0 + 4 * 60 * 1000) (Some "refresh-1")))
       eq_refl eq_refl) as Hfail.
  pose proof
    (getValidAccessToken_failure_is_generic Scenario.provider_down Scenario.now0 "user-1"
       (Scenario.principal (Scenario.now0 + 4 * 60 * 1000) None)
       (Scenario.store (Scenario.principal (Scenario.now0 + 4 * 60 * 1000) None))
       eq_refl eq_refl) as Hnone.
  split; [| split].
  - apply (proj1 (proj2 (Hfail ltac:(unfold Auth.in_window; cbn; lia)))
             "refresh-1" (Error "invalid_grant") eq_refl ltac:(discriminate) eq_refl).
  - apply (proj1 (proj2 (Hfail ltac:(unfold Auth.in_window; cbn; lia)))
             "refresh-1" (Error "invalid_grant") eq_refl ltac:(discriminate) eq_refl).
  - apply (proj1 (Hnone ltac:(unfold Auth.in_window; cbn; lia)) eq_refl).
Defined.

(** C4, refuted as stated: with the token four minutes from expiry, the
    principal without a refresh token and the principal whose refresh the
    provider rejects get the same exception, and its message names neither
    error kind. *)
Lemma refresh_failures_share_one_error :
  exists e,
    fst (Auth.getValidAccessToken Scenario.provider_down Scenario.now0 "user-1"
           (Scenario.store (Scenario.principal (Scenario.now0 + 4 * 60 * 1000) None)))
    = Throw e
    /\ fst (Auth.getValidAccessToken Scenario.provider_down Scenario.now0 "user-1"
              (Scenario.store
                 (Scenario.principal (Scenario.now0 + 4 * 60 * 1000) (Some "refresh-1"))))
       = Throw e
    /\ Auth.kind_of e <> Some Auth.NoRefreshToken
    /\ Auth.kind_of e <> Some Auth.RefreshFailed.
Proof.
  exists (Error "Failed to get valid access token").
  repeat split; try (vm_compute; reflexivity); vm_compute; discriminate.
Qed.

(** ** The clarification gate and the scheduling guard *)

Section GateFacts.
Import Assistant.

Variable rt : Runtime.
Variable env : Env.

Lemma get_obj (fields : list (string * value)) (k : string) :
  get (VObj fields) k = Ok (param fields k).
Proof. unfold get, param. now destruct (assoc k fields). Qed.

Lemma param_found (fields : list (string * value)) (k : string) (v : value) :
  assoc k fields = Some v -> param fields k = v.
Proof. unfold param. now intros ->. Qed.

(** On parameters that are strings or missing, falsy is absent-or-empty. *)
Lemma falsy_is_absent_or_empty (v : value) :
  match v with VUndefined | VNull | VStr _ => True | _ => False end ->
  negb (truthy v) = spec_absent_or_empty v.
Proof.
  destruct v; cbn; try tauto. intros _. apply negb_involutive.
Qed.

(** The gate on an intent with a parameters object: some parameter the
    table requires for the action is falsy. *)
Lemma checkIfNeedsMoreInfo_falsy (fields ps : list (string * value)) :
  assoc "parameters" fields = Some (VObj ps) ->
  checkIfNeedsMoreInfo (VObj fields) = Ok (falsy_needsMoreInfo (param fields "action") ps).
Proof.
  intros Hps. apply param_found in Hps.
  unfold checkIfNeedsMoreInfo, falsy_needsMoreInfo, spec_required_parameters.
  rewrite get_obj. cbn [rbind].
  destruct (is_str (param fields "action") "schedule_event").
  { rewrite !get_obj, Hps. cbn [rbind]. rewrite !get_obj. cbn [rbind existsb].
    destruct (truthy (param ps "title")); cbn; [| reflexivity].
    now rewrite orb_false_r. }
  destruct (is_str (param fields "action") "check_availability").
  { rewrite !get_obj, Hps. cbn [rbind]. rewrite !get_obj. cbn [rbind existsb].
    now rewrite orb_false_r. }
  destruct (is_str (param fields "action") "send_email").
  { rewrite !get_obj, Hps. cbn [rbind]. rewrite !get_obj. cbn [rbind existsb].
    destruct (truthy (param ps "recipients")); cbn; [| reflexivity].
    now rewrite orb_false_r. }
  reflexivity.
Qed.

(** C5, as the code has it. For an intent with a parameters object the
    gate answers true exactly when a parameter the table requires for the
    action is falsy: missing, [null], the empty string, [0] or [false]. An
    empty list is not falsy, so it counts as present. For an action the
    table requires nothing for, the answer is false whatever the
    parameters are. Where the required parameters are strings or missing,
    this is the gate as the specification words it. *)
Theorem checkIfNeedsMoreInfo_required_table (fields ps : list (string * value)) :
  let action := param fields "action" in
  (assoc "parameters" fields = Some (VObj ps) ->
     checkIfNeedsMoreInfo (VObj fields) = Ok (falsy_needsMoreInfo action ps))
  /\ (spec_required_parameters action = [] ->
      checkIfNeedsMoreInfo (VObj fields) = Ok false)
  /\ ((forall k, In k (spec_required_parameters action) ->
         match param ps k with VUndefined | VNull | VStr _ => True | _ => False end) ->
      falsy_needsMoreInfo action ps = spec_needsMoreInfo action ps).
Proof.
  cbv zeta. split; [| split].
  - apply checkIfNeedsMoreInfo_falsy.
  - unfold checkIfNeedsMoreInfo, spec_required_parameters.
    rewrite get_obj. cbn [rbind].
    destruct (is_str (param fields "action") "schedule_event"); [discriminate |].
    destruct (is_str (param fields "action") "check_availability"); [discriminate |].
    destruct (is_str (param fields "action") "send_email"); [discriminate |].
    reflexivity.
  - intros Htyped. unfold falsy_needsMoreInfo, spec_needsMoreInfo.
    induction (spec_required_parameters (param fields "action")) as [| k ks IH];
      [reflexivity |].
    cbn [existsb]. rewrite falsy_is_absent_or_empty by (apply Htyped; now left).
    f_equal. apply IH. intros k' Hk'. apply Htyped. now right.
Qed.

(** The guard of [handleScheduleEvent]: with a falsy title or a falsy
    dateTime it returns the failure result and leaves the world, log
    included, as it was. *)
Lemma handleScheduleEvent_guard (ps : list (string * value)) (u : string) (w : world) :
  truthy (param ps "title") = false \/ truthy (param ps "dateTime") = false ->
  handleScheduleEvent rt env (VObj ps) u w
    = (Ok (failure "Missing required parameters for scheduling"), w).
Proof.
  intros Hmissing.
  unfold handleScheduleEvent, try_catch, bind, lift. rewrite !get_obj.
  replace (negb (truthy (param ps "title")) || negb (truthy (param ps "dateTime")))
    with true; [reflexivity |].
  symmetry. apply orb_true_iff.
  destruct Hmissing as [-> | ->]; auto.
Qed.

(** C6. For a schedule_event intent whose parameters lack a title or lack
    a dateTime, the gate answers that more information is needed, and
    [handleScheduleEvent] returns the failure result with the world
    unchanged: nothing is logged, so the calendar's create operation is
    not called. Dispatched through [handleIntent], the only new log entry
    is the dispatch itself. *)
Theorem schedule_event_without_title_or_dateTime
    (fields ps : list (string * value)) (u s : string) (w : world) :
  assoc "action" fields = Some (VStr "schedule_event") ->
  assoc "parameters" fields = Some (VObj ps) ->
  assoc "title" ps = None \/ assoc "dateTime" ps = None ->
  checkIfNeedsMoreInfo (VObj fields) = Ok true
  /\ handleScheduleEvent rt env (VObj ps) u w
     = (Ok (failure "Missing required parameters for scheduling"), w)
  /\ handleIntent rt env (VObj fields) u s w
     = (Ok (failure "Missing required parameters for scheduling"),
        with_log w (log w ++ [Dispatched (VObj fields) u s])).
Proof.
  intros Haction Hps Hlack.
  assert (Hfalsy : truthy (param ps "title") = false \/ truthy (param ps "dateTime") = false).
  { unfold param. destruct Hlack as [-> | ->]; auto. }
  split; [| split].
  - rewrite (checkIfNeedsMoreInfo_falsy fields ps Hps).
    rewrite (param_found _ _ _ Haction).
    unfold falsy_needsMoreInfo. cbn [spec_required_parameters is_str String.eqb existsb].
    cbn. destruct Hfalsy as [-> | ->]; cbn; [reflexivity | now rewrite orb_true_r].
  - now apply handleScheduleEvent_guard.
  - unfold handleIntent, bind at 1. unfold dispatched.
    unfold try_catch, bind, lift. rewrite !get_obj.
    rewrite (param_found _ _ _ Haction), (param_found _ _ _ Hps).
    cbn [is_str String.eqb]. cbn -[handleScheduleEvent failure].
    now rewrite handleScheduleEvent_guard.
Qed.

(** ** Failures of the classifier and of the reply *)

(** C8. [analyzeIntent] never throws. When the completion call throws,
    when the completion has no first choice to read the content from, or
    when the content is not JSON, it returns
    [{action: "none", confidence: 0, parameters: {}}]. *)
Theorem analyzeIntent_fails_soft (userInput u s : string) (w : world) :
  let run := analyzeIntent rt env userInput u s w in
  let answer := respond env (log w) (classifier_request userInput) in
  (exists i, fst run = Ok i)
  /\ (forall e, answer = Throw e -> fst run = Ok fallback_intent)
  /\ (forall response e,
        answer = Ok response -> first_content rt response = Throw e ->
        fst run = Ok fallback_intent)
  /\ (forall response content e,
        answer = Ok response -> first_content rt response = Ok content ->
        JSON_parse rt (to_string rt (or_else content (VStr fallback_text))) = Throw e ->
        fst run = Ok fallback_intent).
Proof.
  cbv zeta.
  unfold analyzeIntent, try_catch, bind, ext, lift, classifier_request.
  destruct (respond env (log w) _) as [response | e0] eqn:Hanswer.
  - destruct (first_content rt response) as [content | e1] eqn:Hcontent.
    + destruct (JSON_parse rt _) as [i | e2] eqn:Hparse; cbn.
      * split; [eauto |]. repeat split; intros; congruence.
      * split; [eauto |]. repeat split; reflexivity.
    + cbn. split; [eauto |]. repeat split; reflexivity.
  - cbn. split; [eauto |]. repeat split; reflexivity.
Qed.



End GateFacts.

(** ** Context trimming *)

Section TrimFacts.
Import Assistant.

Variable rt : Runtime.
Variable env : Env.

Lemma trim_short (ms : list Message) :
  (length ms <= 10)%nat -> trim ms = ms.
Proof.
  intros Hlen. unfold trim.
  destruct (10 <? length ms)%nat eqn:Hlt; [| reflexivity].
  apply Nat.ltb_lt in Hlt. lia.
Qed.

(** Over ten messages with the system message first: the system message,
    then the last nine of the others, in their order. *)
Lemma trim_long (sys : Message) (rest : list Message) :
  role sys = "system" ->
  (10 < length (sys :: rest))%nat ->
  trim (sys :: rest) = sys :: skipn (length rest - 9) rest.
Proof.
  intros Hsys Hlen. unfold trim.
  replace (10 <? length (sys :: rest))%nat with true
    by (symmetry; now apply Nat.ltb_lt).
  cbn [List.find]. rewrite Hsys. cbn [String.eqb Ascii.eqb Bool.eqb].
  cbn [length] in *.
  replace (S (length rest) - 9)%nat with (S (length rest - 9)) by lia.
  reflexivity.
Qed.

Lemma Forall_skipn_keep {A} (P : A -> Prop) (n : nat) (l : list A) :
  Forall P l -> Forall P (skipn n l).
Proof.
  intros H. rewrite <- (firstn_skipn n l) in H.
  now apply List.Forall_app in H.
Qed.

Lemma trim_well_formed (c : Context) :
  well_formed c -> well_formed (set_messages (trim (messages c)) c).
Proof.
  intros (sys & rest & Hms & Hsys & Hrest). unfold well_formed. cbn [messages set_messages].
  rewrite Hms.
  destruct (Nat.le_gt_cases (length (sys :: rest)) 10) as [Hle | Hgt].
  - rewrite trim_short by exact Hle. eauto.
  - rewrite trim_long by assumption.
    exists sys, (skipn (length rest - 9) rest).
    split; [reflexivity |]. split; [exact Hsys |]. now apply Forall_skipn_keep.
Qed.

Lemma push_well_formed (m : Message) (c : Context) :
  non_system m -> well_formed c -> well_formed (push m c).
Proof.
  intros Hm (sys & rest & Hms & Hsys & Hrest). unfold well_formed. cbn [messages push].
  rewrite Hms. exists sys, (rest ++ [m])%list.
  split; [reflexivity |]. split; [exact Hsys |].
  apply List.Forall_app. split; [exact Hrest | now constructor].
Qed.

Lemma initial_context_well_formed (u s : string) : well_formed (initial_context u s).
Proof. exists {| role := "system"; content := VStr systemPrompt |}, []. cbn. auto. Qed.

(** *** The invariant of the conversation store *)

Lemma preserves_ret {A} (I : world -> Prop) (a : A) : preserves I (ret a).
Proof. intros w Hw. exact Hw. Qed.

Lemma preserves_lift {A} (I : world -> Prop) (r : result A) : preserves I (lift r).
Proof. intros w Hw. exact Hw. Qed.

Lemma preserves_bind {A B} (I : world -> Prop) (m : M world A) (k : A -> M world B) :
  preserves I m -> (forall a, preserves I (k a)) -> preserves I (bind m k).
Proof.
  intros Hm Hk w Hw. unfold bind. specialize (Hm w Hw).
  destruct (m w) as [[a | e] w1]; cbn in *; [now apply Hk | exact Hm].
Qed.

Lemma preserves_try {A} (I : world -> Prop) (body : M world A) (h : exn -> M world A) :
  preserves I body -> (forall e, preserves I (h e)) -> preserves I (try_catch body h).
Proof.
  intros Hm Hh w Hw. unfold try_catch. specialize (Hm w Hw).
  destruct (body w) as [[a | e] w1]; cbn in *; [exact Hm | now apply Hh].
Qed.

Lemma preserves_ext (c : call) : preserves wf_world (ext env c).
Proof. intros w Hw. exact Hw. Qed.

Lemma preserves_getContext (u s : string) : preserves wf_world (getContext u s).
Proof.
  intros w Hw. unfold getContext.
  destruct (conversations w !! contextId u s) eqn:Hlookup; cbn; [exact Hw |].
  intros id c. cbn. rewrite lookup_insert.
  case_decide as Hid.
  - intros [= <-]. apply initial_context_well_formed.
  - apply Hw.
Qed.

Lemma preserves_deref (id : string) : preserves wf_world (deref id).
Proof.
  intros w Hw. unfold deref. now destruct (conversations w !! id).
Qed.

Lemma preserves_update (id : string) (f : Context -> Context) :
  (forall c, well_formed c -> well_formed (f c)) ->
  preserves wf_world (update id f).
Proof.
  intros Hf w Hw id' c'. cbn. rewrite lookup_alter.
  case_decide as Hid.
  - subst id'. destruct (conversations w !! id) as [c |] eqn:Hlookup; [| discriminate].
    cbn. intros [= <-]. apply Hf. now apply (Hw id).
  - apply Hw.
Qed.

Lemma analyzeIntent_preserves (input u s : string) :
  preserves wf_world (analyzeIntent rt env input u s).
Proof.
  unfold analyzeIntent.
  apply preserves_try; [| intros; apply preserves_ret].
  apply preserves_bind; [apply preserves_ext | intros].
  apply preserves_bind; [apply preserves_lift | intros].
  apply preserves_lift.
Qed.

(** Every stored context keeps its system message first and has no other
    system message, whatever the outcome of the turn. *)
Lemma generateResponse_preserves (input u s : string) (context : value) :
  preserves wf_world (generateResponse rt env input u s context).
Proof.
  unfold generateResponse, generateResponse_body.
  apply preserves_try; [| intros; apply preserves_ret].
  apply preserves_bind; [apply preserves_getContext | intros id].
  apply preserves_bind;
    [apply preserves_update; intros; apply push_well_formed; [discriminate | assumption] | intros _].
  apply preserves_bind; [apply analyzeIntent_preserves | intros i].
  apply preserves_bind; [apply preserves_deref | intros c].
  apply preserves_bind; [apply preserves_ext | intros response].
  apply preserves_bind; [apply preserves_lift | intros content].
  apply preserves_bind;
    [apply preserves_update; intros; apply push_well_formed; [discriminate | assumption] | intros _].
  apply preserves_bind; [apply preserves_update; intros; now apply trim_well_formed | intros _].
  apply preserves_bind; [apply preserves_lift | intros needs].
  apply preserves_ret.
Qed.

Lemma fresh_world_well_formed (l : list event) :
  wf_world {| conversations := ∅; log := l |}.
Proof. intros id c. cbn. now rewrite lookup_empty. Qed.

Lemma analyzeIntent_total (input u s : string) (w : world) :
  exists i w', analyzeIntent rt env input u s w = (Ok i, w')
               /\ conversations w' = conversations w.
Proof.
  unfold analyzeIntent, try_catch, bind, ext, lift, ret.
  destruct (respond env (log w) _) as [response | e0]; [| eauto].
  destruct (first_content rt response) as [content | e1]; [| eauto].
  destruct (JSON_parse rt _) as [i | e2]; eauto.
Qed.





End TrimFacts.

(** ** The refresh flag of the function-calling service *)

Section RefreshFlagFacts.
Import OpenAIService.

Variable rt : Runtime.
Variable create : Request -> result (list ResponseMessage).
Variable now : Z.



End RefreshFlagFacts.

(** ** Examples *)

Lemma parseDateTime_one_hour_default_2pm_witness :
  exists local,
    fst (Calendar.parseDateTime_dates Scenario.utc Scenario.clock0 "Tomorrow")
      = Date.UTC Scenario.utc local /\
    Date.HourFromTime local = 14 /\ Date.MinFromTime local = 0.
Proof.
  destruct (proj2 (proj2
              (parseDateTime_one_hour_default_2pm Scenario.utc Scenario.iso8601
                 Scenario.clock0 "Tomorrow")) eq_refl)
    as (local & Hstart & _ & Hhour & Hmin & _).
  exists local. auto.
Defined.

Lemma low_confidence_never_dispatches_witness :
  exists evs,
    Assistant.log
      (snd (Assistant.processTextInput Scenario.host Scenario.low_env "mail ann" "u" "s"
              Scenario.fresh))
    = (Assistant.log Scenario.fresh ++ evs)%list /\
    ~ In (Assistant.Dispatched Scenario.low_intent "u" "s") evs /\
    Forall Assistant.conversational evs.
Proof.
  destruct (low_confidence_never_dispatches Scenario.host Scenario.low_env "mail ann" "u" "s"
              Scenario.fresh) as [(evs & Hlog & Hnever & Hturn) _].
  exists evs. split; [exact Hlog |]. split.
  - apply (Hnever Scenario.low_intent "u" "s" 0.7%Q eq_refl). apply Qle_refl.
  - eapply (Hturn _ 0.7%Q).
    + vm_compute. reflexivity.
    + reflexivity.
    + apply Qle_refl.
Defined.



(** C5, refuted as stated: a send_email intent whose recipients are the
    empty list has an empty required parameter, and the gate answers that
    nothing more is needed. *)
Lemma gate_passes_empty_recipient_list :
  Assistant.spec_needsMoreInfo (VStr "send_email")
    [("recipients", VArr []); ("subject", VStr "Hello")] = true
  /\ Assistant.checkIfNeedsMoreInfo Scenario.nobody_intent = Ok false.
Proof. split; reflexivity. Qed.

Lemma checkIfNeedsMoreInfo_required_table_witness :
  Assistant.checkIfNeedsMoreInfo Scenario.untitled_intent = Ok true
  /\ Assistant.checkIfNeedsMoreInfo Assistant.fallback_intent = Ok false
  /\ Assistant.falsy_needsMoreInfo (VStr "schedule_event") [("dateTime", VStr "tomorrow")]
     = Assistant.spec_needsMoreInfo (VStr "schedule_event") [("dateTime", VStr "tomorrow")].
Proof.
  split; [| split].
  - apply (proj1 (checkIfNeedsMoreInfo_required_table
                    [("action", VStr "schedule_event"); ("confidence", VNum 0.85);
                     ("parameters", VObj [("dateTime", VStr "tomorrow")])]
                    [("dateTime", VStr "tomorrow")]) eq_refl).
  - apply (proj1 (proj2 (checkIfNeedsMoreInfo_required_table
                           [("action", VStr "none"); ("confidence", VNum 0);
                            ("parameters", VObj [])] [])) eq_refl).
  - apply (proj2 (proj2 (checkIfNeedsMoreInfo_required_table
                           [("action", VStr "schedule_event"); ("confidence", VNum 0.85);
                            ("parameters", VObj [("dateTime", VStr "tomorrow")])]
                           [("dateTime", VStr "tomorrow")]))).
    intros k [<- | [<- | []]]; exact I.
Defined.

Lemma schedule_event_without_title_or_dateTime_witness :
  Assistant.checkIfNeedsMoreInfo Scenario.untitled_intent = Ok true
  /\ Assistant.handleScheduleEvent Scenario.host Scenario.untitled_env
       (VObj [("dateTime", VStr "tomorrow")]) "u" Scenario.fresh
     = (Ok (Assistant.failure "Missing required parameters for scheduling"), Scenario.fresh)
  /\ Assistant.handleIntent Scenario.host Scenario.untitled_env Scenario.untitled_intent
       "u" "s" Scenario.fresh
     = (Ok (Assistant.failure "Missing required parameters for scheduling"),
        Assistant.with_log Scenario.fresh
          (Assistant.log Scenario.fresh
           ++ [Assistant.Dispatched Scenario.untitled_intent "u" "s"])).
Proof.
  apply (schedule_event_without_title_or_dateTime Scenario.host Scenario.untitled_env
           [("action", VStr "schedule_event"); ("confidence", VNum 0.85);
            ("parameters", VObj [("dateTime", VStr "tomorrow")])]
           [("dateTime", VStr "tomorrow")] "u" "s" Scenario.fresh eq_refl eq_refl).
  left. reflexivity.
Defined.



Lemma analyzeIntent_fails_soft_witness :
  fst (Assistant.analyzeIntent Scenario.host Scenario.classifier_down_env "mail ann" "u" "s"
         Scenario.fresh)
  = Ok Assistant.fallback_intent
  /\ fst (Assistant.analyzeIntent Scenario.host Scenario.prose_env "mail ann" "u" "s"
            Scenario.fresh)
     = Ok Assistant.fallback_intent
  /\ fst (Assistant.analyzeIntent Scenario.host
            (Scenario.answering (Ok (VObj [("choices", VArr [])])) (Throw (Error "unused")))
            "mail ann" "u" "s" Scenario.fresh)
     = Ok Assistant.fallback_intent.
Proof.
  split; [| split].
  - apply (proj1 (proj2
      (analyzeIntent_fails_soft Scenario.host Scenario.classifier_down_env "mail ann" "u" "s"
         Scenario.fresh)) (Error "connect ETIMEDOUT")).
    reflexivity.
  - apply (proj2 (proj2 (proj2
      (analyzeIntent_fails_soft Scenario.host Scenario.prose_env "mail ann" "u" "s"
         Scenario.fresh)))
      (Scenario.completion (VStr "Sure, I can help.")) (VStr "Sure, I can help.")
      (Exn "SyntaxError" "Unexpected token in JSON")).
    + reflexivity.
    + reflexivity.
    + vm_compute. reflexivity.
  - apply (proj1 (proj2 (proj2
      (analyzeIntent_fails_soft Scenario.host
         (Scenario.answering (Ok (VObj [("choices", VArr [])])) (Throw (Error "unused")))
         "mail ann" "u" "s" Scenario.fresh)))
      (VObj [("choices", VArr [])])
      (TypeError "Cannot read properties of undefined or null, reading message")).
    + reflexivity.
    + reflexivity.
Defined.



(** * Further properties *)

(** ** The conversation store *)

Section ConversationFacts.
Import Assistant Conversation.

Variable rt : Runtime.
Variable env : Env.

Lemma getContext_run (u s : string) (w : world) :
  exists c w1,
    getContext u s w = (Ok (contextId u s), w1) /\
    conversations w1 !! contextId u s = Some c /\
    log w1 = log w /\
    (conversations w !! contextId u s = Some c \/
     (conversations w !! contextId u s = None /\ c = initial_context u s)) /\
    (forall id, id <> contextId u s -> conversations w1 !! id = conversations w !! id).
Proof.
  unfold getContext.
  destruct (conversations w !! contextId u s) as [c |] eqn:Hlookup.
  - exists c, w. auto 6.
  - exists (initial_context u s). eexists. split; [reflexivity |].
    cbn. rewrite lookup_insert_eq.
    repeat split; auto.
    intros id Hid. now rewrite lookup_insert_ne.
Qed.

Lemma append_hyphen_inj (u u' r r' : string) :
  hyphen_free u = true -> hyphen_free u' = true ->
  u +:+ String "-" r = u' +:+ String "-" r' -> u = u' /\ r = r'.
Proof.
  revert u'. induction u as [| a u IH]; intros [| a' u'] Hu Hu' Heq; cbn in *.
  - injection Heq as ->. auto.
  - injection Heq as <- _. cbn in Hu'. discriminate.
  - injection Heq as -> _. cbn in Hu. discriminate.
  - injection Heq as -> Heq.
    apply andb_true_iff in Hu as [_ Hu]. apply andb_true_iff in Hu' as [_ Hu'].
    destruct (IH u' Hu Hu' Heq) as [-> ->]. auto.
Qed.

Lemma append_assoc_string (a b c : string) : (a +:+ b) +:+ c = a +:+ (b +:+ c).
Proof.
  induction a as [| x a IH]; [reflexivity |].
  change (String x ((a +:+ b) +:+ c) = String x (a +:+ (b +:+ c))). now f_equal.
Qed.

(** X1. Contexts are keyed by the user id, a hyphen and the session id.
    With hyphen-free user ids distinct (user, session) pairs have distinct
    keys; a hyphen in the user id lets two pairs share one key, and so
    one context: (u-s, t) and (u, s-t) always collide. *)
Theorem contextId_collisions (u s t : string) :
  (forall u' s',
     hyphen_free u = true -> hyphen_free u' = true ->
     contextId u s = contextId u' s' -> u = u' /\ s = s')
  /\ contextId (u +:+ "-" +:+ s) t = contextId u (s +:+ "-" +:+ t)
  /\ (forall w,
        fst (getContext (u +:+ "-" +:+ s) t w) = fst (getContext u (s +:+ "-" +:+ t) w)).
Proof.
  assert (Hsame : contextId (u +:+ "-" +:+ s) t = contextId u (s +:+ "-" +:+ t)).
  { unfold contextId. now rewrite !append_assoc_string. }
  split; [| split].
  - intros u' s' Hu Hu' Heq. unfold contextId in Heq.
    now apply append_hyphen_inj in Heq.
  - exact Hsame.
  - intros w.
    destruct (getContext_run (u +:+ "-" +:+ s) t w) as (c & w1 & -> & _).
    destruct (getContext_run u (s +:+ "-" +:+ t) w) as (c' & w1' & -> & _).
    cbn. now rewrite Hsame.
Qed.

(** X2. [getContext] creates a context holding only the system message on
    first use, returns the stored one afterwards without touching the
    store, and never changes a context under another key. *)
Theorem getContext_creates_once (u s : string) (w : world) :
  let w1 := snd (getContext u s w) in
  (conversations w !! contextId u s = None ->
     stored u s w1 = [{| role := "system"; content := VStr systemPrompt |}])
  /\ (forall c, conversations w !! contextId u s = Some c -> w1 = w)
  /\ snd (getContext u s w1) = w1
  /\ (forall id, id <> contextId u s -> conversations w1 !! id = conversations w !! id).
Proof.
  cbv zeta. unfold stored, getContext.
  destruct (conversations w !! contextId u s) as [c |] eqn:Hlookup; cbn.
  - rewrite Hlookup. cbn. repeat split; auto. discriminate.
  - rewrite lookup_insert_eq. cbn.
    repeat split; auto; try discriminate.
    intros id Hid. now rewrite lookup_insert_ne.
Qed.

(** X3. [clearContext] forgets the conversation: the key is gone, other
    keys are untouched, clearing again changes nothing, and the next
    [getConversationHistory] finds no message (it recreates the context
    with the system message only). *)
Theorem clearContext_forgets (u s : string) (w : world) :
  let w1 := snd (clearContext u s w) in
  conversations w1 !! contextId u s = None
  /\ (forall id, id <> contextId u s -> conversations w1 !! id = conversations w !! id)
  /\ snd (clearContext u s w1) = w1
  /\ fst (getConversationHistory u s w1) = Ok []
  /\ log w1 = log w.
Proof.
  cbv zeta. unfold clearContext. cbn.
  split; [apply lookup_delete_eq |].
  split; [intros id Hid; now apply lookup_delete_ne |].
  split.
  { unfold with_conversations. cbn. f_equal. apply delete_id, lookup_delete_eq. }
  split; [| reflexivity].
  unfold getConversationHistory, bind, getContext, deref. cbn.
  rewrite lookup_delete_eq. cbn. rewrite lookup_insert_eq. reflexivity.
Qed.

Lemma filter_non_system (ms : list Message) :
  Forall non_system ms ->
  List.filter (fun msg => negb (String.eqb (role msg) "system")) ms = ms.
Proof.
  induction 1 as [| m ms Hm _ IH]; [reflexivity |].
  cbn. unfold non_system in Hm. apply String.eqb_neq in Hm. rewrite Hm. cbn.
  now rewrite IH.
Qed.

(** X4. For a stored context in the shape the service keeps (the system
    message first, no other system message) [getConversationHistory]
    returns every message but the first, in order, and changes nothing. *)
Theorem getConversationHistory_is_tail (u s : string) (w : world) (c : Context)
    (sys : Message) (rest : list Message) :
  conversations w !! contextId u s = Some c ->
  messages c = sys :: rest ->
  role sys = "system" -> Forall non_system rest ->
  getConversationHistory u s w = (Ok rest, w).
Proof.
  intros Hc Hms Hsys Hrest.
  unfold getConversationHistory, bind, getContext, deref. rewrite Hc. cbn. rewrite Hc.
  cbn. rewrite Hms. cbn. rewrite Hsys. cbn. now rewrite filter_non_system.
Qed.

End ConversationFacts.

Lemma contextId_collisions_witness :
  ("ann" = "ann" /\ "home" = "home")
  /\ Assistant.contextId "ann-work" "x" = Assistant.contextId "ann" "work-x".
Proof.
  split.
  - apply (proj1 (contextId_collisions "ann" "home" "") "ann" "home" eq_refl eq_refl eq_refl).
  - apply (proj1 (proj2 (contextId_collisions "ann" "work" "x"))).
Defined.

Lemma getContext_creates_once_witness :
  Conversation.stored "u" "s" (snd (Assistant.getContext "u" "s" Scenario.fresh))
  = [{| Assistant.role := "system"; Assistant.content := VStr Assistant.systemPrompt |}]
  /\ snd (Assistant.getContext "u" "s" Scenario.full_world) = Scenario.full_world.
Proof.
  split.
  - apply (proj1 (getContext_creates_once "u" "s" Scenario.fresh)). reflexivity.
  - apply (proj1 (proj2 (getContext_creates_once "u" "s" Scenario.full_world))
             Scenario.full_context).
    reflexivity.
Defined.

Lemma getConversationHistory_is_tail_witness :
  Conversation.getConversationHistory "u" "s" Scenario.full_world
  = (Ok (map Scenario.user_msg [1; 2; 3; 4; 5; 6; 7; 8; 9]), Scenario.full_world).
Proof.
  apply (getConversationHistory_is_tail "u" "s" Scenario.full_world Scenario.full_context
           Scenario.sys0 (map Scenario.user_msg [1; 2; 3; 4; 5; 6; 7; 8; 9])
           eq_refl eq_refl eq_refl).
  cbn [map]. repeat constructor; discriminate.
Defined.

(** ** Whole turns *)

Section TurnFacts.
Import Assistant Conversation.

Variable rt : Runtime.
Variable env : Env.

(** *** Invariants of the stored contexts *)

Lemma each_ext (P : Context -> Prop) (c : call) : preserves (each_context P) (ext env c).
Proof. intros w Hw. exact Hw. Qed.

Lemma each_throw {A} (I : world -> Prop) (e : exn) : preserves I (@throw world A e).
Proof. intros w Hw. exact Hw. Qed.

Lemma each_dispatched (P : Context -> Prop) (i : value) (u s : string) :
  preserves (each_context P) (dispatched i u s).
Proof. intros w Hw. exact Hw. Qed.

Lemma each_parseDateTime (P : Context -> Prop) (v : value) :
  preserves (each_context P) (parseDateTime rt env v).
Proof. intros w Hw. unfold parseDateTime. now destruct v. Qed.

Lemma each_getContext (P : Context -> Prop) (u s : string) :
  P (initial_context u s) -> preserves (each_context P) (getContext u s).
Proof.
  intros Hinit w Hw. unfold getContext.
  destruct (conversations w !! contextId u s) eqn:Hlookup; cbn; [exact Hw |].
  intros id c. cbn. rewrite lookup_insert.
  case_decide as Hid; [intros [= <-]; exact Hinit | apply Hw].
Qed.

Lemma each_deref (P : Context -> Prop) (id : string) : preserves (each_context P) (deref id).
Proof. intros w Hw. unfold deref. now destruct (conversations w !! id). Qed.

Lemma each_update (P : Context -> Prop) (id : string) (f : Context -> Context) :
  (forall c, P c -> P (f c)) -> preserves (each_context P) (update id f).
Proof.
  intros Hf w Hw id' c'. cbn. rewrite lookup_alter.
  case_decide as Hid; [| apply Hw].
  subst id'. destruct (conversations w !! id) as [c |] eqn:Hlookup; [| discriminate].
  cbn. intros [= <-]. apply Hf. now apply (Hw id).
Qed.

Ltac each_step :=
  first
    [ apply preserves_ret | apply each_throw | apply preserves_lift
    | apply each_ext | apply each_dispatched | apply each_parseDateTime
    | apply each_deref
    | apply preserves_bind; [| intros]
    | apply preserves_try; [| intros]
    | match goal with
      | |- preserves _ (if ?c then _ else _) => destruct c
      end ].

Lemma each_analyzeIntent (P : Context -> Prop) (input u s : string) :
  preserves (each_context P) (analyzeIntent rt env input u s).
Proof. unfold analyzeIntent. repeat each_step. Qed.

Lemma each_generateResponse (P : Context -> Prop) (input u s : string) (context : value) :
  (forall u s, P (initial_context u s)) ->
  (forall m c, non_system m -> P c -> P (push m c)) ->
  (forall c, P c -> P (set_messages (trim (messages c)) c)) ->
  preserves (each_context P) (generateResponse rt env input u s context).
Proof.
  intros Hinit Hpush Htrim.
  unfold generateResponse, generateResponse_body.
  apply preserves_try; [| intros; apply preserves_ret].
  apply preserves_bind; [now apply each_getContext | intros id].
  apply preserves_bind;
    [apply each_update; intros; apply Hpush; [discriminate | assumption] | intros _].
  apply preserves_bind; [apply each_analyzeIntent | intros i].
  apply preserves_bind; [apply each_deref | intros c].
  apply preserves_bind; [apply each_ext | intros response].
  apply preserves_bind; [apply preserves_lift | intros content].
  apply preserves_bind;
    [apply each_update; intros; apply Hpush; [discriminate | assumption] | intros _].
  apply preserves_bind; [now apply each_update | intros _].
  repeat each_step.
Qed.

Lemma each_handleIntent (P : Context -> Prop) (i : value) (u s : string) :
  preserves (each_context P) (handleIntent rt env i u s).
Proof.
  unfold handleIntent, handleScheduleEvent, handleCheckAvailability, handleGetEvents,
    handleSendEmail, handleCancelEvent, handleUpdateEvent.
  repeat each_step.
Qed.

Lemma each_processTextInput (P : Context -> Prop) (text u s : string) :
  (forall u s, P (initial_context u s)) ->
  (forall m c, non_system m -> P c -> P (push m c)) ->
  (forall c, P c -> P (set_messages (trim (messages c)) c)) ->
  preserves (each_context P) (processTextInput rt env text u s).
Proof.
  intros Hinit Hpush Htrim.
  unfold processTextInput, processTextInput_body.
  apply preserves_try; [| intros; apply each_throw].
  apply preserves_bind; [apply each_ext | intros conversation].
  apply preserves_bind; [apply preserves_lift | intros id].
  apply preserves_bind; [apply each_ext | intros _].
  apply preserves_bind; [now apply each_generateResponse | intros aiResponse].
  apply preserves_bind; [apply preserves_lift | intros id'].
  apply preserves_bind; [apply each_ext | intros _].
  apply preserves_bind; [apply preserves_lift | intros confidence].
  apply preserves_bind; [| intros; apply preserves_ret].
  destruct (gt_num (ToNumber_other rt) confidence 0.7); [| apply preserves_ret].
  apply preserves_bind; [apply each_handleIntent | intros; apply preserves_ret].
Qed.

Lemma no_task_initial (u s : string) : no_task (initial_context u s).
Proof. split; reflexivity. Qed.

Lemma no_task_push (m : Message) (c : Context) : no_task c -> no_task (push m c).
Proof. intros H. exact H. Qed.

Lemma no_task_trim (c : Context) : no_task c -> no_task (set_messages (trim (messages c)) c).
Proof. intros H. exact H. Qed.

Lemma each_handleFollowUp (P : Context -> Prop) (text u s : string) :
  (forall u s, P (initial_context u s)) ->
  (forall m c, non_system m -> P c -> P (push m c)) ->
  (forall c, P c -> P (set_messages (trim (messages c)) c)) ->
  (forall c, P c -> P (clear_task c)) ->
  preserves (each_context P) (handleFollowUp rt env text u s).
Proof.
  intros Hinit Hpush Htrim Hclear.
  unfold handleFollowUp.
  apply preserves_bind; [now apply each_getContext | intros context].
  apply preserves_bind; [apply each_deref | intros c].
  destruct (truthy (currentTask c)).
  - apply preserves_bind; [now apply each_generateResponse | intros reply].
    apply preserves_bind; [apply preserves_lift | intros confidence].
    destruct (gt_num (ToNumber_other rt) confidence 0.7 && negb (truthy (needsMoreInfo reply))).
    + apply preserves_bind; [now apply each_update | intros _].
      repeat each_step.
    + apply preserves_ret.
  - apply preserves_bind; [now apply each_generateResponse | intros reply].
    repeat each_step.
Qed.

(** X5. Whatever the outcome of a turn (reply, apology or exception),
    [processTextInput] and [handleFollowUp] leave every stored context
    with its system message first and no other system message. *)
Theorem turns_keep_contexts_well_formed (text u s : string) (w : world) :
  wf_world w ->
  wf_world (snd (processTextInput rt env text u s w))
  /\ wf_world (snd (handleFollowUp rt env text u s w)).
Proof.
  intros Hw. split.
  - apply (each_processTextInput well_formed);
      [ intros; apply initial_context_well_formed
      | intros; now apply push_well_formed
      | intros; now apply trim_well_formed
      | exact Hw ].
  - apply (each_handleFollowUp well_formed);
      [ intros; apply initial_context_well_formed
      | intros; now apply push_well_formed
      | intros; now apply trim_well_formed
      | intros c (sys & rest & H); exists sys, rest; exact H
      | exact Hw ].
Qed.

(** X6. No method sets a pending task: if no stored context has a
    [currentTask] or [pendingData], none has after [processTextInput] or
    [handleFollowUp] either, so the unfinished-task branch of
    [handleFollowUp] is never taken and it returns the intent's action and
    parameters whatever the confidence. *)
Theorem pending_task_is_never_set (text u s : string) (w : world) :
  each_context no_task w ->
  each_context no_task (snd (processTextInput rt env text u s w))
  /\ each_context no_task (snd (handleFollowUp rt env text u s w))
  /\ handleFollowUp rt env text u s w
     = bind (generateResponse rt env text u s VUndefined)
         (fun reply =>
            bind (lift (get (intent reply) "action")) (fun action =>
            bind (lift (get (intent reply) "parameters")) (fun parameters =>
            ret {| fu_response := response reply;
                   fu_action := Some action;
                   fu_parameters := Some parameters |})))
         (snd (getContext u s w)).
Proof.
  intros Hw. split; [| split].
  - apply (each_processTextInput no_task);
      [ exact no_task_initial | intros; now apply no_task_push
      | intros; now apply no_task_trim | exact Hw ].
  - apply (each_handleFollowUp no_task);
      [ exact no_task_initial | intros; now apply no_task_push
      | intros; now apply no_task_trim | intros c _; split; reflexivity | exact Hw ].
  - unfold handleFollowUp. unfold bind at 1.
    destruct (getContext_run u s w) as (c & w1 & Hrun & Hc & _ & Horigin & _).
    rewrite Hrun. cbn [snd]. unfold bind at 1. unfold deref. rewrite Hc.
    assert (Htask : currentTask c = VUndefined).
    { destruct Horigin as [Hold | [_ ->]]; [apply (Hw _ _ Hold) | reflexivity]. }
    rewrite Htask. reflexivity.
Qed.

End TurnFacts.

Lemma turns_keep_contexts_well_formed_witness :
  Assistant.wf_world
    (snd (Assistant.processTextInput Scenario.host Scenario.calendar_down_env
            "Schedule the budget review tomorrow at 3pm" "u" "s" Scenario.fresh)).
Proof.
  apply (turns_keep_contexts_well_formed Scenario.host Scenario.calendar_down_env).
  apply fresh_world_well_formed.
Defined.

Lemma pending_task_is_never_set_witness :
  Conversation.each_context Conversation.no_task
    (snd (Assistant.handleFollowUp Scenario.host Scenario.low_env "mail ann" "u" "s"
            Scenario.fresh)).
Proof.
  apply (pending_task_is_never_set Scenario.host Scenario.low_env "mail ann" "u" "s"
           Scenario.fresh).
  intros id c. cbn. rewrite lookup_empty. discriminate.
Defined.

(** ** Replies, dispatch and the growth of the history *)

Section ReplyFacts.
Import Assistant Conversation.

Variable rt : Runtime.
Variable env : Env.

Lemma checkIfNeedsMoreInfo_readable (i : value) (b : bool) :
  checkIfNeedsMoreInfo i = Ok b -> forall k, exists v, get i k = Ok v.
Proof.
  intros Hgate k. destruct i; try (cbn in Hgate; discriminate); try (cbn; eauto; fail).
  rewrite get_obj. eauto.
Qed.

(** What the [try] block of [generateResponse] returns has passed the
    gate. *)
Lemma generateResponse_body_gate
    (text u s : string) (context : value) (w w' : world) (reply : Reply) :
  generateResponse_body rt env text u s context w = (Ok reply, w') ->
  exists b, checkIfNeedsMoreInfo (intent reply) = Ok b /\ needsMoreInfo reply = VBool b.
Proof.
  intros Hbody. unfold generateResponse_body in Hbody.
  apply bind_Ok_inv in Hbody as (id & w1 & H1 & Hbody).
  apply bind_Ok_inv in Hbody as (x2 & w2 & H2 & Hbody).
  apply bind_Ok_inv in Hbody as (i & w3 & H3 & Hbody).
  apply bind_Ok_inv in Hbody as (c3 & w4 & H4 & Hbody).
  apply bind_Ok_inv in Hbody as (resp & w5 & H5 & Hbody).
  apply bind_Ok_inv in Hbody as (content & w6 & H6 & Hbody).
  apply bind_Ok_inv in Hbody as (x7 & w7 & H7 & Hbody).
  apply bind_Ok_inv in Hbody as (x8 & w8 & H8 & Hbody).
  apply bind_Ok_inv in Hbody as (needs & w9 & H9 & Hbody).
  injection Hbody as <- _. injection H9 as H9 _. cbn. eauto.
Qed.

(** [generateResponse] always returns, and every property of the intent it
    returns can be read. *)
Lemma generateResponse_ok (text u s : string) (context : value) (w : world) :
  exists reply w',
    generateResponse rt env text u s context w = (Ok reply, w') /\
    forall k, exists v, get (intent reply) k = Ok v.
Proof.
  unfold generateResponse, try_catch.
  destruct (generateResponse_body rt env text u s context w) as [[reply | e] w'] eqn:Hbody.
  - exists reply, w'. split; [reflexivity |].
    destruct (generateResponse_body_gate _ _ _ _ _ _ _ Hbody) as (b & Hgate & _).
    now apply (checkIfNeedsMoreInfo_readable _ b).
  - exists apology_reply, w'. split; [reflexivity |].
    intros k. unfold apology_reply, fallback_intent. cbn [intent].
    rewrite get_obj. eauto.
Qed.

(** X7. [handleFollowUp] never throws: whatever the completion endpoint
    does, it returns a response. *)
Theorem handleFollowUp_never_throws (text u s : string) (w : world) :
  exists r, fst (handleFollowUp rt env text u s w) = Ok r.
Proof.
  unfold handleFollowUp. unfold bind at 1.
  destruct (getContext_run u s w) as (c & w1 & Hrun & Hc & _).
  rewrite Hrun. unfold bind at 1. unfold deref. rewrite Hc.
  destruct (truthy (currentTask c)).
  - unfold bind at 1.
    destruct (generateResponse_ok text u s
                (VObj [("currentTask", currentTask c); ("pendingData", pendingData c)]) w1)
      as (reply & w2 & -> & Hread).
    destruct (Hread "confidence") as [confidence Hconfidence].
    destruct (Hread "action") as [action Haction].
    destruct (Hread "parameters") as [parameters Hparameters].
    unfold bind, lift, update, ret. rewrite Hconfidence.
    destruct (gt_num (ToNumber_other rt) confidence 0.7 && negb (truthy (needsMoreInfo reply))).
    + rewrite Haction, Hparameters. cbn. eauto.
    + cbn. eauto.
  - unfold bind at 1.
    destruct (generateResponse_ok text u s VUndefined w1) as (reply & w2 & -> & Hread).
    destruct (Hread "action") as [action Haction].
    destruct (Hread "parameters") as [parameters Hparameters].
    unfold bind, lift, ret. rewrite Haction, Hparameters. cbn. eauto.
Qed.

Lemma handleIntent_logs_dispatch (i : value) (u s : string) (w : world) :
  exists evs,
    log (snd (handleIntent rt env i u s w)) = (log w ++ Dispatched i u s :: evs)%list.
Proof.
  destruct (handleIntent_emits rt env i u s w) as [evs [Hlog _]].
  unfold handleIntent in *. unfold bind at 1 in Hlog. unfold bind at 1.
  unfold dispatched in *.
  set (w1 := with_log w (log w ++ [Dispatched i u s])) in *.
  set (rest := try_catch _ _) in *.
  assert (Hrest : exists evs', log (snd (rest w1)) = (log w1 ++ evs')%list).
  { assert (Hemits : emits (fun _ => True) rest).
    { subst rest.
      unfold handleScheduleEvent, handleCheckAvailability, handleGetEvents,
        handleSendEmail, handleCancelEvent, handleUpdateEvent.
      repeat first
        [ apply emits_ret | apply emits_throw | apply emits_lift
        | apply emits_parseDateTime
        | apply emits_ext; intros; exact I
        | apply emits_bind_lift; intros
        | apply emits_bind; [| intros]
        | apply emits_try; [| intros]
        | match goal with
          | |- emits _ (if ?c then _ else _) => destruct c
          end ]. }
    destruct (Hemits w1) as [evs' [Hlog' _]]. eauto. }
  destruct Hrest as [evs' Hlog'].
  exists evs'. rewrite Hlog'. subst w1. cbn. now rewrite <- List.app_assoc.
Qed.

(** X8. The gate does not hold a dispatch back: when [processTextInput]
    returns, an intent whose confidence compares greater than 0.7 has been
    handed to [handleIntent], whether or not [needsMoreInfo] is true, and
    the reply returned is the one [generateResponse] produced; the
    handler's result is not part of it. *)
Theorem confident_intent_is_dispatched_unconditionally
    (text u s : string) (w w' : world) (reply : Reply) (c : value) :
  processTextInput rt env text u s w = (Ok reply, w') ->
  get (intent reply) "confidence" = Ok c ->
  gt_num (ToNumber_other rt) c 0.7 = true ->
  In (Dispatched (intent reply) u s) (log w')
  /\ exists w1 w2, generateResponse rt env text u s VUndefined w1 = (Ok reply, w2).
Proof.
  intros Hrun Hc Hgt.
  unfold processTextInput, try_catch in Hrun.
  destruct (processTextInput_body rt env text u s w) as [[reply0 | e] w0] eqn:Hbody;
    [| discriminate].
  injection Hrun as -> ->.
  unfold processTextInput_body in Hbody.
  apply bind_Ok_inv in Hbody as (conversation & w1 & H1 & Hbody).
  apply bind_Ok_inv in Hbody as (id & w2 & H2 & Hbody).
  apply bind_Ok_inv in Hbody as (x3 & w3 & H3 & Hbody).
  apply bind_Ok_inv in Hbody as (aiResponse & w4 & H4 & Hbody).
  apply bind_Ok_inv in Hbody as (id' & w5 & H5 & Hbody).
  apply bind_Ok_inv in Hbody as (x6 & w6 & H6 & Hbody).
  apply bind_Ok_inv in Hbody as (confidence & w7 & H7 & Hbody).
  apply bind_Ok_inv in Hbody as (x8 & w8 & H8 & Hbody).
  injection Hbody as <- <-.
  split; [| eauto].
  injection H7 as H7 _. rewrite Hc in H7. injection H7 as <-.
  rewrite Hgt in H8.
  apply bind_Ok_inv in H8 as (v & w9 & H9 & Hret).
  injection Hret as _ <-.
  destruct (handleIntent_logs_dispatch (intent aiResponse) u s w7) as [evs Hlog].
  rewrite H9 in Hlog. cbn in Hlog. rewrite Hlog.
  apply in_or_app. right. now left.
Qed.



(** A turn whose reply completion throws. *)
Lemma failed_turn (text u s : string) (context : value) (w : world) (c : Context) :
  (forall l ms, exists e, respond env l (ChatCompletion "gpt-4" ms 0.7 300) = Throw e) ->
  conversations w !! contextId u s = Some c ->
  exists w' c',
    generateResponse rt env text u s context w = (Ok apology_reply, w') /\
    conversations w' !! contextId u s = Some c' /\
    messages c' = (messages c ++ [user_message text])%list.
Proof.
  intros Hfail Hc.
  unfold generateResponse, try_catch, generateResponse_body.
  unfold bind at 1. unfold getContext. rewrite Hc.
  unfold bind at 1. unfold update at 1.
  unfold bind at 1.
  destruct (analyzeIntent_total rt env text u s
              (with_conversations w
                 (alter (push {| role := "user"; content := VStr text |})
                    (contextId u s) (conversations w))))
    as (i & w3 & -> & Hkeep).
  unfold bind at 1. unfold deref. rewrite Hkeep. cbn [conversations with_conversations].
  rewrite lookup_alter_eq, Hc. cbn [fmap option_fmap option_map].
  unfold bind at 1. unfold ext.
  match goal with
  | |- context [respond env ?l (ChatCompletion "gpt-4" ?ms 0.7 300)] =>
      destruct (Hfail l ms) as [e ->]
  end.
  cbn. eexists _, _. split; [reflexivity |]. cbn.
  rewrite Hkeep. cbn. rewrite lookup_alter_eq, Hc. cbn. split; reflexivity.
Qed.

(** X10. While the reply completion fails, nothing trims: each turn
    answers with the apology and leaves its user message in the stored
    context, so after [n] such turns the context has grown by [n]
    messages. *)
Theorem failed_turns_accumulate (texts : list string) (u s : string) (w : world) (c : Context) :
  (forall l ms, exists e, respond env l (ChatCompletion "gpt-4" ms 0.7 300) = Throw e) ->
  conversations w !! contextId u s = Some c ->
  stored u s (snd (turns rt env texts u s w))
  = (messages c ++ map user_message texts)%list.
Proof.
  intros Hfail. revert w c.
  induction texts as [| text texts IH]; intros w c Hc.
  - cbn. unfold stored. rewrite Hc. now rewrite List.app_nil_r.
  - cbn [turns map]. unfold bind.
    destruct (failed_turn text u s VUndefined w c Hfail Hc) as (w' & c' & -> & Hc' & Hms).
    rewrite (IH w' c' Hc'), Hms, <- List.app_assoc. reflexivity.
Qed.

End ReplyFacts.

Lemma confident_intent_is_dispatched_unconditionally_witness :
  Assistant.checkIfNeedsMoreInfo Scenario.untitled_intent = Ok true
  /\ In (Assistant.Dispatched Scenario.untitled_intent "u" "s")
       (Assistant.log
          (snd (Assistant.processTextInput Scenario.host Scenario.untitled_env
                  "Schedule a meeting tomorrow" "u" "s" Scenario.fresh))).
Proof.
  split; [reflexivity |].
  eapply (proj1 (confident_intent_is_dispatched_unconditionally Scenario.host
                   Scenario.untitled_env "Schedule a meeting tomorrow" "u" "s" Scenario.fresh
                   _ {| Assistant.response := VStr "What is the title?";
                        Assistant.intent := Scenario.untitled_intent;
                        Assistant.needsMoreInfo := VBool true |} (VNum 0.85) _ _ _)).
  Unshelve.
  - vm_compute. reflexivity.
  - reflexivity.
  - reflexivity.
Defined.


Lemma failed_turns_accumulate_witness :
  Conversation.stored "u" "s"
    (snd (Conversation.turns Scenario.host Scenario.reply_down_env ["one"; "two"; "three"]
            "u" "s" Scenario.full_world))
  = (Assistant.messages Scenario.full_context
     ++ map Conversation.user_message ["one"; "two"; "three"])%list.
Proof.
  apply (failed_turns_accumulate Scenario.host Scenario.reply_down_env
           ["one"; "two"; "three"] "u" "s" Scenario.full_world Scenario.full_context).
  - intros l ms. exists (Error "429 rate limit"). reflexivity.
  - reflexivity.
Defined.

(** ** The guards of the handlers *)

Section HandlerFacts.
Import Assistant.

Variable rt : Runtime.
Variable env : Env.

Lemma gt_num_length (items : list value) :
  items <> [] ->
  gt_num (ToNumber_other rt) (VNum (inject_Z (Z.of_nat (length items)))) 0 = true.
Proof.
  intros Hne. destruct items as [| x xs]; [contradiction |].
  unfold gt_num, to_number, Qcompare. cbn [length inject_Z Qnum Qden].
  rewrite Z.mul_1_r. cbn. reflexivity.
Qed.

(** X11. [handleSendEmail] sends nothing it should not: without
    recipients or without a subject it returns the failure result and
    makes no call at all; when the address validation reports at least one
    invalid address it returns a failure naming them, having made the
    validation call only, so no email goes to the valid ones either. *)
Theorem handleSendEmail_refuses (ps : list (string * value)) (u : string) (w : world) :
  let recipients := param ps "recipients" in
  let subject := param ps "subject" in
  (truthy recipients = false \/ truthy subject = false ->
     handleSendEmail rt env (VObj ps) u w
     = (Ok (failure "Recipients and subject are required"), w))
  /\ (forall checked valid invalid,
        truthy recipients = true -> truthy subject = true ->
        respond env (log w) (MailValidateEmailAddresses recipients) = Ok checked ->
        get checked "valid" = Ok valid ->
        get checked "invalid" = Ok (VArr invalid) ->
        invalid <> [] ->
        handleSendEmail rt env (VObj ps) u w
        = (Ok (failure ("Invalid email addresses: " +:+ join_items rt invalid ", ")),
           with_log w (log w ++ [Called (MailValidateEmailAddresses recipients)
                                   (Ok checked)]))).
Proof.
  cbv zeta. split.
  - intros Hmissing.
    unfold handleSendEmail, try_catch, bind, lift. rewrite !get_obj.
    replace (negb (truthy (param ps "recipients")) || negb (truthy (param ps "subject")))
      with true; [reflexivity |].
    symmetry. apply orb_true_iff. destruct Hmissing as [-> | ->]; auto.
  - intros checked valid invalid Hr Hs Hcheck Hvalid Hinvalid Hne.
    unfold handleSendEmail, try_catch, bind, lift, ext. rewrite !get_obj.
    rewrite Hr, Hs. cbn [negb orb]. rewrite Hcheck, Hvalid, Hinvalid.
    cbn [length_of join]. rewrite (gt_num_length invalid Hne). reflexivity.
Qed.

(** X12. The handlers that change an existing event call the calendar
    only with what they need: [handleCancelEvent] without an event
    identifier, and [handleUpdateEvent] without an identifier or without
    updates, return their failure result and make no call. *)
Theorem cancel_and_update_need_an_identifier
    (ps : list (string * value)) (u : string) (w : world) :
  (truthy (param ps "eventIdentifier") = false ->
     handleCancelEvent env (VObj ps) u w
     = (Ok (failure "Event identifier is required"), w))
  /\ (truthy (param ps "eventIdentifier") = false \/ truthy (param ps "updates") = false ->
      handleUpdateEvent env (VObj ps) u w
      = (Ok (failure "Event identifier and updates are required"), w)).
Proof.
  split.
  - intros Hid. unfold handleCancelEvent, try_catch, bind, lift. rewrite !get_obj.
    now rewrite Hid.
  - intros Hmissing. unfold handleUpdateEvent, try_catch, bind, lift. rewrite !get_obj.
    replace (negb (truthy (param ps "eventIdentifier")) || negb (truthy (param ps "updates")))
      with true; [reflexivity |].
    symmetry. apply orb_true_iff. destruct Hmissing as [-> | ->]; auto.
Qed.

(** X13. [handleCheckAvailability] without a date returns its failure
    result and makes no call; with a date that the runtime cannot read as
    one, printing the start of the range throws a RangeError, which the
    handler rethrows before any calendar call. *)
Theorem handleCheckAvailability_needs_a_date
    (ps : list (string * value)) (u : string) (w : world) :
  let date := param ps "date" in
  let startTime := param ps "startTime" in
  (truthy date = false ->
     handleCheckAvailability rt env (VObj ps) u w
     = (Ok (failure "Date is required to check availability"), w))
  /\ (truthy date = true ->
      (if truthy startTime
       then Date_of rt (VStr (to_string rt date +:+ "T" +:+ to_string rt startTime))
       else Date_of rt date) = None ->
      handleCheckAvailability rt env (VObj ps) u w
      = (Throw (Exn "RangeError" "Invalid time value"), w)).
Proof.
  cbv zeta. split.
  - intros Hdate. unfold handleCheckAvailability, try_catch, bind, lift. rewrite !get_obj.
    now rewrite Hdate.
  - intros Hdate Hstart.
    unfold handleCheckAvailability, try_catch, bind, lift. rewrite !get_obj.
    rewrite Hdate. cbn [negb]. rewrite Hstart. reflexivity.
Qed.

(** X14. [handleGetEvents] knows two time frames: for "this week" it asks
    the calendar for the week's events, and for every other value
    (tomorrow, a missing time frame, anything else) it asks for today's
    events, as it does for "today". *)
Theorem handleGetEvents_defaults_to_today (ps : list (string * value)) (u : string) (w : world) :
  exists evs,
    log (snd (handleGetEvents env (VObj ps) u w))
    = (log w ++
       Called (if is_str (param ps "timeframe") "this week"
               then CalGetThisWeeksEvents else CalGetTodaysEvents)
         (respond env (log w)
            (if is_str (param ps "timeframe") "this week"
             then CalGetThisWeeksEvents else CalGetTodaysEvents))
       :: evs)%list.
Proof.
  unfold handleGetEvents, try_catch. unfold bind at 1. unfold lift. rewrite get_obj.
  set (timeframe := param ps "timeframe").
  assert (Htail : forall (events : value) (w1 : world),
            exists evs,
              log (snd (bind (ext env (AiGenerateCalendarSummary events))
                          (fun summary =>
                             bind (lift (length_of events)) (fun count =>
                             ret (VObj [("success", VBool true); ("message", summary);
                                        ("events", events); ("count", count)]))) w1))
              = (log w1 ++ evs)%list).
  { intros events w1.
    assert (Hemits : emits (fun _ => True)
              (bind (ext env (AiGenerateCalendarSummary events))
                 (fun summary =>
                    bind (lift (length_of events)) (fun count =>
                    ret (VObj [("success", VBool true); ("message", summary);
                               ("events", events); ("count", count)]))))).
    { apply emits_bind; [apply emits_ext; intros; exact I | intros].
      apply emits_bind_lift. intros. apply emits_ret. }
    destruct (Hemits w1) as [evs [Hlog _]]. eauto. }
  assert (Hcall : forall c : call,
            exists evs,
              log (snd (match
                          bind (ext env c)
                            (fun events =>
                               bind (ext env (AiGenerateCalendarSummary events))
                                 (fun summary =>
                                    bind (lift (length_of events)) (fun count =>
                                    ret (VObj [("success", VBool true); ("message", summary);
                                               ("events", events); ("count", count)])))) w
                        with
                        | (Ok a, w') => (Ok a, w')
                        | (Throw e, w') => throw e w'
                        end))
              = (log w ++ Called c (respond env (log w) c) :: evs)%list).
  { intros c. unfold bind at 1. unfold ext at 1.
    destruct (respond env (log w) c) as [events | e]; cbn [snd fst].
    - destruct (Htail events (with_log w (log w ++ [Called c (Ok events)])))
        as [evs Hlog].
      exists evs.
      match goal with
      | |- log (snd (match ?m with _ => _ end)) = _ =>
          replace (log (snd (match m with
                             | (Ok a, w') => (Ok a, w')
                             | (Throw e, w') => throw e w'
                             end))) with (log (snd m))
            by (destruct m as [[? | ?] ?]; reflexivity)
      end.
      rewrite Hlog. cbn. now rewrite <- List.app_assoc.
    - exists []. reflexivity. }
  destruct (is_str timeframe "today") eqn:Htoday;
    destruct (is_str timeframe "this week") eqn:Hweek;
    try apply Hcall.
  exfalso. clearbody timeframe. destruct timeframe; try discriminate.
  cbn in Htoday, Hweek. apply String.eqb_eq in Htoday, Hweek. congruence.
Qed.

End HandlerFacts.

Lemma handleSendEmail_refuses_witness :
  Assistant.handleSendEmail Scenario.host Scenario.low_env
    (VObj [("recipients", VArr [VStr "ann@example.com"])]) "u" Scenario.fresh
  = (Ok (Assistant.failure "Recipients and subject are required"), Scenario.fresh)
  /\ fst (Assistant.handleSendEmail Scenario.host
            {| Assistant.respond := fun _ _ =>
                 Ok (VObj [("valid", VArr []); ("invalid", VArr [VStr "ann at example"])]);
               Assistant.clock := fun _ => Scenario.clock0 |}
            (VObj [("recipients", VArr [VStr "ann at example"]); ("subject", VStr "Hello")])
            "u" Scenario.fresh)
     = Ok (Assistant.failure "Invalid email addresses: ann at example").
Proof.
  split.
  - apply (proj1 (handleSendEmail_refuses Scenario.host Scenario.low_env
                    [("recipients", VArr [VStr "ann@example.com"])] "u" Scenario.fresh)).
    right. reflexivity.
  - rewrite (proj2 (handleSendEmail_refuses Scenario.host
                      {| Assistant.respond := fun _ _ =>
                           Ok (VObj [("valid", VArr []);
                                     ("invalid", VArr [VStr "ann at example"])]);
                         Assistant.clock := fun _ => Scenario.clock0 |}
                      [("recipients", VArr [VStr "ann at example"]); ("subject", VStr "Hello")]
                      "u" Scenario.fresh)
               (VObj [("valid", VArr []); ("invalid", VArr [VStr "ann at example"])])
               (VArr []) [VStr "ann at example"]
               eq_refl eq_refl eq_refl eq_refl eq_refl ltac:(discriminate)).
    reflexivity.
Defined.

Lemma cancel_and_update_need_an_identifier_witness :
  Assistant.handleCancelEvent Scenario.low_env (VObj []) "u" Scenario.fresh
  = (Ok (Assistant.failure "Event identifier is required"), Scenario.fresh)
  /\ Assistant.handleUpdateEvent Scenario.low_env (VObj [("eventIdentifier", VStr "e1")])
       "u" Scenario.fresh
     = (Ok (Assistant.failure "Event identifier and updates are required"), Scenario.fresh).
Proof.
  split.
  - apply (proj1 (cancel_and_update_need_an_identifier Scenario.low_env [] "u"
                    Scenario.fresh)).
    reflexivity.
  - apply (proj2 (cancel_and_update_need_an_identifier Scenario.low_env
                    [("eventIdentifier", VStr "e1")] "u" Scenario.fresh)).
    right. reflexivity.
Defined.

Lemma handleCheckAvailability_needs_a_date_witness :
  Assistant.handleCheckAvailability Scenario.host Scenario.low_env (VObj []) "u" Scenario.fresh
  = (Ok (Assistant.failure "Date is required to check availability"), Scenario.fresh)
  /\ Assistant.handleCheckAvailability Scenario.host Scenario.low_env
       (VObj [("date", VStr "someday")]) "u" Scenario.fresh
     = (Throw (Exn "RangeError" "Invalid time value"), Scenario.fresh).
Proof.
  split.
  - apply (proj1 (handleCheckAvailability_needs_a_date Scenario.host Scenario.low_env []
                    "u" Scenario.fresh)).
    reflexivity.
  - apply (proj2 (handleCheckAvailability_needs_a_date Scenario.host Scenario.low_env
                    [("date", VStr "someday")] "u" Scenario.fresh)).
    + reflexivity.
    + reflexivity.
Defined.

(** ** Reading dates and times *)

Section DateTimeFacts.
Import Str Date Calendar TimeText.

Variable localTZA : Z -> bool -> Z.

Lemma is_digit_lower_char (c : ascii) : is_digit (lower_char c) = is_digit c.
Proof. destruct c as [[] [] [] [] [] [] [] []]; reflexivity. Qed.

Lemma has_digit_toLowerCase (s : string) : has_digit (toLowerCase s) = has_digit s.
Proof.
  induction s as [| c r IH]; [reflexivity |].
  cbn [toLowerCase has_digit]. now rewrite is_digit_lower_char, IH.
Qed.

Lemma digit_value (c : ascii) : is_digit c = true -> 0 <= code c - 48 <= 9.
Proof. unfold is_digit. intros H. apply andb_true_iff in H as [H1 H2]. lia. Qed.

Lemma parseInt_one (c : ascii) :
  is_digit c = true -> 0 <= parseInt (String c EmptyString) <= 9.
Proof. intros H. apply digit_value in H. unfold parseInt. cbn [digits_value]. lia. Qed.

Lemma parseInt_two (c d : ascii) :
  is_digit c = true -> is_digit d = true ->
  0 <= parseInt (String c (String d EmptyString)) <= 99.
Proof.
  intros Hc Hd. apply digit_value in Hc, Hd. unfold parseInt. cbn [digits_value]. lia.
Qed.

Lemma parseInt_zero : parseInt "0" = 0.
Proof. reflexivity. Qed.

(** The groups of a match: one or two digits of hours, two digits of
    minutes if any, am or pm if any. *)
Lemma match_here_groups (s g1 : string) (g2 ampm : option string) :
  match_here s = Some (g1, g2, ampm) ->
  0 <= parseInt g1 <= 99
  /\ 0 <= parseInt (match g2 with Some m => m | None => "0" end) <= 99
  /\ (ampm = None \/ ampm = Some "am" \/ ampm = Some "pm").
Proof.
  unfold match_here. destruct s as [| c1 r1]; [discriminate |].
  destruct (is_digit c1) eqn:H1; [| discriminate].
  set (first := match r1 with
                | EmptyString => (String c1 EmptyString, r1)
                | String c2 r2' =>
                    if is_digit c2 then (String c1 (String c2 EmptyString), r2')
                    else (String c1 EmptyString, r1)
                end).
  assert (Hfirst : 0 <= parseInt (fst first) <= 99).
  { subst first. destruct r1 as [| c2 r2']; cbn [fst].
    - pose proof (parseInt_one c1 H1). lia.
    - destruct (is_digit c2) eqn:H2; cbn [fst].
      + now apply parseInt_two.
      + pose proof (parseInt_one c1 H1). lia. }
  destruct first as [h r2]. cbn [fst] in Hfirst.
  set (r3 := match r2 with
             | EmptyString => r2
             | String c r => if Ascii.eqb c ":" then r else r2
             end).
  set (second := match r3 with
                 | String d1 (String d2 r) =>
                     if is_digit d1 && is_digit d2
                     then (Some (String d1 (String d2 EmptyString)), r)
                     else (None, r3)
                 | _ => (None, r3)
                 end).
  assert (Hsecond : 0 <= parseInt (match fst second with Some m => m | None => "0" end) <= 99).
  { subst second. clearbody r3.
    destruct r3 as [| d1 r3']; [cbn [fst]; rewrite parseInt_zero; lia |].
    destruct r3' as [| d2 r]; [cbn [fst]; rewrite parseInt_zero; lia |].
    destruct (is_digit d1 && is_digit d2) eqn:H12; cbn [fst];
      [| rewrite parseInt_zero; lia].
    apply andb_true_iff in H12 as [Hd1 Hd2]. now apply parseInt_two. }
  destruct second as [m r4]. cbn [fst] in Hsecond.
  intros [= <- <- <-].
  split; [exact Hfirst |]. split; [exact Hsecond |].
  destruct (String.prefix "am" (skip_spaces r4)); [auto |].
  destruct (String.prefix "pm" (skip_spaces r4)); auto.
Qed.

Lemma time_match_groups (s g1 : string) (g2 ampm : option string) :
  time_match s = Some (g1, g2, ampm) ->
  0 <= parseInt g1 <= 99
  /\ 0 <= parseInt (match g2 with Some m => m | None => "0" end) <= 99
  /\ (ampm = None \/ ampm = Some "am" \/ ampm = Some "pm").
Proof.
  induction s as [| c r IH]; cbn [time_match].
  - cbn. discriminate.
  - destruct (match_here (String c r)) as [g |] eqn:Hhere.
    + intros [= ->]. now apply match_here_groups in Hhere.
    + exact IH.
Qed.

Lemma match_here_no (c : ascii) (r : string) :
  is_digit c = false -> match_here (String c r) = None.
Proof. intros Hc. unfold match_here. now rewrite Hc. Qed.

(** At a digit the pattern always matches, and its first group is the
    digit with the character after it when that is a digit too. *)
Lemma match_here_first (d : ascii) (rest : string) :
  is_digit d = true ->
  exists minutes ampm,
    match_here (String d rest) = Some (first_digits d rest, minutes, ampm).
Proof.
  intros Hd. unfold match_here, first_digits. rewrite Hd.
  destruct rest as [| c2 r2']; [| destruct (is_digit c2)];
    try match goal with
        | |- context [let '(g2, r4) := ?x in _] => destruct x as [g2 r4]
        end;
    eexists _, _; reflexivity.
Qed.

(** The leftmost match starts at the first digit. *)
Lemma time_match_first (pre : string) (d : ascii) (rest : string) :
  has_digit pre = false -> is_digit d = true ->
  time_match (pre +:+ String d rest) = match_here (String d rest).
Proof.
  intros Hpre Hd. induction pre as [| c pre IH].
  - change ("" +:+ String d rest) with (String d rest).
    destruct (match_here_first d rest Hd) as (m & a & Hm).
    cbn [time_match]. now rewrite Hm.
  - cbn [has_digit] in Hpre. apply orb_false_iff in Hpre as [Hc Hpre].
    change (String c pre +:+ String d rest) with (String c (pre +:+ String d rest)).
    cbn [time_match]. rewrite (match_here_no _ _ Hc). now apply IH.
Qed.

Lemma first_digit_split (s : string) :
  has_digit s = true ->
  exists pre d rest,
    s = pre +:+ String d rest /\ has_digit pre = false /\ is_digit d = true.
Proof.
  induction s as [| c r IH]; [discriminate |]. cbn [has_digit]. intros H.
  destruct (is_digit c) eqn:Hc.
  - exists "", c, r. repeat split; auto.
  - cbn [orb] in H. destruct (IH H) as (pre & d & rest & -> & Hpre & Hd).
    exists (String c pre), d, rest. split; [reflexivity |].
    split; [| exact Hd]. cbn [has_digit]. now rewrite Hc, Hpre.
Qed.

Lemma adjust_bounds (hours : Z) (ampm : option string) :
  0 <= hours <= 99 -> 0 <= adjust hours ampm <= 111.
Proof.
  intros H. unfold adjust. destruct ampm as [m |]; [| lia].
  destruct (String.eqb m "pm" && negb (hours =? 12)); [lia |].
  destruct (String.eqb m "am" && (hours =? 12)); lia.
Qed.

(** X15. The default of 2 PM applies to exactly the inputs without a
    decimal digit. In every other input the leftmost digit, in a date or
    a count as much as in a time, starts the hour: the hour text is that
    digit with the character after it when that is a digit too, the
    minutes and the am or pm are what the pattern reads right after it,
    and the start is at that hour, shifted by twelve for pm (12 pm stays,
    12 am is 0), and those minutes of the resolved date, seconds and
    milliseconds zero. Nothing bounds them: hours go up to 111 and
    minutes up to 99. *)
Theorem start_time_is_read_from_the_first_digits (now : Z) (s : string) :
  let lowerStr := toLowerCase s in
  let startDate := fst (parseDateTime_dates localTZA now s) in
  let date := resolve_date localTZA now lowerStr in
  (has_digit s = false -> startDate = setHours localTZA date 14 0 0 0)
  /\ (has_digit s = true ->
      exists pre d rest,
        lowerStr = pre +:+ String d rest /\ has_digit pre = false /\ is_digit d = true)
  /\ (forall pre d rest,
        lowerStr = pre +:+ String d rest -> has_digit pre = false -> is_digit d = true ->
        exists minutes ampm,
          match_here (String d rest) = Some (first_digits d rest, minutes, ampm) /\
          time_match lowerStr = Some (first_digits d rest, minutes, ampm) /\
          (ampm = None \/ ampm = Some "am" \/ ampm = Some "pm") /\
          let hours := adjust (parseInt (first_digits d rest)) ampm in
          let minutes := parseInt (match minutes with Some m => m | None => "0" end) in
          0 <= hours <= 111 /\ 0 <= minutes <= 99 /\
          startDate = setHours localTZA date hours minutes 0 0).
Proof.
  cbv zeta. unfold parseDateTime_dates. cbn [fst]. unfold resolve_time.
  split; [| split].
  - intros Hdigit. rewrite <- has_digit_toLowerCase in Hdigit.
    apply time_match_none_iff in Hdigit. now rewrite Hdigit.
  - intros Hdigit. rewrite <- has_digit_toLowerCase in Hdigit.
    now apply first_digit_split.
  - intros pre d rest Hsplit Hpre Hd.
    destruct (match_here_first d rest Hd) as (m & a & Hhere).
    pose proof (time_match_first pre d rest Hpre Hd) as Hfirst.
    rewrite <- Hsplit, Hhere in Hfirst.
    destruct (match_here_groups _ _ _ _ Hhere) as (Hh & Hm & Hampm).
    exists m, a. split; [exact Hhere |]. split; [exact Hfirst |].
    split; [exact Hampm |]. split; [now apply adjust_bounds |]. split; [exact Hm |].
    rewrite Hfirst.
    destruct Hampm as [-> | [-> | ->]]; reflexivity.
Qed.

Lemma findIndex_days (lowerStr : string) :
  includes lowerStr "monday" || includes lowerStr "tuesday" ||
  includes lowerStr "wednesday" || includes lowerStr "thursday" ||
  includes lowerStr "friday" || includes lowerStr "saturday" ||
  includes lowerStr "sunday" = true ->
  0 <= findIndex lowerStr days 0 <= 6.
Proof.
  intros Hany. unfold days. cbn [findIndex].
  destruct (includes lowerStr "sunday"); [lia |].
  destruct (includes lowerStr "monday"); [cbn; lia |].
  destruct (includes lowerStr "tuesday"); [cbn; lia |].
  destruct (includes lowerStr "wednesday"); [cbn; lia |].
  destruct (includes lowerStr "thursday"); [cbn; lia |].
  destruct (includes lowerStr "friday"); [cbn; lia |].
  destruct (includes lowerStr "saturday"); [cbn; lia |].
  discriminate.
Qed.

(** X16. In a time zone with a fixed offset, an input that names a day of
    the week (and neither tomorrow nor next week) resolves to the next
    local date that falls on that day of the week, today included: the
    date moves forward by zero to six whole days, never a full week. *)
Theorem weekday_resolves_within_six_days (offset now : Z) (lowerStr : string) :
  (forall t b, localTZA t b = offset) ->
  includes lowerStr "tomorrow" = false ->
  includes lowerStr "next week" = false ->
  includes lowerStr "monday" || includes lowerStr "tuesday" ||
  includes lowerStr "wednesday" || includes lowerStr "thursday" ||
  includes lowerStr "friday" || includes lowerStr "saturday" ||
  includes lowerStr "sunday" = true ->
  let date := resolve_date localTZA now lowerStr in
  getDay localTZA date = findIndex lowerStr days 0
  /\ exists k, 0 <= k <= 6 /\ date = now + k * msPerDay
  /\ (getDay localTZA now = findIndex lowerStr days 0 -> date = now).
Proof.
  intros Hzone Htomorrow Hnext Hany. cbv zeta.
  pose proof (findIndex_days lowerStr Hany) as Htarget.
  unfold resolve_date. rewrite Htomorrow, Hnext, Hany.
  set (target := findIndex lowerStr days 0) in *.
  assert (Hday : 0 <= getDay localTZA now <= 6).
  { unfold getDay, WeekDay.
    pose proof (Z.mod_pos_bound (Day (LocalTime localTZA now) + 4) 7). lia. }
  set (k := Z.rem (target - getDay localTZA now + 7) 7).
  assert (Hk : k = (target - getDay localTZA now + 7) mod 7).
  { subst k. apply Z.rem_mod_nonneg; lia. }
  assert (Hkrange : 0 <= k <= 6).
  { rewrite Hk. pose proof (Z.mod_pos_bound (target - getDay localTZA now + 7) 7). lia. }
  assert (Hdate : setDate_plus localTZA now k = now + k * msPerDay).
  { unfold setDate_plus, UTC, LocalTime, MakeDate, Day, TimeWithinDay. rewrite !Hzone.
    unfold msPerDay. pose proof (Z.div_mod (now + offset) 86400000). lia. }
  rewrite Hdate.
  split; [| exists k; split; [exact Hkrange | split; [reflexivity |]]].
  - unfold getDay, WeekDay, LocalTime, Day in *. rewrite !Hzone in *.
    unfold msPerDay in *. clearbody target. subst k.
    clear Hdate Hany Htomorrow Hnext Hzone.
    Z.div_mod_to_equations. lia.
  - intros Hsame. rewrite Hk, Hsame.
    replace (target - target + 7) with (1 * 7) by lia.
    rewrite Z.mod_mul by lia. lia.
Qed.

End DateTimeFacts.

Lemma start_time_is_read_from_the_first_digits_witness :
  fst (Calendar.parseDateTime_dates Scenario.utc Scenario.clock0 "Tomorrow")
  = Date.setHours Scenario.utc
      (Calendar.resolve_date Scenario.utc Scenario.clock0 "tomorrow") 14 0 0 0
  /\ fst (Calendar.parseDateTime_dates Scenario.utc Scenario.clock0 "on 2024-05-06")
     = Date.setHours Scenario.utc
         (Calendar.resolve_date Scenario.utc Scenario.clock0 "on 2024-05-06") 20 24 0 0
  /\ fst (Calendar.parseDateTime_dates Scenario.utc Scenario.clock0 "Lunch at 3 PM")
     = Date.setHours Scenario.utc
         (Calendar.resolve_date Scenario.utc Scenario.clock0 "lunch at 3 pm") 15 0 0 0.
Proof.
  split; [| split].
  - apply (proj1 (start_time_is_read_from_the_first_digits Scenario.utc Scenario.clock0
                    "Tomorrow")).
    reflexivity.
  - destruct (proj2 (proj2 (start_time_is_read_from_the_first_digits Scenario.utc
                              Scenario.clock0 "on 2024-05-06"))
                "on " "2"%char "024-05-06" eq_refl eq_refl eq_refl)
      as (m & a & Hhere & _ & _ & _ & _ & Hstart).
    vm_compute in Hhere. injection Hhere as <- <-. exact Hstart.
  - destruct (proj2 (proj2 (start_time_is_read_from_the_first_digits Scenario.utc
                              Scenario.clock0 "Lunch at 3 PM"))
                "lunch at " "3"%char " pm" eq_refl eq_refl eq_refl)
      as (m & a & Hhere & _ & _ & _ & _ & Hstart).
    vm_compute in Hhere. injection Hhere as <- <-. exact Hstart.
Defined.

Lemma weekday_resolves_within_six_days_witness :
  Date.getDay Scenario.utc (Calendar.resolve_date Scenario.utc Scenario.clock0 "on tuesday")
  = Calendar.findIndex "on tuesday" Calendar.days 0.
Proof.
  apply (weekday_resolves_within_six_days Scenario.utc 0 Scenario.clock0 "on tuesday").
  - reflexivity.
  - reflexivity.
  - reflexivity.
  - reflexivity.
Defined.

(** ** More of the token lifecycle *)

Section TokenFacts.
Import Auth.

Variable env : Env.

(** X17. A refresh that succeeds is persisted and then served from the
    store: the new access token and expiry replace the old ones, the old
    refresh token stays when the provider sends none, and the next call,
    made while the new token outlives the five-minute skew, returns the
    new token without calling the provider again. *)
Theorem refreshed_token_is_stored_and_reused
    (now now' : Z) (userId rt : string) (user : User) (newTokens : Credentials) (w : world) :
  users w !! userId = Some user ->
  store_fault env (calls w) = None ->
  tokenExpiry user <= now + 5 * 60 * 1000 ->
  refreshToken user = Some rt -> rt <> "" ->
  oauth_refresh env (calls w ++ [FindById userId])%list rt = Ok newTokens ->
  store_fault env (calls w ++ [FindById userId; OAuthRefresh rt])%list = None ->
  let run := getValidAccessToken env now userId w in
  let user' :=
    {| accessToken := access_token newTokens;
       refreshToken := if present (refresh_token newTokens)
                       then refresh_token newTokens else Some rt;
       tokenExpiry := expiry_date newTokens |} in
  fst run = Ok (access_token newTokens)
  /\ users (snd run) = <[userId := user']> (users w)
  /\ calls (snd run) = (calls w ++ [FindById userId; OAuthRefresh rt; Save userId user'])%list
  /\ (store_fault env (calls (snd run)) = None ->
      expiry_date newTokens > now' + 5 * 60 * 1000 ->
      getValidAccessToken env now' userId (snd run)
      = (Ok (access_token newTokens), record (FindById userId) (snd run))).
Proof.
  intros Hu Hf Hexp Hrt Hne Hprov Hsave run user'.
  assert (Hrun : run = (Ok (access_token newTokens),
                        {| users := <[userId := user']> (users w);
                           calls := (calls w ++ [FindById userId; OAuthRefresh rt;
                                                 Save userId user'])%list |})).
  { subst run. rewrite (getValidAccessToken_refresh env now userId rt user w Hu Hf Hexp Hrt Hne).
    cbv zeta. cbn [record calls users]. rewrite Hprov.
    rewrite <- List.app_assoc. cbn [app]. rewrite Hsave. rewrite Hrt.
    rewrite <- List.app_assoc. reflexivity. }
  rewrite Hrun. cbn [fst snd users calls].
  repeat split.
  intros Hf' Hfresh.
  apply (getValidAccessToken_fresh env now' userId user'); cbn [users calls tokenExpiry];
    [apply lookup_insert_eq | exact Hf' | exact Hfresh].
Qed.

(** X18. The failures around the refresh all end in the one generic
    exception and leave the stored users as they were: an unknown user and
    a failing user store (after the one read, no call to the provider),
    and a store that fails to save after the provider has already issued
    new credentials, which are then lost. *)
Theorem token_failures_leave_the_store_alone
    (now : Z) (userId : string) (w : world) :
  let run := getValidAccessToken env now userId w in
  let generic := Error "Failed to get valid access token" in
  (store_fault env (calls w) = None -> users w !! userId = None ->
     run = (Throw generic, record (FindById userId) w))
  /\ (forall e, store_fault env (calls w) = Some e ->
        run = (Throw generic, record (FindById userId) w))
  /\ (forall user rt newTokens e,
        users w !! userId = Some user ->
        store_fault env (calls w) = None ->
        tokenExpiry user <= now + 5 * 60 * 1000 ->
        refreshToken user = Some rt -> rt <> "" ->
        oauth_refresh env (calls w ++ [FindById userId])%list rt = Ok newTokens ->
        store_fault env (calls w ++ [FindById userId; OAuthRefresh rt])%list = Some e ->
        fst run = Throw generic /\ users (snd run) = users w).
Proof.
  cbv zeta. split; [| split].
  - intros Hf Hu. unfold getValidAccessToken, try_catch, bind, findById.
    now rewrite Hf, Hu.
  - intros e Hf. unfold getValidAccessToken, try_catch, bind, findById.
    now rewrite Hf.
  - intros user rt newTokens e Hu Hf Hexp Hrt Hne Hprov Hsave.
    rewrite (getValidAccessToken_refresh env now userId rt user w Hu Hf Hexp Hrt Hne).
    cbv zeta. cbn [record calls users]. rewrite Hprov.
    rewrite <- List.app_assoc. cbn [app]. rewrite Hsave. cbn. auto.
Qed.

End TokenFacts.

Section RouteFacts.
Import Auth AuthRoutes.

Variable env : Env.
Variable jwt_verify : string -> result string.

(** X19. The refresh route always answers, with 401, 200 or 500. Without
    an Authorization header, or with one that is empty once the first
    "Bearer " is removed, it answers 401 and touches nothing. It answers
    200 exactly when the token verifies and [getValidAccessToken] returns
    a token for its user; every other case (a token that does not verify,
    an unknown user, a failed refresh) is the same 500. *)
Theorem refresh_route_answers (authorization : option string) (now : Z) (w : world) :
  let run := refresh_route env jwt_verify authorization now w in
  let token := bearer_token authorization in
  exists r,
    fst run = Ok r /\
    (present token = false ->
       r = {| status := 401; success := false; text := "No token provided" |} /\
       snd run = w) /\
    (present token = true ->
       (status r = 200 <->
        exists t userId access,
          token = Some t /\ jwt_verify t = Ok userId /\
          fst (getValidAccessToken env now userId w) = Ok access) /\
       (status r <> 200 ->
        r = {| status := 500; success := false; text := "Failed to refresh token" |})).
Proof.
  cbv zeta. unfold refresh_route, try_catch.
  destruct (bearer_token authorization) as [t |] eqn:Htoken.
  2:{ eexists. split; [reflexivity |]. split; [auto | discriminate]. }
  destruct (present (Some t)) eqn:Hpresent; cbn [negb].
  2:{ eexists. split; [reflexivity |]. split; [auto | discriminate]. }
  unfold bind, lift, verifyJWTToken.
  destruct (jwt_verify t) as [userId | e] eqn:Hverify.
  - destruct (getValidAccessToken env now userId w) as [[access | e] w'] eqn:Hrun; cbn.
    + eexists. split; [reflexivity |]. split; [discriminate |]. intros _. split.
      * split; [intros _; exists t, userId, access; now rewrite Hrun | reflexivity].
      * cbn. contradiction.
    + eexists. split; [reflexivity |]. split; [discriminate |]. intros _. split.
      * split; [discriminate |].
        intros (t' & userId' & access & [= <-] & Hv & Hok).
        rewrite Hverify in Hv. injection Hv as <-. rewrite Hrun in Hok. discriminate.
      * reflexivity.
  - cbn. eexists. split; [reflexivity |]. split; [discriminate |]. intros _. split.
    + split; [discriminate |].
      intros (t' & userId' & access & [= <-] & Hv & _). congruence.
    + reflexivity.
Qed.

End RouteFacts.

Lemma refreshed_token_is_stored_and_reused_witness :
  fst (Auth.getValidAccessToken Scenario.provider_up Scenario.now0 "user-1" Cases.expiring)
  = Ok "new-token"
  /\ fst (Auth.getValidAccessToken Scenario.provider_up (Scenario.now0 + 1000) "user-1"
            (snd (Auth.getValidAccessToken Scenario.provider_up Scenario.now0 "user-1"
                    Cases.expiring)))
     = Ok "new-token".
Proof.
  pose proof
    (refreshed_token_is_stored_and_reused Scenario.provider_up Scenario.now0
       (Scenario.now0 + 1000) "user-1" "refresh-1"
       (Scenario.principal (Scenario.now0 + 4 * 60 * 1000) (Some "refresh-1"))
       Cases.issued Cases.expiring
       eq_refl eq_refl ltac:(cbn; lia) eq_refl ltac:(discriminate) eq_refl eq_refl)
    as (Hfirst & _ & _ & Hsecond).
  split; [exact Hfirst |].
  rewrite (Hsecond eq_refl ltac:(cbn; lia)). reflexivity.
Defined.

Lemma token_failures_leave_the_store_alone_witness :
  Auth.getValidAccessToken Scenario.provider_up Scenario.now0 "nobody" Cases.expiring
  = (Throw (Error "Failed to get valid access token"),
     Auth.record (Auth.FindById "nobody") Cases.expiring)
  /\ Auth.getValidAccessToken Cases.store_down Scenario.now0 "user-1" Cases.expiring
     = (Throw (Error "Failed to get valid access token"),
        Auth.record (Auth.FindById "user-1") Cases.expiring)
  /\ Auth.users
       (snd (Auth.getValidAccessToken Cases.save_down Scenario.now0 "user-1" Cases.expiring))
     = Auth.users Cases.expiring.
Proof.
  split; [| split].
  - apply (proj1 (token_failures_leave_the_store_alone Scenario.provider_up Scenario.now0
                    "nobody" Cases.expiring)); reflexivity.
  - apply (proj1 (proj2 (token_failures_leave_the_store_alone Cases.store_down Scenario.now0
                           "user-1" Cases.expiring))
             (Error "connection lost") eq_refl).
  - apply (proj2 (proj2 (token_failures_leave_the_store_alone Cases.save_down Scenario.now0
                           "user-1" Cases.expiring))
             (Scenario.principal (Scenario.now0 + 4 * 60 * 1000) (Some "refresh-1"))
             "refresh-1" Cases.issued
             (Error "write failed") eq_refl eq_refl ltac:(cbn; lia) eq_refl
             ltac:(discriminate) eq_refl eq_refl).
Defined.

Lemma refresh_route_answers_witness :
  fst (AuthRoutes.refresh_route Scenario.provider_up (fun _ => Ok "user-1") (Some "Bearer ")
         Scenario.now0 Cases.expiring)
  = Ok {| AuthRoutes.status := 401; AuthRoutes.success := false;
          AuthRoutes.text := "No token provided" |}
  /\ AuthRoutes.status
       (match fst (AuthRoutes.refresh_route Scenario.provider_down (fun _ => Ok "user-1")
                     (Some "Bearer abc") Scenario.now0 Cases.expiring) with
        | Ok r => r
        | Throw _ => {| AuthRoutes.status := 0; AuthRoutes.success := false;
                        AuthRoutes.text := "" |}
        end) = 500.
Proof.
  split.
  - destruct (refresh_route_answers Scenario.provider_up (fun _ => Ok "user-1")
                (Some "Bearer ") Scenario.now0 Cases.expiring)
      as (r & Hrun & Hnone & _).
    rewrite Hrun. f_equal. apply Hnone. reflexivity.
  - destruct (refresh_route_answers Scenario.provider_down (fun _ => Ok "user-1")
                (Some "Bearer abc") Scenario.now0 Cases.expiring)
      as (r & Hrun & _ & Hsome).
    rewrite Hrun.
    destruct (Hsome eq_refl) as [H200 H500].
    rewrite H500; [reflexivity |].
    intros Hstatus. apply H200 in Hstatus as (t & userId & access & [= <-] & [= <-] & Hok).
    vm_compute in Hok. discriminate.
Defined.

(** ** The function-calling service *)

Section FunctionCallFacts.
Import OpenAIService OpenAIHelpers.

Variable rt : Runtime.
Variable create : Request -> result (list ResponseMessage).
Variable now : Z.

Lemma slice_last_app {A} (n : nat) (old recent : list A) :
  length recent = n -> slice_last n (old ++ recent) = recent.
Proof.
  intros Hlen. unfold slice_last. rewrite List.length_app, Hlen.
  replace (length old + n - n)%nat with (length old) by lia.
  rewrite List.skipn_app, List.skipn_all, Nat.sub_diag. reflexivity.
Qed.

Lemma slice_last_short {A} (n : nat) (l : list A) :
  (length l <= n)%nat -> slice_last n l = l.
Proof.
  intros Hlen. unfold slice_last.
  replace (length l - n)%nat with 0%nat by lia. reflexivity.
Qed.

(** X20. [processTextInput] sees the last ten messages of the history
    only: whatever came before them changes neither the request nor the
    result; a history of at most ten messages is sent whole. *)
Theorem history_is_cut_to_the_last_ten
    (message : string) (userContext : value) (old recent : list ChatMessage) :
  length recent = 10%nat ->
  processTextInput rt create now message userContext (old ++ recent)
  = processTextInput rt create now message userContext recent.
Proof.
  intros Hlen. unfold processTextInput.
  rewrite (slice_last_app 10 old recent Hlen).
  rewrite (slice_last_short 10 recent) by lia.
  reflexivity.
Qed.


(** X22. The helper completions never fail: [generateActionResponse]
    answers "Action completed successfully." whenever the completion
    throws, has no choice or has no text, whatever the result it was asked
    to describe; [extractEntities] answers four empty lists whenever the
    completion throws, has no choice, has no text, or its text is not
    JSON. *)
Theorem helper_completions_fall_back (action : ActionIntent) (result : value) (text : string) :
  ((forall request, exists e, create request = Throw e) \/
   (forall request, create request = Ok []) \/
   (forall request, exists response rest,
      create request = Ok (response :: rest) /\
      (msg_content response = None \/ msg_content response = Some "")) ->
   generateActionResponse rt create action result = "Action completed successfully."
   /\ extractEntities rt create text = no_entities)
  /\ ((forall request, exists response rest content e,
         create request = Ok (response :: rest) /\
         msg_content response = Some content /\
         JSON_parse rt content = Throw e) ->
      extractEntities rt create text = no_entities).
Proof.
  split.
  - unfold generateActionResponse, extractEntities.
    intros [Hthrow | [Hnone | Hempty]].
    + split.
      * match goal with |- context [create ?r] => destruct (Hthrow r) as [e ->] end.
        reflexivity.
      * match goal with |- context [create ?r] => destruct (Hthrow r) as [e ->] end.
        reflexivity.
    + rewrite !Hnone. split; reflexivity.
    + split.
      * match goal with
        | |- context [create ?r] =>
            destruct (Hempty r) as (response & rest & -> & [Hc | Hc])
        end; cbn; rewrite Hc; reflexivity.
      * match goal with
        | |- context [create ?r] =>
            destruct (Hempty r) as (response & rest & -> & [Hc | Hc])
        end; cbn; rewrite Hc; reflexivity.
  - intros Hbad. unfold extractEntities.
    match goal with
    | |- context [create ?r] =>
        destruct (Hbad r) as (response & rest & content & e & -> & Hc & Hparse)
    end.
    cbn. rewrite Hc. destruct (negb (content =? "")%string); [| reflexivity].
    now rewrite Hparse.
Qed.

End FunctionCallFacts.

Lemma history_is_cut_to_the_last_ten_witness :
  length Cases.ten = 10%nat
  /\ OpenAIService.processTextInput Scenario.host Scenario.send_email_call Scenario.now0
       "mail ann" Scenario.ann (Cases.earlier ++ Cases.ten)
     = OpenAIService.processTextInput Scenario.host Scenario.send_email_call Scenario.now0
         "mail ann" Scenario.ann Cases.ten.
Proof.
  split; [reflexivity |].
  apply (history_is_cut_to_the_last_ten Scenario.host Scenario.send_email_call Scenario.now0
           "mail ann" Scenario.ann Cases.earlier Cases.ten).
  reflexivity.
Defined.


Lemma helper_completions_fall_back_witness :
  OpenAIHelpers.generateActionResponse Scenario.host Cases.helper_down Cases.sent_mail
    (VObj [("id", VStr "message-1")])
  = "Action completed successfully."
  /\ OpenAIHelpers.extractEntities Scenario.host Cases.helper_down "lunch with Ann on Friday"
     = OpenAIHelpers.no_entities.
Proof.
  apply (proj1 (helper_completions_fall_back Scenario.host Cases.helper_down Cases.sent_mail
                  (VObj [("id", VStr "message-1")]) "lunch with Ann on Friday")).
  left. intros request. exists (Error "503 service unavailable"). reflexivity.
Defined.

(** ** Address validation *)

Section MailFacts.
Import Str Mail.

Lemma app_cons (c : ascii) (a b : string) : String c a +:+ b = String c (a +:+ b).
Proof. reflexivity. Qed.

Lemma app_empty (b : string) : "" +:+ b = b.
Proof. reflexivity. Qed.

Lemma all_plain_app (a b : string) :
  all_plain (a +:+ b) = all_plain a && all_plain b.
Proof.
  induction a as [| c a IH]; [reflexivity |].
  rewrite app_cons. cbn [all_plain]. rewrite IH. now rewrite andb_assoc.
Qed.

Lemma eqb_empty (s : string) : String.eqb s "" = false <-> s <> "".
Proof.
  destruct s as [| c r]; cbn.
  - split; [discriminate | intros H; now contradict H].
  - split; [intros _; discriminate | reflexivity].
Qed.

Lemma dot_followed_iff (r : string) :
  dot_followed r = true <-> exists b c, r = b +:+ "." +:+ c /\ c <> "".
Proof.
  induction r as [| x r IH]; cbn [dot_followed].
  - split; [discriminate |]. intros (b & c & H & _). destruct b; discriminate.
  - rewrite orb_true_iff, andb_true_iff, negb_true_iff, eqb_empty, IH. split.
    + intros [[Hx Hr] | (b & c & -> & Hc)].
      * apply Ascii.eqb_eq in Hx as ->. exists "", r. now split.
      * exists (String x b), c. now split.
    + intros (b & c & H & Hc). destruct b as [| y b].
      * rewrite app_empty, app_cons, app_empty in H. injection H as -> ->.
        left. now split.
      * rewrite app_cons in H. injection H as -> ->. right. now exists b, c.
Qed.

Lemma domain_ok_iff (s : string) :
  domain_ok s = true <->
  exists b c, s = b +:+ "." +:+ c /\ b <> "" /\ c <> "" /\
              all_plain b = true /\ all_plain c = true.
Proof.
  unfold domain_ok. rewrite andb_true_iff. split.
  - intros [Hp Hd]. destruct s as [| x r]; [discriminate |].
    apply dot_followed_iff in Hd as (b & c & -> & Hc).
    exists (String x b), c.
    change (String x (b +:+ "." +:+ c)) with (String x b +:+ "." +:+ c) in Hp.
    rewrite !all_plain_app in Hp.
    apply andb_true_iff in Hp as [Hb Hp]. apply andb_true_iff in Hp as [_ Hp].
    repeat split; try assumption. discriminate.
  - intros (b & c & -> & Hb & Hc & Pb & Pc). split.
    + rewrite !all_plain_app, Pb, Pc. reflexivity.
    + destruct b as [| x b]; [congruence |]. rewrite app_cons.
      apply dot_followed_iff. now exists b, c.
Qed.

Lemma plain_not_at (c : ascii) : plain c = true -> Ascii.eqb c "@" = false.
Proof. unfold plain. intros H. apply andb_true_iff in H as [_ H]. now apply negb_true_iff. Qed.

Lemma email_test_from_iff (s : string) (seen : bool) :
  email_test_from seen s = true <->
  exists a d, s = a +:+ "@" +:+ d /\ all_plain a = true /\
              (seen = true \/ a <> "") /\ domain_ok d = true.
Proof.
  revert seen. induction s as [| x r IH]; intros seen; cbn [email_test_from].
  - split; [discriminate |]. intros (a & d & H & _). destruct a; discriminate.
  - destruct (Ascii.eqb x "@") eqn:Hx.
    + apply Ascii.eqb_eq in Hx as ->. rewrite andb_true_iff. split.
      * intros [Hs Hd]. exists "", r. repeat split; auto.
      * intros (a & d & H & Pa & Hs & Hd). destruct a as [| y a].
        -- rewrite app_empty, app_cons, app_empty in H. injection H as ->.
           destruct Hs as [Hs | Hs]; [now split | congruence].
        -- rewrite app_cons in H. injection H as <- _.
           cbn [all_plain] in Pa. apply andb_true_iff in Pa as [Pa _].
           apply plain_not_at in Pa. discriminate.
    + rewrite andb_true_iff, IH. split.
      * intros [Px (a & d & -> & Pa & _ & Hd)]. exists (String x a), d.
        split; [reflexivity |]. split; [cbn [all_plain]; now rewrite Px, Pa |].
        split; [right; discriminate | assumption].
      * intros (a & d & H & Pa & Hs & Hd). destruct a as [| y a].
        -- rewrite app_empty, app_cons, app_empty in H. injection H as -> _.
           discriminate.
        -- rewrite app_cons in H. injection H as <- ->.
           cbn [all_plain] in Pa. apply andb_true_iff in Pa as [Px Pa].
           split; [assumption |]. exists a, d. repeat split; auto.
Qed.

(** X23. The address test accepts exactly the strings made of a local
    part, an at sign, and a domain with a dot inside it, where the local
    part and the two sides of that dot are non-empty and hold neither
    white space nor an at sign; so an accepted address has exactly one at
    sign and no white space anywhere. *)
Theorem accepted_addresses :
  forall s, email_test s = true <-> matches_email s.
Proof.
  intros s. unfold email_test, matches_email. rewrite email_test_from_iff. split.
  - intros (a & d & -> & Pa & [Hs | Ha] & Hd); [discriminate |].
    apply domain_ok_iff in Hd as (b & c & -> & Hb & Hc & Pb & Pc).
    exists a, b, c. repeat split; assumption.
  - intros (a & b & c & -> & Ha & Hb & Hc & Pa & Pb & Pc).
    exists a, (b +:+ "." +:+ c). repeat split; auto.
    apply domain_ok_iff. exists b, c. repeat split; assumption.
Qed.

Lemma plain_not_space (c : ascii) : plain c = true -> is_space c = false.
Proof. unfold plain. intros H. apply andb_true_iff in H as [H _]. now apply negb_true_iff. Qed.


Lemma all_plain_no_space (s : string) : all_plain s = true -> no_space s = true.
Proof.
  induction s as [| c r IH]; [reflexivity |]. cbn. intros H.
  apply andb_true_iff in H as [Hc Hr]. rewrite (plain_not_space _ Hc). cbn. auto.
Qed.

Lemma no_space_app (a b : string) : no_space (a +:+ b) = no_space a && no_space b.
Proof.
  induction a as [| c a IH]; [reflexivity |].
  rewrite app_cons. cbn [no_space]. rewrite IH. now rewrite andb_assoc.
Qed.

Lemma email_test_no_space (s : string) : email_test s = true -> no_space s = true.
Proof.
  intros H. unfold email_test in H.
  apply email_test_from_iff in H as (a & d & -> & Pa & _ & Hd).
  apply domain_ok_iff in Hd as (b & c & -> & _ & _ & Pb & Pc).
  rewrite !no_space_app, (all_plain_no_space _ Pa), (all_plain_no_space _ Pb),
    (all_plain_no_space _ Pc). reflexivity.
Qed.

Lemma trim_end_no_space (s : string) : no_space s = true -> trim_end s = s.
Proof.
  induction s as [| c r IH]; [reflexivity |]. cbn. intros H.
  apply andb_true_iff in H as [Hc Hr]. apply negb_true_iff in Hc.
  rewrite Hc, (IH Hr). reflexivity.
Qed.

Lemma trim_no_space (s : string) : no_space s = true -> trim s = s.
Proof.
  intros H. unfold trim. destruct s as [| c r]; [reflexivity |].
  cbn [skip_spaces]. pose proof H as H'. cbn in H'.
  apply andb_true_iff in H' as [Hc _]. apply negb_true_iff in Hc. rewrite Hc.
  now apply trim_end_no_space.
Qed.

Lemma fold_sort_address (emails valid invalid : list string) :
  fold_left sort_address emails (valid, invalid) =
  ((valid ++ List.filter email_test (map trim emails))%list,
   (invalid ++ List.filter (fun s => negb (email_test s)) (map trim emails))%list).
Proof.
  revert valid invalid. induction emails as [| e rest IH]; intros valid invalid.
  - cbn. now rewrite !app_nil_r.
  - cbn [fold_left map List.filter]. unfold sort_address at 2.
    destruct (email_test (trim e)); cbn [negb]; rewrite IH, <- app_assoc; reflexivity.
Qed.

(** X24. Validation sorts every address of the input, trimmed, into
    exactly one of the two lists: [valid] holds the trimmed addresses that
    pass the test and [invalid] the ones that fail it, both in input order
    and with repetitions kept, so that no address is lost or reported
    twice. *)
Theorem validateEmailAddresses_partitions (emails : list string) :
  validateEmailAddresses emails =
    (List.filter email_test (map trim emails),
     List.filter (fun s => negb (email_test s)) (map trim emails))
  /\ (length (fst (validateEmailAddresses emails))
      + length (snd (validateEmailAddresses emails)) = length emails)%nat.
Proof.
  unfold validateEmailAddresses. rewrite fold_sort_address. cbn [fst snd app].
  split; [reflexivity |].
  rewrite <- (length_map trim emails).
  induction (map trim emails) as [| s l IH]; [reflexivity |].
  cbn [List.filter]. destruct (email_test s); cbn [negb length]; lia.
Qed.

Lemma filter_all {A} (f : A -> bool) (l : list A) :
  Forall (fun x => f x = true) l -> List.filter f l = l.
Proof.
  induction 1 as [| x l Hx _ IH]; [reflexivity |]. cbn. now rewrite Hx, IH.
Qed.

Lemma filter_none {A} (f : A -> bool) (l : list A) :
  Forall (fun x => f x = true) l -> List.filter (fun x => negb (f x)) l = [].
Proof.
  induction 1 as [| x l Hx _ IH]; [reflexivity |]. cbn. now rewrite Hx, IH.
Qed.

Lemma map_trim_accepted (l : list string) :
  Forall (fun s => email_test s = true) l -> map trim l = l.
Proof.
  induction 1 as [| s l Hs _ IH]; [reflexivity |]. cbn.
  now rewrite IH, (trim_no_space s (email_test_no_space s Hs)).
Qed.

Lemma filter_accepts {A} (f : A -> bool) (l : list A) :
  Forall (fun x => f x = true) (List.filter f l).
Proof.
  induction l as [| x l IH]; [constructor |]. cbn.
  destruct (f x) eqn:Hx; [now constructor | assumption].
Qed.

(** X25. Validating the [valid] list again changes nothing: every address
    in it is already trimmed and passes the test, so the second pass
    returns the same [valid] list and an empty [invalid] list. *)
Theorem revalidation_is_stable (emails : list string) :
  validateEmailAddresses (fst (validateEmailAddresses emails)) =
  (fst (validateEmailAddresses emails), []).
Proof.
  unfold validateEmailAddresses. rewrite !fold_sort_address. cbn [fst snd app].
  pose proof (filter_accepts email_test (map trim emails)) as H.
  rewrite (map_trim_accepted _ H), (filter_all _ _ H), (filter_none _ _ H).
  reflexivity.
Qed.

End MailFacts.

(** ** The chat routes *)

Section ServerFacts.
Import Assistant Server.

Variable rt : Runtime.
Variable env : Env.
Variable other : value -> string -> string -> M world Reply.

Lemma generateResponse_body_outage (text u s : string) (context : value) (w : world) :
  completions_down env ->
  exists e w', generateResponse_body rt env text u s context w = (Throw e, w').
Proof.
  intros Hdown. unfold generateResponse_body, bind.
  destruct (getContext u s w) as [[id | e0] w0]; [| eauto].
  destruct (update id _ w0) as [[[] | e1] w1]; [| eauto].
  destruct (analyzeIntent_total rt env text u s w1) as (i & w2 & -> & _).
  destruct (deref id w2) as [[c | e3] w3]; [| eauto].
  unfold ext at 1.
  destruct (Hdown (log w3) "gpt-4"
              (messages c ++
               (if negb (String.eqb
                           (if truthy context
                            then "Current context: " +:+ JSON_stringify rt context
                            else "") "")
                then [{| role := "system";
                         content := VStr (if truthy context
                                          then "Current context: " +:+ JSON_stringify rt context
                                          else "") |}]
                else []))%list 0.7%Q 300) as [e He].
  rewrite He. eauto.
Qed.

Lemma generateResponse_outage (text u s : string) (context : value) (w : world) :
  completions_down env ->
  exists w', generateResponse rt env text u s context w = (Ok apology_reply, w').
Proof.
  intros Hdown. unfold generateResponse, try_catch.
  destruct (generateResponse_body_outage text u s context w Hdown) as (e & w' & ->).
  cbn. eauto.
Qed.

Lemma processTextInput_outage (text u s : string) (w : world) :
  completions_down env -> store_up env ->
  exists w', processTextInput rt env text u s w = (Ok apology_reply, w').
Proof.
  intros Hdown [Hopen Hadd].
  unfold processTextInput, try_catch, processTextInput_body, bind.
  unfold ext at 1. destruct (Hopen (log w) u s) as (conversation & -> & Hu & Hn).
  unfold lift at 1.
  assert (Hid : exists id, get conversation "id" = Ok id).
  { destruct conversation; cbn; try congruence; eauto.
    destruct (assoc "id" props); eauto. }
  destruct Hid as [id Hid]. rewrite Hid.
  unfold ext at 1. cbn [log with_log].
  match goal with
  | |- context [respond env ?l (DbAddMessage ?i ?m)] =>
      destruct (Hadd l i m) as [v1 ->]
  end.
  match goal with
  | |- context [generateResponse rt env text u s VUndefined ?w0] =>
      destruct (generateResponse_outage text u s VUndefined w0 Hdown) as [w1 ->]
  end.
  unfold lift at 1.
  unfold ext at 1.
  match goal with
  | |- context [respond env ?l (DbAddMessage ?i ?m)] =>
      destruct (Hadd l i m) as [v2 ->]
  end.
  cbn. eauto.
Qed.

Lemma truthy_text (text : string) : text <> "" -> truthy (VStr text) = true.
Proof. intros Ht. apply String.eqb_neq in Ht. cbn. now rewrite Ht. Qed.

(** X26. A completion outage does not surface as an HTTP failure: while
    the message store works and every chat completion fails, both chat
    routes answer a non-empty message with status 200 and the apology
    reply, whose intent has confidence 0; the simulated responses of the
    legacy route are not reached. *)
Theorem completion_outage_is_answered_200 (body : Body) (text : string) (w : world) :
  completions_down env -> store_up env ->
  body_message body = VStr text -> text <> "" ->
  fst (chat rt env other body w) = Ok (Result apology_reply) /\
  fst (assistant rt env other body w) = Ok (Response (response apology_reply)).
Proof.
  intros Hdown Hup Hm Ht.
  unfold chat, assistant, try_catch, bind. rewrite Hm. cbv zeta.
  rewrite (truthy_text text Ht). cbn [negb process].
  destruct (processTextInput_outage text (or_default (body_userId body))
              (or_default (body_sessionId body)) w Hdown Hup) as [w1 ->].
  destruct (processTextInput_outage text (or_default (body_userId body))
              "default" w Hdown Hup) as [w2 ->].
  split; reflexivity.
Qed.

Lemma processTextInput_store_down (text u s : string) (w : world) :
  store_down env ->
  exists e, processTextInput rt env text u s w =
            (Throw e, with_log w (log w ++ [Called (DbGetOrCreateConversation u s) (Throw e)])).
Proof.
  intros Hdown. unfold processTextInput, try_catch, processTextInput_body, bind.
  unfold ext at 1. destruct (Hdown (log w) u s) as [e ->].
  exists e. reflexivity.
Qed.

(** X27. When the message store cannot open a conversation, a non-empty
    message is answered by the chat route with status 500 and 'Failed to
    process message', and by the legacy route with status 200 and the
    simulated response for the message; in both cases the failed store
    call is the only call made, so no completion is requested. *)
Theorem store_outage_answers (body : Body) (text : string) (w : world) :
  store_down env ->
  body_message body = VStr text -> text <> "" ->
  (exists e,
     chat rt env other body w =
       (Ok (Failure 500 "Failed to process message"),
        with_log w (log w ++ [Called (DbGetOrCreateConversation
                                        (or_default (body_userId body))
                                        (or_default (body_sessionId body))) (Throw e)])))
  /\ (exists e,
        assistant rt env other body w =
          (Ok (Response (VStr (getSimulatedResponse text))),
           with_log w (log w ++ [Called (DbGetOrCreateConversation
                                           (or_default (body_userId body))
                                           "default") (Throw e)]))).
Proof.
  intros Hdown Hm Ht.
  unfold chat, assistant, try_catch, bind. rewrite Hm. cbv zeta.
  rewrite (truthy_text text Ht). cbn [negb process]. split.
  - destruct (processTextInput_store_down text (or_default (body_userId body))
                (or_default (body_sessionId body)) w Hdown) as [e ->].
    exists e. reflexivity.
  - destruct (processTextInput_store_down text (or_default (body_userId body))
                "default" w Hdown) as [e ->].
    exists e. reflexivity.
Qed.

(** X28. The chat route answers every request, whatever JSON value the
    message is. Both routes refuse a missing or falsy message (absent,
    null, the empty string, 0, false) with status 400 before anything is
    called, leaving the stored conversations and the log as they were.
    The legacy route answers every request whose message is a string; for
    a message that is truthy and not a string, when processing it throws,
    the fallback itself throws a TypeError out of the handler and the
    request gets no answer. *)
Theorem chat_answers_every_request_assistant_may_throw (body : Body) (w : world) :
  (exists a w', chat rt env other body w = (Ok a, w'))
  /\ (truthy (body_message body) = false ->
      chat rt env other body w = (Ok (Failure 400 "No message provided"), w) /\
      assistant rt env other body w = (Ok (Failure 400 "No message provided"), w))
  /\ (forall text,
        body_message body = VStr text ->
        exists a w', assistant rt env other body w = (Ok a, w'))
  /\ (forall e w',
        truthy (body_message body) = true ->
        (forall text, body_message body <> VStr text) ->
        other (body_message body) (or_default (body_userId body)) "default" w = (Throw e, w') ->
        assistant rt env other body w
        = (Throw (TypeError "userMessage.toLowerCase is not a function"), w')).
Proof.
  unfold chat, assistant, try_catch, bind. cbv zeta.
  split; [| split; [| split]].
  - destruct (truthy (body_message body)); cbn [negb]; [| cbn; eauto].
    destruct (process rt env other _ _ _ w) as [[r | e] w']; cbn; eauto.
  - intros ->. cbn. split; reflexivity.
  - intros text ->. destruct (truthy (VStr text)); cbn [negb]; [| cbn; eauto].
    destruct (process rt env other _ _ _ w) as [[r | e] w']; cbn; eauto.
  - intros e w' Htruthy Hother Hthrow. rewrite Htruthy. cbn [negb].
    destruct (body_message body) as [| | b | q | text | items | props] eqn:Hm;
      try discriminate;
      try (now contradiction (Hother text));
      cbn [process]; rewrite Hthrow; reflexivity.
Qed.

End ServerFacts.

Lemma completion_outage_is_answered_200_witness :
  fst (Server.chat Scenario.host Cases.outage Cases.rejects_other Cases.unread_request
         Scenario.fresh)
    = Ok (Server.Result Assistant.apology_reply)
  /\ fst (Server.assistant Scenario.host Cases.outage Cases.rejects_other Cases.unread_request
            Scenario.fresh)
     = Ok (Server.Response (Assistant.response Assistant.apology_reply)).
Proof.
  apply (completion_outage_is_answered_200 Scenario.host Cases.outage Cases.rejects_other
           Cases.unread_request "Which emails are unread?" Scenario.fresh).
  - intros l model messages temperature max_tokens.
    exists (Error "503 service unavailable"). cbn.
    destruct (max_tokens =? 500); reflexivity.
  - split.
    + intros l u s. exists (VObj [("id", VStr "conversation-1")]).
      split; [reflexivity | split; discriminate].
    + intros l id m. exists (VObj []). reflexivity.
  - reflexivity.
  - discriminate.
Defined.

Lemma store_outage_answers_witness :
  fst (Server.chat Scenario.host Cases.database_down Cases.rejects_other Cases.unread_request
         Scenario.fresh)
    = Ok (Server.Failure 500 "Failed to process message")
  /\ fst (Server.assistant Scenario.host Cases.database_down Cases.rejects_other
            Cases.unread_request Scenario.fresh)
     = Ok (Server.Response (VStr Server.greeting)).
Proof.
  destruct (store_outage_answers Scenario.host Cases.database_down Cases.rejects_other
              Cases.unread_request "Which emails are unread?" Scenario.fresh)
    as [[e1 H1] [e2 H2]].
  - intros l u s. exists (Error "connect ECONNREFUSED"). reflexivity.
  - reflexivity.
  - discriminate.
  - rewrite H1, H2. split; reflexivity.
Defined.

Lemma chat_answers_every_request_assistant_may_throw_witness :
  (Server.chat Scenario.host Cases.outage Cases.rejects_other Cases.empty_request
     Scenario.fresh
   = (Ok (Server.Failure 400 "No message provided"), Scenario.fresh)
   /\ Server.assistant Scenario.host Cases.outage Cases.rejects_other Cases.empty_request
        Scenario.fresh
      = (Ok (Server.Failure 400 "No message provided"), Scenario.fresh))
  /\ fst (Server.chat Scenario.host Cases.outage Cases.rejects_other Cases.number_request
            Scenario.fresh)
     = Ok (Server.Failure 500 "Failed to process message")
  /\ Server.assistant Scenario.host Cases.outage Cases.rejects_other Cases.number_request
       Scenario.fresh
     = (Throw (TypeError "userMessage.toLowerCase is not a function"), Scenario.fresh).
Proof.
  split; [| split].
  - apply (proj1 (proj2 (chat_answers_every_request_assistant_may_throw Scenario.host
                           Cases.outage Cases.rejects_other Cases.empty_request
                           Scenario.fresh))).
    reflexivity.
  - reflexivity.
  - apply (proj2 (proj2 (proj2 (chat_answers_every_request_assistant_may_throw Scenario.host
                                  Cases.outage Cases.rejects_other Cases.number_request
                                  Scenario.fresh)))
             (Error "Invalid value for argument content") Scenario.fresh).
    + reflexivity.
    + intros text. discriminate.
    + reflexivity.
Defined.

(** ** Free and busy hours *)

Section AvailabilityFacts.
Import Date Availability.

Variable rt : Runtime.
Variable freebusy_query : string -> string -> result value.

Lemma next_hour_fixed (offset t : Z) :
  fixed_zone rt offset -> next_hour rt t = t + hour.
Proof.
  intros Hz. unfold next_hour, setHours, LocalTime, UTC, MakeDate, MakeTime, Day,
    HourFromTime, MinFromTime, SecFromTime, msFromTime, hour,
    msPerDay, msPerHour, msPerMinute, msPerSecond.
  rewrite !Hz. Z.div_mod_to_equations. lia.
Qed.

Lemma some_conflict_reads (s e : Z) (items : list value) (ivs : list (Z * Z)) :
  Forall2 (reads_as rt) items ivs ->
  some_conflict rt s e items =
  Ok (existsb (fun iv => (s <? snd iv) && (fst iv <? e)) ivs).
Proof.
  induction 1 as [| busy iv items ivs (bs & be & Hs & He & Ds & De) _ IH]; [reflexivity |].
  cbn [some_conflict existsb]. unfold conflicts. rewrite Hs, He. cbn [rbind].
  rewrite Ds, De. cbn [before].
  destruct ((s <? snd iv) && (fst iv <? e)); [reflexivity | exact IH].
Qed.

Lemma hours_between_zero (start end_ : Z) :
  (start <? end_) = false -> hours_between start end_ = O.
Proof.
  intros H. apply Z.ltb_ge in H. unfold hours_between, hour.
  assert ((end_ - start + (60 * 60 * 1000 - 1)) / (60 * 60 * 1000) <= 0)
    by (Z.div_mod_to_equations; lia).
  lia.
Qed.

Lemma hours_between_succ (start end_ : Z) :
  (start <? end_) = true ->
  hours_between start end_ = S (hours_between (start + hour) end_).
Proof.
  intros H. apply Z.ltb_lt in H. unfold hours_between, hour.
  rewrite <- Z2Nat.inj_succ by (Z.div_mod_to_equations; lia).
  f_equal. Z.div_mod_to_equations. lia.
Qed.

(** The slot of the hour from [t], given the busy intervals. *)
Lemma timeSlots_grid (offset : Z) (items : list value) (ivs : list (Z * Z)) (end_ : Z) :
  fixed_zone rt offset ->
  Forall2 (reads_as rt) items ivs ->
  forall fuel start,
    (hours_between start end_ <= fuel)%nat ->
    timeSlots rt fuel (VArr items) start end_ =
    Some (Ok (map (fun t => {| slot_start := t; slot_end := t + hour;
                               available := negb (existsb (overlaps t) ivs) |})
                  (grid start (hours_between start end_)))).
Proof.
  intros Hz Hr. induction fuel as [| fuel IH]; intros start Hf.
  - cbn [timeSlots]. destruct (start <? end_) eqn:Hlt.
    + rewrite (hours_between_succ _ _ Hlt) in Hf. lia.
    + now rewrite (hours_between_zero _ _ Hlt).
  - cbn [timeSlots]. destruct (start <? end_) eqn:Hlt.
    + rewrite (hours_between_succ _ _ Hlt) in Hf |- *.
      unfold isAvailable. rewrite (some_conflict_reads _ _ _ _ Hr). cbn [rbind].
      rewrite (next_hour_fixed offset _ Hz), IH by lia.
      reflexivity.
    + now rewrite (hours_between_zero _ _ Hlt).
Qed.

(** X29. In a zone with a fixed offset, with valid bounds and a readable
    busy list, [checkAvailability] returns one slot for every hour begun
    between the bounds, in order and an hour long each, starting at
    [startDate]; a slot is available exactly when no busy interval meets
    its hour. Bounds with the end at or before the start give no slot, and
    the last slot ends at or after the end bound, less than an hour past
    it. *)
Theorem checkAvailability_hourly_grid
    (offset start end_ : Z) (startDate endDate : value)
    (items : list value) (ivs : list (Z * Z)) (fuel : nat) :
  fixed_zone rt offset ->
  Date_of rt startDate = Some start ->
  Date_of rt endDate = Some end_ ->
  busy_times rt freebusy_query startDate endDate = Ok (VArr items) ->
  Forall2 (reads_as rt) items ivs ->
  (hours_between start end_ <= fuel)%nat ->
  checkAvailability rt freebusy_query fuel startDate endDate =
    Some (Ok (map (fun t => {| slot_start := t; slot_end := t + hour;
                               available := negb (existsb (overlaps t) ivs) |})
                  (grid start (hours_between start end_))))
  /\ (end_ <= start -> hours_between start end_ = O)
  /\ (start < end_ ->
      end_ <= start + Z.of_nat (hours_between start end_) * hour < end_ + hour).
Proof.
  intros Hz Hs He Hb Hr Hf. split; [| split].
  - unfold checkAvailability. rewrite Hb, Hs, He.
    now rewrite (timeSlots_grid offset items ivs end_ Hz Hr fuel start Hf).
  - intros H. apply hours_between_zero. now apply Z.ltb_ge.
  - intros H. unfold hours_between, hour.
    rewrite Z2Nat.id by (Z.div_mod_to_equations; lia).
    Z.div_mod_to_equations. lia.
Qed.

Lemma existsb_false {A} (f : A -> bool) (l : list A) (x : A) :
  existsb f l = false -> In x l -> f x = false.
Proof.
  intros H Hin. destruct (f x) eqn:Hx; [| reflexivity].
  assert (existsb f l = true) by (apply existsb_exists; eauto). congruence.
Qed.

Lemma enough_free (ivs : list (Z * Z)) (duration : Z) (n : nat) :
  forall t c,
    enough (map (fun t => {| slot_start := t; slot_end := t + hour;
                             available := negb (existsb (overlaps t) ivs) |})
                (grid t n)) c duration = true ->
    forall iv, In iv ivs -> fst iv < snd iv ->
      ~ (t < snd iv /\ fst iv < t + (duration - c) * 60 * 1000).
Proof.
  induction n as [| n IH]; intros t c H iv Hin Hwf [H1 H2]; [discriminate |].
  cbn [grid map enough available] in H.
  destruct (existsb (overlaps t) ivs) eqn:Hex; [discriminate |]. cbn [negb] in H.
  pose proof (existsb_false _ _ _ Hex Hin) as Hov. unfold overlaps, hour in Hov.
  apply andb_false_iff in Hov.
  destruct (duration <=? c + 60) eqn:Hd.
  - apply Z.leb_le in Hd. destruct Hov as [Hov | Hov]; apply Z.ltb_ge in Hov; lia.
  - apply Z.leb_gt in Hd. apply (IH _ _ H iv Hin Hwf). unfold hour.
    destruct Hov as [Hov | Hov]; apply Z.ltb_ge in Hov; lia.
Qed.

Lemma offers_sound (ivs : list (Z * Z)) (duration : Z) (workingHours : Hours) (n : nat) :
  forall t,
    Forall (fun t => Date_of rt (VStr (toISOString rt t)) = Some t) (grid t n) ->
    Forall (fun o =>
              available o = true /\
              slot_end o = slot_start o + duration * 60 * 1000 /\
              hours_start workingHours <= getHours rt (slot_start o) < hours_end workingHours /\
              forall iv, In iv ivs -> fst iv < snd iv ->
                         ~ (slot_start o < snd iv /\ fst iv < slot_end o))
           (offers rt duration workingHours
              (map (fun t => {| slot_start := t; slot_end := t + hour;
                                available := negb (existsb (overlaps t) ivs) |})
                   (grid t n))).
Proof.
  induction n as [| n IH]; intros t Hrt; [constructor |].
  cbn [grid] in Hrt. apply Forall_cons_iff in Hrt as [Ht Hrest].
  cbn [grid map offers slot_start]. apply List.Forall_app. split; [| now apply IH].
  rewrite Ht.
  match goal with |- Forall _ (if ?c then _ else _) => destruct c eqn:Hc end;
    [| constructor].
  apply andb_true_iff in Hc as [Hc Hen]. apply andb_true_iff in Hc as [Hc Hhi].
  apply andb_true_iff in Hc as [_ Hlo].
  apply Z.leb_le in Hlo. apply Z.ltb_lt in Hhi.
  constructor; [| constructor]. cbn [available slot_end slot_start].
  split; [reflexivity |]. split; [reflexivity |]. split; [lia |].
  intros iv Hin Hwf.
  pose proof (enough_free ivs duration (S n) t 0 Hen iv Hin Hwf) as Hfree.
  now replace (duration - 0) with duration in Hfree by lia.
Qed.

(** X30. In a zone with a fixed offset, every window [findAvailableSlots]
    offers is marked available, lasts [duration] minutes from its start,
    starts at a local hour within the working hours, and meets no busy
    interval of the free/busy response (of those that end after they
    start). The working hours bound the start of a window only. *)
Theorem offered_windows_are_free
    (offset start end_ duration : Z) (workingHours : Hours) (startDate endDate : value)
    (items : list value) (ivs : list (Z * Z)) (fuel : nat) :
  fixed_zone rt offset ->
  Date_of rt startDate = Some start ->
  Date_of rt endDate = Some end_ ->
  busy_times rt freebusy_query startDate endDate = Ok (VArr items) ->
  Forall2 (reads_as rt) items ivs ->
  Forall (fun t => Date_of rt (VStr (toISOString rt t)) = Some t)
         (grid start (hours_between start end_)) ->
  (hours_between start end_ <= fuel)%nat ->
  exists offered,
    findAvailableSlots rt freebusy_query fuel duration startDate endDate workingHours
      = Some (Ok offered) /\
    Forall (fun o =>
              available o = true /\
              slot_end o = slot_start o + duration * 60 * 1000 /\
              hours_start workingHours <= getHours rt (slot_start o) < hours_end workingHours /\
              forall iv, In iv ivs -> fst iv < snd iv ->
                         ~ (slot_start o < snd iv /\ fst iv < slot_end o))
           offered.
Proof.
  intros Hz Hs He Hb Hr Hrt Hf.
  unfold findAvailableSlots, checkAvailability. rewrite Hb, Hs, He.
  rewrite (timeSlots_grid offset items ivs end_ Hz Hr fuel start Hf).
  eexists. split; [reflexivity |]. now apply offers_sound.
Qed.

End AvailabilityFacts.

Lemma checkAvailability_hourly_grid_witness :
  Availability.checkAvailability Cases.calendar_host Cases.freebusy 4
    (VStr "2023-11-15T08:00:00.000Z") (VStr "2023-11-15T11:30:00.000Z")
  = Some (Ok (map (fun '(t, free) =>
                     {| Availability.slot_start := t;
                        Availability.slot_end := t + Availability.hour;
                        Availability.available := free |})
                  [(Cases.morning, true);
                   (Cases.morning + Availability.hour, false);
                   (Cases.morning + 2 * Availability.hour, false);
                   (Cases.morning + 3 * Availability.hour, true)])).
Proof.
  refine (proj1 (checkAvailability_hourly_grid Cases.calendar_host Cases.freebusy 0
                   Cases.morning Cases.half_past_eleven
                   (VStr "2023-11-15T08:00:00.000Z") (VStr "2023-11-15T11:30:00.000Z")
                   [Cases.busy_meeting] [Cases.meeting] 4 _ _ _ _ _ _)).
  - intros t b. reflexivity.
  - vm_compute. reflexivity.
  - vm_compute. reflexivity.
  - vm_compute. reflexivity.
  - constructor; [| constructor].
    exists (VStr (Scenario.iso8601 (fst Cases.meeting))),
           (VStr (Scenario.iso8601 (snd Cases.meeting))).
    repeat split; vm_compute; reflexivity.
  - vm_compute. lia.
Defined.

Lemma offered_windows_are_free_witness :
  exists offered,
    Availability.findAvailableSlots Cases.calendar_host Cases.freebusy 4 45
      (VStr "2023-11-15T08:00:00.000Z") (VStr "2023-11-15T11:30:00.000Z")
      Availability.default_hours = Some (Ok offered) /\
    Forall (fun o =>
              Availability.available o = true /\
              Availability.slot_end o = Availability.slot_start o + 45 * 60 * 1000 /\
              Availability.hours_start Availability.default_hours
                <= Availability.getHours Cases.calendar_host (Availability.slot_start o)
                < Availability.hours_end Availability.default_hours /\
              forall iv, In iv [Cases.meeting] -> fst iv < snd iv ->
                         ~ (Availability.slot_start o < snd iv
                            /\ fst iv < Availability.slot_end o))
           offered.
Proof.
  apply (offered_windows_are_free Cases.calendar_host Cases.freebusy 0
           Cases.morning Cases.half_past_eleven 45 Availability.default_hours
           (VStr "2023-11-15T08:00:00.000Z") (VStr "2023-11-15T11:30:00.000Z")
           [Cases.busy_meeting] [Cases.meeting] 4).
  - intros t b. reflexivity.
  - vm_compute. reflexivity.
  - vm_compute. reflexivity.
  - vm_compute. reflexivity.
  - constructor; [| constructor].
    exists (VStr (Scenario.iso8601 (fst Cases.meeting))),
           (VStr (Scenario.iso8601 (snd Cases.meeting))).
    repeat split; vm_compute; reflexivity.
  - repeat constructor.
  - vm_compute. lia.
Defined.
